(** * steamtoolsadder: a model of [steamtoolsadder_gui.py]

    The development embeds the two classes of the program that carry
    behaviour, [SteamToolsDownloader] (identifier resolution, archive
    download, installation, process control) and the request gate of
    [SteamToolsInstaller], and states the properties of the written
    specification over that embedding.

    Conventions.
    - A Python [str] is a [string]; each [ascii] stands for the code point
      of the same number, so the model covers the strings over code points
      0..255.  The character classes below are Python's on that range.
    - Mutable objects and the outside world (file system, network,
      processes) are threaded explicitly through a state and exception
      monad; an exception keeps the effects performed before it was raised.
    - [time.sleep] has no observable effect here and is left out. *)

From Stdlib Require Import Ascii String QArith.
From stdpp Require Import gmap strings list pretty.
Local Open Scope Z_scope.
Local Open Scope string_scope.
Local Open Scope list_scope.

(** ** Python strings *)

Module Py.

Definition code (c : ascii) : N := N_of_ascii c.

(** Unicode category Nd on 0..255: what [int] accepts and [\d] matches. *)
Definition is_decimal (c : ascii) : bool :=
  ((48 <=? code c) && (code c <=? 57))%N.

(** [str.isdigit] per character: the decimal digits and the superscripts
    U+00B2, U+00B3, U+00B9. *)
Definition ch_isdigit (c : ascii) : bool :=
  is_decimal c || (code c =? 178)%N || (code c =? 179)%N || (code c =? 185)%N.

(** [str.isspace] per character. *)
Definition ch_isspace (c : ascii) : bool :=
  ((9 <=? code c) && (code c <=? 13))%N || ((28 <=? code c) && (code c <=? 32))%N
  || (code c =? 133)%N || (code c =? 160)%N.

(** [str.lower] per character: A-Z and U+00C0..U+00DE without U+00D7. *)
Definition ch_lower (c : ascii) : ascii :=
  if ((65 <=? code c) && (code c <=? 90))%N
     || ((192 <=? code c) && (code c <=? 222) && negb (code c =? 215))%N
  then ascii_of_N (code c + 32)
  else c.

Fixpoint all_chars (p : ascii -> bool) (s : string) : bool :=
  match s with
  | EmptyString => true
  | String c t => p c && all_chars p t
  end.

Fixpoint lower (s : string) : string :=
  match s with
  | EmptyString => EmptyString
  | String c t => String (ch_lower c) (lower t)
  end.

(** [s.isdigit()]: at least one character and all of them digits. *)
Definition isdigit (s : string) : bool :=
  match s with
  | EmptyString => false
  | _ => all_chars ch_isdigit s
  end.

Definition digit_value (c : ascii) : Z := Z.of_N (code c) - 48.

Fixpoint int_acc (acc : Z) (s : string) : Z :=
  match s with
  | EmptyString => acc
  | String c t => int_acc (10 * acc + digit_value c) t
  end.

Fixpoint take_while (p : ascii -> bool) (s : string) : string :=
  match s with
  | String c t => if p c then String c (take_while p t) else EmptyString
  | EmptyString => EmptyString
  end.

(** [sys.int_info.default_max_str_digits]: the longest run of decimal
    digits [int] converts (CPython 3.11, and the security releases of 3.7
    to 3.10). *)
Definition max_str_digits : Z := 4300.

(** [int(s)] on the strings this program passes to it (runs of digit
    characters, without sign, space or underscore): the decimal value, or
    [None] for the [ValueError] raised when the leading run of decimal
    digits is longer than [max_str_digits], when [s] is empty, or when [s]
    holds a character that is not a decimal digit. *)
Definition int (s : string) : option Z :=
  if Z.ltb max_str_digits (Z.of_nat (String.length (take_while is_decimal s))) then None
  else
    match s with
    | EmptyString => None
    | _ => if all_chars is_decimal s then Some (int_acc 0 s) else None
    end.

(** [str(e)] of that [ValueError].  The strings passed hold no quote,
    backslash or unprintable character, so [repr(s)] is [s] between single
    quotes. *)
Definition int_error (s : string) : string :=
  let digits := Z.of_nat (String.length (take_while is_decimal s)) in
  if Z.ltb max_str_digits digits then
    "Exceeds the limit (4300 digits) for integer string conversion: value has "
    +:+ pretty digits +:+ " digits; use sys.set_int_max_str_digits() to increase the limit"
  else "invalid literal for int() with base 10: '" +:+ s +:+ "'".

(** [s.startswith(sub)]. *)
Fixpoint startswith (s sub : string) {struct sub} : bool :=
  match sub, s with
  | EmptyString, _ => true
  | String a sub', String b s' => Ascii.eqb a b && startswith s' sub'
  | String _ _, EmptyString => false
  end.

(** [sub in s]. *)
Fixpoint contains (sub s : string) : bool :=
  startswith s sub ||
  match s with
  | EmptyString => false
  | String _ t => contains sub t
  end.

Fixpoint drop (n : nat) (s : string) : string :=
  match n, s with
  | O, _ => s
  | S n', String _ t => drop n' t
  | S _, EmptyString => EmptyString
  end.

Fixpoint drop_while (p : ascii -> bool) (s : string) : string :=
  match s with
  | String c t => if p c then drop_while p t else s
  | EmptyString => EmptyString
  end.

(** [s.strip()]. *)
Definition strip (s : string) : string :=
  String.rev (drop_while ch_isspace (String.rev (drop_while ch_isspace s))).

(** [s.endswith(suffix)]. *)
Definition endswith (s suffix : string) : bool :=
  startswith (String.rev s) (String.rev suffix).

(** The pattern [/app/(\d+)] tried at the start of [s]: group 1 of the
    match.  [\d+] is greedy and nothing follows it, so the group is the
    whole run of decimal digits. *)
Definition match_app_here (s : string) : option string :=
  if startswith s "/app/" then
    match take_while is_decimal (drop 5 s) with
    | EmptyString => None
    | ds => Some ds
    end
  else None.

(** [re.search(r'/app/(\d+)', s)]: the match at the leftmost position
    that has one; [None] when no position has. *)
Fixpoint re_search_app (s : string) : option string :=
  match match_app_here s with
  | Some ds => Some ds
  | None =>
      match s with
      | EmptyString => None
      | String _ t => re_search_app t
      end
  end.

(** [s > t] on strings: lexicographic on code points. *)
Definition str_gtb (s t : string) : bool :=
  match String.compare s t with
  | Gt => true
  | _ => false
  end.

End Py.

(** ** Sequence similarity ([difflib])

    [find_game] ranks catalog names with [difflib.get_close_matches].  The
    three similarity scores of [difflib.SequenceMatcher] form an interface;
    [get_close_matches] is written over it, and [Difflib] below gives the
    standard library's algorithm as its instance.  A score is the rational
    [2 * matches / (len a + len b)]; Python computes its correctly rounded
    double, which orders and compares with 0.7 as the rational does for
    every pair of strings shorter than 10^15 characters. *)

Class SequenceMatcher := {
  ratio : string -> string -> Q;
  quick_ratio : string -> string -> Q;
  real_quick_ratio : string -> string -> Q
}.

(** [(s1, x1) > (s2, x2)] on (score, name) tuples. *)
Definition scored_gtb (p q : Q * string) : bool :=
  match (p.1 ?= q.1)%Q with
  | Gt => true
  | Eq => Py.str_gtb p.2 q.2
  | Lt => false
  end.

Fixpoint insert_desc (p : Q * string) (l : list (Q * string)) : list (Q * string) :=
  match l with
  | [] => [p]
  | q :: l' => if scored_gtb q p then q :: insert_desc p l' else p :: l
  end.

Definition sort_desc (l : list (Q * string)) : list (Q * string) :=
  foldr insert_desc [] l.

(** [heapq.nlargest(n, l)]: the [n] largest, largest first. *)
Definition nlargest (n : nat) (l : list (Q * string)) : list (Q * string) :=
  take n (sort_desc l).

Section close_matches.
Context `{SequenceMatcher}.

(** The test of [get_close_matches] on one candidate [x] (sequence 1)
    against [word] (sequence 2). *)
Definition close_enough (cutoff : Q) (word x : string) : bool :=
  Qle_bool cutoff (real_quick_ratio x word)
  && Qle_bool cutoff (quick_ratio x word)
  && Qle_bool cutoff (ratio x word).

(** [difflib.get_close_matches(word, possibilities, n, cutoff)], for
    [n > 0] and [0 <= cutoff <= 1] (otherwise it raises [ValueError]). *)
Definition get_close_matches (word : string) (possibilities : list string)
    (n : nat) (cutoff : Q) : list string :=
  let result :=
    (fun x => (ratio x word, x)) <$> filter (fun x => close_enough cutoff word x = true) possibilities in
  snd <$> nlargest n result.
End close_matches.

(** [difflib.SequenceMatcher] with [isjunk=None] and [autojunk=True], as
    [get_close_matches] creates it: sequence 2 is the word, sequence 1 the
    candidate. *)
Module Difflib.

Definition count (c : ascii) (b : list ascii) : nat :=
  length (filter (fun x => x = c) b).

Fixpoint indices_from (k : nat) (c : ascii) (b : list ascii) : list nat :=
  match b with
  | [] => []
  | x :: b' => if decide (x = c) then k :: indices_from (S k) c b'
               else indices_from (S k) c b'
  end.

(** [__chain_b]: an element of a sequence of at least 200 items that
    occurs more often than [n // 100 + 1] times is popular and loses its
    entry in [b2j]. *)
Definition popular (b : list ascii) (c : ascii) : bool :=
  (200 <=? length b)%nat && (length b / 100 + 1 <? count c b)%nat.

Definition b2j (b : list ascii) (c : ascii) : list nat :=
  if popular b c then [] else indices_from 0 c b.

(** No element is junk when [isjunk] is [None]. *)
Definition isbjunk (c : ascii) : bool := false.

Definition best : Type := nat * nat * nat.

(** The loop [for j in b2j.get(a[i], nothing)] of [find_longest_match]. *)
Fixpoint scan_js (js : list nat) (i blo bhi : nat) (j2len newj2len : gmap nat nat)
    (bst : best) : gmap nat nat * best :=
  match js with
  | [] => (newj2len, bst)
  | j :: js' =>
      if (j <? blo)%nat then scan_js js' i blo bhi j2len newj2len bst
      else if (bhi <=? j)%nat then (newj2len, bst)
      else
        let k := (match j with
                  | O => 0
                  | S j' => default 0 (j2len !! j')
                  end + 1)%nat in
        let bst' := if (bst.2 <? k)%nat then (i + 1 - k, j + 1 - k, k)%nat else bst in
        scan_js js' i blo bhi j2len (<[j:=k]> newj2len) bst'
  end.

(** The loop [for i in range(alo, ahi)]. *)
Fixpoint scan_is (is_ : list nat) (a b : list ascii) (blo bhi : nat)
    (j2len : gmap nat nat) (bst : best) : best :=
  match is_ with
  | [] => bst
  | i :: is' =>
      let js := match a !! i with Some c => b2j b c | None => [] end in
      let '(newj2len, bst') := scan_js js i blo bhi j2len ∅ bst in
      scan_is is' a b blo bhi newj2len bst'
  end.

Definition same_at (a b : list ascii) (i j : nat) : bool :=
  match a !! i, b !! j with
  | Some x, Some y => bool_decide (x = y)
  | _, _ => false
  end.

Definition junk_at (b : list ascii) (j : nat) : bool :=
  match b !! j with Some y => isbjunk y | None => false end.

(** The two pairs of [while] loops that grow the block to the left and
    to the right, first over elements that are not junk ([junk = false]),
    then over junk. *)
Fixpoint extend_left (fuel : nat) (junk : bool) (a b : list ascii) (alo blo : nat)
    (bst : best) : best :=
  match fuel with
  | O => bst
  | S fuel' =>
      let '(bi, bj, bs) := bst in
      if (alo <? bi)%nat && (blo <? bj)%nat
         && bool_decide (junk_at b (bj - 1) = junk) && same_at a b (bi - 1) (bj - 1)
      then extend_left fuel' junk a b alo blo (bi - 1, bj - 1, bs + 1)%nat
      else bst
  end.

Fixpoint extend_right (fuel : nat) (junk : bool) (a b : list ascii) (ahi bhi : nat)
    (bst : best) : best :=
  match fuel with
  | O => bst
  | S fuel' =>
      let '(bi, bj, bs) := bst in
      if (bi + bs <? ahi)%nat && (bj + bs <? bhi)%nat
         && bool_decide (junk_at b (bj + bs) = junk) && same_at a b (bi + bs) (bj + bs)
      then extend_right fuel' junk a b ahi bhi (bi, bj, bs + 1)%nat
      else bst
  end.

Definition find_longest_match (a b : list ascii) (alo ahi blo bhi : nat) : best :=
  let bst := scan_is (seq alo (ahi - alo)) a b blo bhi ∅ (alo, blo, 0%nat) in
  let bst := extend_left (length a) false a b alo blo bst in
  let bst := extend_right (length a) false a b ahi bhi bst in
  let bst := extend_left (length a) true a b alo blo bst in
  extend_right (length a) true a b ahi bhi bst.

(** The sum of the sizes of [get_matching_blocks]: the longest block of
    the window, then the windows to its left and to its right.  Every
    nested window is shorter in [a], so [length a + 1] levels are enough. *)
Fixpoint matches (fuel : nat) (a b : list ascii) (alo ahi blo bhi : nat) : nat :=
  match fuel with
  | O => 0
  | S fuel' =>
      let '(i, j, k) := find_longest_match a b alo ahi blo bhi in
      if (k =? 0)%nat then 0%nat
      else
        (k
         + (if (alo <? i) && (blo <? j) then matches fuel' a b alo i blo j else 0)
         + (if (i + k <? ahi) && (j + k <? bhi) then matches fuel' a b (i + k) ahi (j + k) bhi else 0))%nat
  end.

(** [_calculate_ratio]. *)
Definition calculate_ratio (m len : nat) : Q :=
  match len with
  | O => 1%Q
  | _ => (2 * Z.of_nat m # Pos.of_nat len)%Q
  end.

Definition ratio (x word : string) : Q :=
  let a := list_ascii_of_string x in
  let b := list_ascii_of_string word in
  calculate_ratio (matches (S (length a)) a b 0 (length a) 0 (length b))
                  (length a + length b).

(** The loop of [quick_ratio]: [avail] counts how often each element of
    [b] is still free to pair with an element of [a]. *)
Fixpoint quick_matches (a b : list ascii) (avail : gmap ascii Z) : nat :=
  match a with
  | [] => 0
  | elt :: a' =>
      let numb := match avail !! elt with
                  | Some v => v
                  | None => Z.of_nat (count elt b)
                  end in
      ((if (0 <? numb)%Z then 1 else 0) + quick_matches a' b (<[elt := (numb - 1)%Z]> avail))%nat
  end.

Definition quick_ratio (x word : string) : Q :=
  let a := list_ascii_of_string x in
  let b := list_ascii_of_string word in
  calculate_ratio (quick_matches a b ∅) (length a + length b).

Definition real_quick_ratio (x word : string) : Q :=
  let la := String.length x in
  let lb := String.length word in
  calculate_ratio (la `min` lb) (la + lb).

End Difflib.

#[export] Instance difflib_matcher : SequenceMatcher := {
  ratio := Difflib.ratio;
  quick_ratio := Difflib.quick_ratio;
  real_quick_ratio := Difflib.real_quick_ratio
}.

(** ** The outside world

    A path is its list of components and compares component by component.
    The file system maps the paths that exist to their kind; [denied] holds
    the paths the operating system refuses to open for writing or to
    remove.  The text of an exception that comes from outside the program
    (the operating system, the network, a decoder) is given by the world,
    the program only passes it on. *)

Abbreviation path := (list string) (only parsing).

Inductive node : Type :=
| File (data : string)
| Dir.

#[export] Instance node_eq_dec : EqDecision node.
Proof. solve_decision. Defined.

(** What the program reads of an HTTP response.  [chunks] is the body as
    [iter_content] yields it and [complete] tells whether the stream then
    ends normally or breaks, with [stream_error] as the text of the
    exception; [apps] is [response.json()['applist']['apps']] as (name,
    appid) records, [None] when decoding the body or reading a key raises,
    with [apps_error] as the text of the exception; [reason] and [url] are
    the reason phrase and the final URL, which [raise_for_status] quotes. *)
Record response : Type := {
  status_code : Z;
  chunks : list string;
  complete : bool;
  apps : option (list (string * Z));
  reason : string;
  url : string;
  stream_error : string;
  apps_error : string
}.

Inductive http_result : Type :=
| ConnectionError (msg : string)
| Responded (r : response).

Record world : Type := {
  nodes : gmap path node;
  denied : gset path;
  (** the answer to the k-th request of the process, sent to a URL *)
  net : nat -> string -> http_result;
  requests : list string;
  environ : gmap string path;
  home : path;
  (** [zipfile]: the entries of an archive, [None] for a bad archive *)
  unzip : string -> option (list (path * node));
  (** [subprocess.Popen(..., shell=True)]: the error it raises when the
      shell cannot be spawned for a command, if any *)
  popen_error : path -> option string;
  (** the commands for which a shell was spawned; whether the shell then
      starts the executable is not observed by the program *)
  shell_commands : list path;
  stdout : list string;
  logged : list string;
  (** [str(e)] of the [OSError] of a failed operation on a path *)
  os_error : path -> string
}.

Definition set_nodes (f : gmap path node -> gmap path node) (w : world) : world :=
  {| nodes := f (nodes w); denied := denied w; net := net w; requests := requests w;
     environ := environ w; home := home w; unzip := unzip w;
     popen_error := popen_error w; shell_commands := shell_commands w;
     stdout := stdout w; logged := logged w; os_error := os_error w |}.

Definition add_request (url : string) (w : world) : world :=
  {| nodes := nodes w; denied := denied w; net := net w; requests := requests w ++ [url];
     environ := environ w; home := home w; unzip := unzip w;
     popen_error := popen_error w; shell_commands := shell_commands w;
     stdout := stdout w; logged := logged w; os_error := os_error w |}.

Definition add_shell_command (exe : path) (w : world) : world :=
  {| nodes := nodes w; denied := denied w; net := net w; requests := requests w;
     environ := environ w; home := home w; unzip := unzip w;
     popen_error := popen_error w; shell_commands := shell_commands w ++ [exe];
     stdout := stdout w; logged := logged w; os_error := os_error w |}.

Definition add_stdout (line : string) (w : world) : world :=
  {| nodes := nodes w; denied := denied w; net := net w; requests := requests w;
     environ := environ w; home := home w; unzip := unzip w;
     popen_error := popen_error w; shell_commands := shell_commands w;
     stdout := stdout w ++ [line]; logged := logged w; os_error := os_error w |}.

Definition add_logged (line : string) (w : world) : world :=
  {| nodes := nodes w; denied := denied w; net := net w; requests := requests w;
     environ := environ w; home := home w; unzip := unzip w;
     popen_error := popen_error w; shell_commands := shell_commands w;
     stdout := stdout w; logged := logged w ++ [line]; os_error := os_error w |}.

(** *** File system operations *)

Module Fs.

(** The root always exists. *)
Definition lookup (fs : gmap path node) (p : path) : option node :=
  match p with
  | [] => Some Dir
  | _ => fs !! p
  end.

(** [Path.exists()] where the system answers the probe: the entry is there
    or it is not.  A probe the system refuses to answer (the
    [PermissionError] of [stat], which [exists] lets through) is not part
    of the world: what is stated about a caller of [exists_], [is_dir] or
    [rglob] speaks of the runs in which every probe is answered. *)
Definition exists_ (fs : gmap path node) (p : path) : bool :=
  bool_decide (is_Some (lookup fs p)).

Definition is_dir (fs : gmap path node) (p : path) : bool :=
  bool_decide (lookup fs p = Some Dir).

Definition parent (p : path) : path := removelast p.

(** [Path.name]: the last component. *)
Definition name (p : path) : string := default "" (last p).

(** One step of [mkdir(parents=True, exist_ok=True)]: make sure that [p],
    whose parent is in place, is a directory. *)
Definition ensure_dir (fs : gmap path node) (p : path) : option (gmap path node) :=
  match lookup fs p with
  | Some Dir => Some fs
  | Some (File _) => None
  | None => Some (<[p := Dir]> fs)
  end.

Fixpoint ensure_dirs (fs : gmap path node) (ps : list path) : option (gmap path node) :=
  match ps with
  | [] => Some fs
  | p :: ps' =>
      match ensure_dir fs p with
      | Some fs' => ensure_dirs fs' ps'
      | None => None
      end
  end.

(** The non-empty prefixes of a path, shortest first. *)
Fixpoint ancestors (pre p : path) : list path :=
  match p with
  | [] => []
  | c :: p' => (pre ++ [c]) :: ancestors (pre ++ [c]) p'
  end.

(** [Path(p).mkdir(parents=True, exist_ok=True)]; [None] when a component
    exists and is not a directory. *)
Definition mkdir_p (fs : gmap path node) (p : path) : option (gmap path node) :=
  ensure_dirs fs (ancestors [] p).

(** [open(p, 'wb')] followed by the writes of [data]: the parent must be
    a directory, [p] must not be one, and the system must allow it. *)
Definition write_file (fs : gmap path node) (deny : gset path) (p : path) (data : string)
    : option (gmap path node) :=
  if is_dir fs (parent p) && negb (is_dir fs p) && bool_decide (p ∉ deny)
     && bool_decide (p ≠ [])
  then Some (<[p := File data]> fs)
  else None.

(** [shutil.copy2(src, dst)]: a directory as [dst] stands for the entry
    of the source's name inside it; copying a file onto itself, reading
    anything but a regular file and a refused write raise. *)
Definition copy2 (fs : gmap path node) (deny : gset path) (src dst : path)
    : option (gmap path node) :=
  let dst := if is_dir fs dst then dst ++ [name src] else dst in
  if bool_decide (src = dst) then None
  else
    match lookup fs src with
    | Some (File data) => write_file fs deny dst data
    | _ => None
    end.

(** The entries directly inside [p], in the order the system lists them. *)
Definition children (fs : gmap path node) (p : path) : list path :=
  filter (fun q => q ≠ [] ∧ parent q = p) (map_to_list fs).*1.

(** The walk of [shutil.rmtree] below the directory [p]: the entries of
    [p] as listed when the walk enters it are removed one after the other,
    a directory after its own content, then [p] itself.  The walk stops at
    the first entry the system refuses to remove, and what it removed by
    then stays removed.  [fuel] bounds the depth. *)
Fixpoint rmtree_walk (fuel : nat) (deny : gset path) (p : path) (fs : gmap path node)
    : gmap path node * bool :=
  match fuel with
  | O => (fs, false)
  | S fuel' =>
      let step (acc : gmap path node * bool) (q : path) : gmap path node * bool :=
        if acc.2 then
          match acc.1 !! q with
          | Some Dir => rmtree_walk fuel' deny q acc.1
          | Some (File _) =>
              if bool_decide (q ∈ deny) then (acc.1, false) else (delete q acc.1, true)
          | None => acc
          end
        else acc in
      let r := foldl step (fs, true) (children fs p) in
      if r.2 then
        if bool_decide (p ∈ deny) then (r.1, false) else (delete p r.1, true)
      else r
  end.

(** The entries of the tree rooted at [p], [p] included. *)
Definition tree (fs : gmap path node) (p : path) : list path :=
  filter (fun q => p `prefix_of` q) (map_to_list fs).*1.

(** [shutil.rmtree(p)]: the file system it leaves, and whether it returned
    ([true]) or raised.  [p] must be a directory.  When no entry of the
    tree is refused, the walk removes the whole tree; otherwise it raises
    where [rmtree_walk] stops. *)
Definition rmtree (fs : gmap path node) (deny : gset path) (p : path)
    : gmap path node * bool :=
  if is_dir fs p then
    if bool_decide (Forall (fun q => q ∉ deny) (tree fs p))
    then (filter (fun kv => ¬ p `prefix_of` kv.1) fs, true)
    else ((rmtree_walk (S (size fs)) deny p fs).1, false)
  else (fs, false).

(** [Path.unlink()]. *)
Definition unlink (fs : gmap path node) (p : path) : option (gmap path node) :=
  match lookup fs p with
  | Some (File _) => Some (delete p fs)
  | _ => None
  end.

(** [list(root.rglob(pattern))] for a pattern that constrains the name
    only: the entries at any depth below the directory [root] whose name
    matches, in the order the system lists them. *)
Definition rglob (fs : gmap path node) (root : path) (matches : string -> bool) : list path :=
  if is_dir fs root
  then filter (fun p => root `prefix_of` p ∧ p ≠ root ∧ matches (name p) = true)
              (map_to_list fs).*1
  else [].

(** [ZipFile.extractall(dest)] entry by entry; an entry that cannot be
    written raises and leaves the earlier ones in place. *)
Fixpoint extract (fs : gmap path node) (deny : gset path) (dest : path)
    (entries : list (path * node)) : gmap path node * bool :=
  match entries with
  | [] => (fs, true)
  | (rel, n) :: rest =>
      let target := dest ++ rel in
      let step :=
        match n with
        | Dir => mkdir_p fs target
        | File data =>
            match mkdir_p fs (parent target) with
            | Some fs' => write_file fs' deny target data
            | None => None
            end
        end in
      match step with
      | Some fs' => extract fs' deny dest rest
      | None => (fs, false)
      end
  end.

End Fs.

(** ** The state and exception monad *)

Inductive exn : Type :=
| Exn (kind msg : string).

(** [str(e)]. *)
Definition str_exn (e : exn) : string :=
  match e with Exn _ msg => msg end.

Inductive result (A : Type) : Type :=
| Return (a : A)
| Raise (e : exn).
Arguments Return {A} a.
Arguments Raise {A} e.

(** The downloader object: its three mutable attributes. *)
Record SteamToolsDownloader : Type := {
  games_cache : gmap string Z;
  steamtools_exe : option path;
  _steam_folder : option path
}.

Record state : Type := {
  self : SteamToolsDownloader;
  outside : world
}.

Definition M (A : Type) : Type := state -> result A * state.

#[export] Instance M_ret : MRet M := fun A a s => (Return a, s).

#[export] Instance M_bind : MBind M := fun A B f m s =>
  match m s with
  | (Return a, s') => f a s'
  | (Raise e, s') => (Raise e, s')
  end.

Definition raise {A : Type} (e : exn) : M A := fun s => (Raise e, s).

(** [try: body  except Exception as e: handler(e)]. *)
Definition try_except {A : Type} (body : M A) (handler : exn -> M A) : M A := fun s =>
  match body s with
  | (Return a, s') => (Return a, s')
  | (Raise e, s') => handler e s'
  end.

Definition get_self : M SteamToolsDownloader := fun s => (Return (self s), s).
Definition get_world : M world := fun s => (Return (outside s), s).

Definition modify_self (f : SteamToolsDownloader -> SteamToolsDownloader) : M unit := fun s =>
  (Return tt, {| self := f (self s); outside := outside s |}).

Definition modify_world (f : world -> world) : M unit := fun s =>
  (Return tt, {| self := self s; outside := f (outside s) |}).

(** A file system operation on the path [target] that either changes the
    file system or raises the [OSError] of the system. *)
Definition fs_op (target : path) (op : gmap path node -> gset path -> option (gmap path node))
    : M unit := fun s =>
  match op (nodes (outside s)) (denied (outside s)) with
  | Some fs' => (Return tt, {| self := self s; outside := set_nodes (fun _ => fs') (outside s) |})
  | None => (Raise (Exn "OSError" (os_error (outside s) target)), s)
  end.

(** [shutil.rmtree(p)] as a computation: what the walk removed before it
    raised stays removed. *)
Definition rmtree_op (p : path) : M unit := fun s =>
  let r := Fs.rmtree (nodes (outside s)) (denied (outside s)) p in
  let s' := {| self := self s; outside := set_nodes (fun _ => r.1) (outside s) |} in
  if r.2 then (Return tt, s') else (Raise (Exn "OSError" (os_error (outside s) p)), s').

(** [print(line)]. *)
Definition print (line : string) : M unit := modify_world (add_stdout line).

(** [if log_callback: log_callback(line)]; the calls of the callback are
    recorded in [logged]. *)
Definition log (log_callback : bool) (line : string) : M unit :=
  if log_callback then modify_world (add_logged line) else mret tt.

(** [requests.get(url, ...)]: the request is sent, then it raises or
    gives a response. *)
Definition requests_get (url : string) : M response := fun s =>
  let k := length (requests (outside s)) in
  let s' := {| self := self s; outside := add_request url (outside s) |} in
  match net (outside s) k url with
  | ConnectionError msg => (Raise (Exn "ConnectionError" msg), s')
  | Responded r => (Return r, s')
  end.

(** [for x in l: body(x)]. *)
Fixpoint for_each {A : Type} (l : list A) (body : A -> M unit) : M unit :=
  match l with
  | [] => mret tt
  | x :: l' => body x ;; for_each l' body
  end.

(** ** [SteamToolsDownloader] *)

Definition base_url : string := "https://api.steampowered.com".
Definition r2_base_url : string := "https://pub-5b6d3b7c03fd4ac1afb5bd3017850e20.r2.dev".

Definition nl : string := String (ascii_of_N 10) EmptyString.

Definition set_games_cache (c : gmap string Z) (d : SteamToolsDownloader) : SteamToolsDownloader :=
  {| games_cache := c; steamtools_exe := steamtools_exe d; _steam_folder := _steam_folder d |}.

Definition set_steamtools_exe (e : option path) (d : SteamToolsDownloader) : SteamToolsDownloader :=
  {| games_cache := games_cache d; steamtools_exe := e; _steam_folder := _steam_folder d |}.

Definition set_steam_folder (f : option path) (d : SteamToolsDownloader) : SteamToolsDownloader :=
  {| games_cache := games_cache d; steamtools_exe := steamtools_exe d; _steam_folder := f |}.

(** What [find_game] returns: an [int], a list of (name, id) pairs, or
    [None]. *)
Inductive resolution : Type :=
| ResolvedId (app_id : Z)
| CandidateSet (candidates : list (string * Z))
| NotFound.

Definition common_paths (w : world) : list path :=
  [ home w ++ ["AppData"; "Local"; "SteamTools"];
    home w ++ ["AppData"; "Roaming"; "SteamTools"];
    ["C:"; "Program Files"; "SteamTools"];
    ["C:"; "Program Files (x86)"; "SteamTools"] ].

(** The loop of [find_steamtools_exe]: the first hit of the recursive
    search below the first base path that has one. *)
Fixpoint first_exe (fs : gmap path node) (bases : list path) : option path :=
  match bases with
  | [] => None
  | base_path :: rest =>
      if Fs.exists_ fs base_path then
        match Fs.rglob fs base_path (String.eqb "SteamTools.exe") with
        | exe_file :: _ => Some exe_file
        | [] => first_exe fs rest
        end
      else first_exe fs rest
  end.

Definition find_steamtools_exe : M (option path) :=
  w ← get_world;
  mret (first_exe (nodes w) (common_paths w)).

(** [__init__]. *)
Definition init : M unit :=
  exe ← find_steamtools_exe;
  modify_self (fun _ => {| games_cache := ∅; steamtools_exe := exe; _steam_folder := None |}).

(** The dict comprehension of [get_app_list]: a later record of a name
    replaces an earlier one. *)
Definition build_cache (l : list (string * Z)) : gmap string Z :=
  foldl (fun m app => <[Py.lower app.1 := app.2]> m) ∅ l.

Definition get_app_list : M (gmap string Z) :=
  d ← get_self;
  (if bool_decide (games_cache d = ∅) then
     try_except
       (response ← requests_get (base_url +:+ "/ISteamApps/GetAppList/v2/");
        match apps response with
        | Some l => modify_self (set_games_cache (build_cache l))
        | None => raise (Exn "ValueError" (apps_error response))
        end)
       (fun e => print ("Error fetching app list: " +:+ str_exn e))
   else mret tt);;
  d ← get_self;
  mret (games_cache d).

Definition possible_paths (w : world) : list path :=
  [ default ["C:"; "Program Files (x86)"] (environ w !! "PROGRAMFILES(X86)") ++ ["Steam"];
    default ["C:"; "Program Files"] (environ w !! "PROGRAMFILES") ++ ["Steam"];
    ["C:"; "Program Files (x86)"; "Steam"];
    ["C:"; "Program Files"; "Steam"] ].

Definition find_steam_folder : M (option path) :=
  d ← get_self;
  match _steam_folder d with
  | Some folder => mret (Some folder)
  | None =>
      w ← get_world;
      match List.find (Fs.exists_ (nodes w)) (possible_paths w) with
      | Some steam_path =>
          modify_self (set_steam_folder (Some steam_path));;
          mret (Some steam_path)
      | None => mret None
      end
  end.

(** [int(s)] as a computation. *)
Definition py_int (s : string) : M Z :=
  match Py.int s with
  | Some z => mret z
  | None => raise (Exn "ValueError" (Py.int_error s))
  end.

(** [games[key]]. *)
Definition subscript (games : gmap string Z) (key : string) : M Z :=
  match games !! key with
  | Some v => mret v
  | None => raise (Exn "KeyError" ("'" +:+ key +:+ "'"))
  end.

(** [[(match, games[match]) for match in matches]]. *)
Fixpoint with_ids (games : gmap string Z) (matches : list string) : M (list (string * Z)) :=
  match matches with
  | [] => mret []
  | m :: rest =>
      v ← subscript games m;
      l ← with_ids games rest;
      mret ((m, v) :: l)
  end.

(** The first test of [find_game]: group 1 of the pattern when the query
    names one of the two hosts and the pattern matches. *)
Definition url_app_id (query : string) : option string :=
  if Py.contains "store.steampowered.com" query || Py.contains "steamcommunity.com" query
  then Py.re_search_app query
  else None.

Section find_game.
Context `{SequenceMatcher}.

(** The part of [find_game] after the two shortcuts. *)
Definition lookup_by_name (query : string) : M resolution :=
  games ← get_app_list;
  if bool_decide (games = ∅) then mret NotFound
  else
    let query_lower := Py.lower query in
    match games !! query_lower with
    | Some app_id => mret (ResolvedId app_id)
    | None =>
        match get_close_matches query_lower (map_to_list games).*1 5 (7 # 10) with
        | [] => mret NotFound
        | matches => l ← with_ids games matches; mret (CandidateSet l)
        end
    end.

Definition find_game (query : string) : M resolution :=
  match url_app_id query with
  | Some group1 => app_id ← py_int group1; mret (ResolvedId app_id)
  | None =>
      if Py.isdigit query then app_id ← py_int query; mret (ResolvedId app_id)
      else lookup_by_name query
  end.
End find_game.

(** The text of the [HTTPError] of [raise_for_status]. *)
Definition http_error_msg (r : response) : string :=
  pretty (status_code r)
  +:+ (if bool_decide (status_code r < 500) then " Client Error: " else " Server Error: ")
  +:+ reason r +:+ " for url: " +:+ url r.

(** [response.raise_for_status()]. *)
Definition raise_for_status (r : response) : M unit :=
  if bool_decide (400 <= status_code r < 600)
  then raise (Exn "HTTPError" (http_error_msg r))
  else mret tt.

(** The [with open(zip_path, 'wb')] block: the chunks received are written;
    a stream that breaks raises after them. *)
Definition write_stream (zip_path : path) (r : response) : M unit :=
  fs_op zip_path (fun fs deny => Fs.write_file fs deny zip_path (String.concat "" (chunks r)));;
  if complete r then mret tt else raise (Exn "ChunkedEncodingError" (stream_error r)).

(** The [with zipfile.ZipFile(zip_path, 'r')] block. *)
Definition extractall (zip_path output_dir : path) : M unit :=
  w ← get_world;
  match Fs.lookup (nodes w) zip_path with
  | Some (File data) =>
      match unzip w data with
      | Some entries =>
          let '(fs', ok) := Fs.extract (nodes w) (denied w) output_dir entries in
          modify_world (set_nodes (fun _ => fs'));;
          if ok then mret tt else raise (Exn "OSError" (os_error w output_dir))
      | None => raise (Exn "BadZipFile" "File is not a zip file")
      end
  | _ => raise (Exn "OSError" (os_error w zip_path))
  end.

(** The two lines [download_appid_zip] logs on the way to a 404. *)
Definition downloading_line (app_id : Z) : string :=
  "[2/5] Downloading " +:+ pretty app_id +:+ ".zip from R2 storage...".

Definition no_data_line (app_id : Z) : string :=
  "No data found for App ID " +:+ pretty app_id.

(** [f"{self.r2_base_url}/{app_id}.zip"]. *)
Definition archive_url (app_id : Z) : string :=
  r2_base_url +:+ "/" +:+ pretty app_id +:+ ".zip".

Definition download_appid_zip (app_id : Z) (output_dir : path) (log_callback : bool) : M bool :=
  log log_callback (downloading_line app_id);;
  fs_op output_dir (fun fs _ => Fs.mkdir_p fs output_dir);;
  let url := archive_url app_id in
  let zip_path := output_dir ++ [pretty app_id +:+ ".zip"] in
  try_except
    (response ← requests_get url;
     if bool_decide (status_code response = 404) then
       log log_callback (no_data_line app_id);;
       mret false
     else
       raise_for_status response;;
       write_stream zip_path response;;
       log log_callback ("Downloaded: " +:+ Fs.name zip_path);;
       log log_callback "Extracting...";;
       extractall zip_path output_dir;;
       log log_callback "Extracted successfully";;
       fs_op zip_path (fun fs _ => Fs.unlink fs zip_path);;
       mret true)
    (fun e =>
       log log_callback ("Error during download/extraction: " +:+ str_exn e);;
       mret false).

(** The patterns [*.lua], [*.manifest] and [*.st] on a name. *)
Definition is_lua (n : string) : bool := Py.endswith n ".lua".

Definition is_manifest (n : string) : bool := Py.endswith n ".manifest".

Definition is_st (n : string) : bool := Py.endswith n ".st".

(** One turn of a copy loop of [copy_files_to_steam]. *)
Definition copy_one (dest_folder : path) (log_callback : bool) (file_path : path) : M unit :=
  try_except
    (let dest_path := dest_folder ++ [Fs.name file_path] in
     fs_op dest_path (fun fs deny => Fs.copy2 fs deny file_path dest_path))
    (fun e => log log_callback ("  ✗ Failed: " +:+ str_exn e)).

Definition copy_files_to_steam (source_dir : path) (log_callback : bool) : M bool :=
  let source_path := source_dir in
  w ← get_world;
  let lua_files := Fs.rglob (nodes w) source_path is_lua in
  let manifest_files := Fs.rglob (nodes w) source_path is_manifest in
  let st_files := Fs.rglob (nodes w) source_path is_st in
  if bool_decide (lua_files = []) && bool_decide (manifest_files = [])
     && bool_decide (st_files = [])
  then
    log log_callback "No files found to copy.";;
    mret false
  else
    log log_callback (nl +:+ "[3/5] Copying files to Steam...");;
    found ← find_steam_folder;
    match found with
    | None =>
        log log_callback (nl +:+ "Could not find Steam installation.");;
        mret false
    | Some steam_folder =>
        let stplug_folder := steam_folder ++ ["config"; "stplug-in"] in
        let depotcache_folder := steam_folder ++ ["depotcache"] in
        fs_op stplug_folder (fun fs _ => Fs.mkdir_p fs stplug_folder);;
        fs_op depotcache_folder (fun fs _ => Fs.mkdir_p fs depotcache_folder);;
        let files_to_copy := lua_files ++ st_files in
        (if bool_decide (files_to_copy = []) then mret tt
         else
           log log_callback (nl +:+ "Copying plugin file(s) to config/stplug-in...");;
           for_each files_to_copy (copy_one stplug_folder log_callback));;
        (if bool_decide (manifest_files = []) then mret tt
         else
           log log_callback (nl +:+ "Copying manifest file(s) to depotcache...");;
           for_each manifest_files (copy_one depotcache_folder log_callback));;
        log log_callback (nl +:+ "[4/5] Cleaning up...");;
        try_except
          (rmtree_op source_path;;
           log log_callback "✓ Deleted temporary files")
          (fun e => log log_callback ("⚠ Could not delete downloads folder: " +:+ str_exn e));;
        mret true
    end.

(** [subprocess.Popen([str(exe)], shell=True)]: a shell is spawned for the
    command, and [Popen] returns as soon as the shell runs; it raises when
    the shell cannot be spawned.  Whether the shell then starts the
    executable is not observed by the program. *)
Definition popen (exe : path) : M unit :=
  w ← get_world;
  match popen_error w exe with
  | Some msg => raise (Exn "OSError" msg)
  | None => modify_world (add_shell_command exe)
  end.

Definition launch_steamtools (log_callback : bool) : M bool :=
  d ← get_self;
  (match steamtools_exe d with
   | None => exe ← find_steamtools_exe; modify_self (set_steamtools_exe exe)
   | Some _ => mret tt
   end);;
  d ← get_self;
  w ← get_world;
  match steamtools_exe d with
  | Some exe =>
      if Fs.exists_ (nodes w) exe then
        try_except
          (popen exe;;
           log log_callback "✓ SteamTools launched";;
           mret true)
          (fun e =>
             log log_callback ("⚠ Could not launch SteamTools: " +:+ str_exn e);;
             mret false)
      else
        log log_callback "⚠ SteamTools.exe not found. Skipping launch.";;
        mret false
  | None =>
      log log_callback "⚠ SteamTools.exe not found. Skipping launch.";;
      mret false
  end.

(** [start_steam]: the two early returns log nothing. *)
Definition start_steam (log_callback : bool) : M bool :=
  found ← find_steam_folder;
  match found with
  | None => mret false
  | Some steam_folder =>
      let steam_exe := steam_folder ++ ["steam.exe"] in
      w ← get_world;
      if Fs.exists_ (nodes w) steam_exe then
        try_except
          (popen steam_exe;;
           log log_callback "✓ Steam started";;
           mret true)
          (fun e =>
             log log_callback ("⚠ Could not start Steam: " +:+ str_exn e);;
             mret false)
      else mret false
  end.


(** ** [SteamToolsInstaller]: the request gate

    The window object with the attributes its handlers read and write.
    Message boxes shown and threads started are recorded in the order in
    which they happen. *)

Inductive dialog : Type :=
| ShowError (title text : string)
| ShowWarning (title text : string).

Inductive thread : Type :=
| InitialSearchThread (query : string)
| DownloadThread (app_id : Z).

Record SteamToolsInstaller : Type := {
  downloader : SteamToolsDownloader;
  is_processing : bool;
  search_entry : string;
  install_btn_enabled : bool;
  progress_running : bool;
  log_text : string;
  status_label : string;
  dialogs : list dialog;
  threads : list thread
}.

Definition missing_requirement : dialog :=
  ShowError "Missing Requirement"
    "SteamTools.exe was not found. Please install SteamTools manually and restart this application.".

Definition input_required : dialog :=
  ShowWarning "Input Required" "Please enter a game name, App ID, or URL".

Definition show (d : dialog) (g : SteamToolsInstaller) : SteamToolsInstaller :=
  {| downloader := downloader g; is_processing := is_processing g;
     search_entry := search_entry g; install_btn_enabled := install_btn_enabled g;
     progress_running := progress_running g; log_text := log_text g;
     status_label := status_label g; dialogs := dialogs g ++ [d];
     threads := threads g |}.

Definition start_download (g : SteamToolsInstaller) : SteamToolsInstaller :=
  if is_processing g then g
  else
    match steamtools_exe (downloader g) with
    | None => show missing_requirement g
    | Some _ =>
        let query := Py.strip (search_entry g) in
        if bool_decide (query = "") then show input_required g
        else
          {| downloader := downloader g; is_processing := true;
             search_entry := search_entry g; install_btn_enabled := false;
             progress_running := true; log_text := "";
             status_label := status_label g; dialogs := dialogs g;
             threads := threads g ++ [InitialSearchThread query] |}
    end.

Definition finish_processing (g : SteamToolsInstaller) : SteamToolsInstaller :=
  {| downloader := downloader g; is_processing := false;
     search_entry := search_entry g; install_btn_enabled := true;
     progress_running := false; log_text := log_text g;
     status_label := "Ready"; dialogs := dialogs g;
     threads := threads g |}.

(** [log(message)]. *)
Definition gui_log (message : string) (g : SteamToolsInstaller) : SteamToolsInstaller :=
  {| downloader := downloader g; is_processing := is_processing g;
     search_entry := search_entry g; install_btn_enabled := install_btn_enabled g;
     progress_running := progress_running g; log_text := log_text g +:+ message +:+ nl;
     status_label := status_label g; dialogs := dialogs g;
     threads := threads g |}.

Definition update_status (status : string) (g : SteamToolsInstaller) : SteamToolsInstaller :=
  {| downloader := downloader g; is_processing := is_processing g;
     search_entry := search_entry g; install_btn_enabled := install_btn_enabled g;
     progress_running := progress_running g; log_text := log_text g;
     status_label := status; dialogs := dialogs g;
     threads := threads g |}.

(** [download_thread_start(app_id)]; its log line is scheduled on the event
    loop and arrives as a [Log] event of its own. *)
Definition download_thread_start (app_id : Z) (g : SteamToolsInstaller) : SteamToolsInstaller :=
  {| downloader := downloader g; is_processing := is_processing g;
     search_entry := search_entry g; install_btn_enabled := install_btn_enabled g;
     progress_running := progress_running g; log_text := log_text g;
     status_label := status_label g; dialogs := dialogs g;
     threads := threads g ++ [DownloadThread app_id] |}.

(** The user typing in the entry field. *)
Definition edit_entry (text : string) (g : SteamToolsInstaller) : SteamToolsInstaller :=
  {| downloader := downloader g; is_processing := is_processing g;
     search_entry := text; install_btn_enabled := install_btn_enabled g;
     progress_running := progress_running g; log_text := log_text g;
     status_label := status_label g; dialogs := dialogs g;
     threads := threads g |}.

(** What the event loop runs, one handler at a time: the start request
    (button or Return key), the callbacks the worker threads schedule with
    [root.after], the confirmation of a candidate, and edits of the entry. *)
Inductive event : Type :=
| StartRequest
| FinishProcessing
| Log (message : string)
| UpdateStatus (status : string)
| MessageBox (d : dialog)
| DownloadThreadStart (app_id : Z)
| EditEntry (text : string).

Definition handle (e : event) (g : SteamToolsInstaller) : SteamToolsInstaller :=
  match e with
  | StartRequest => start_download g
  | FinishProcessing => finish_processing g
  | Log message => gui_log message g
  | UpdateStatus status => update_status status g
  | MessageBox d => show d g
  | DownloadThreadStart app_id => download_thread_start app_id g
  | EditEntry text => edit_entry text g
  end.




(** The window after a sequence of events. *)
Definition run (evs : list event) (g : SteamToolsInstaller) : SteamToolsInstaller :=
  foldl (fun g e => handle e g) g evs.

(** A start request is accepted when it starts a search thread. *)
Definition accepted (g : SteamToolsInstaller) : bool :=
  bool_decide (length (threads (start_download g)) = S (length (threads g))).

(** The number of start requests accepted along a sequence of events. *)
Fixpoint accepted_starts (evs : list event) (g : SteamToolsInstaller) : nat :=
  match evs with
  | [] => 0
  | e :: evs' =>
      ((match e with
        | StartRequest => if accepted g then 1 else 0
        | _ => 0
        end) + accepted_starts evs' (handle e g))%nat
  end.



Definition is_search (t : thread) : bool :=
  match t with
  | InitialSearchThread _ => true
  | DownloadThread _ => false
  end.

(** The search threads started so far: one per pipeline run. *)
Definition search_threads (g : SteamToolsInstaller) : nat :=
  length (filter (fun t => is_search t = true) (threads g)).

(** ** [show_match_selection]: the list of candidates *)

(** The row of the list box for a candidate:
    [f"{name[:40]} (ID: {app_id})"]. *)
Definition listbox_line (name : string) (app_id : Z) : string :=
  String.substring 0 40 name +:+ " (ID: " +:+ pretty app_id +:+ ")".

(** The rows in the order of the candidates. *)
Definition listbox_lines (matches : list (string * Z)) : list string :=
  map (fun m => listbox_line m.1 m.2) matches.

(** The pattern [\(ID: (\d+)\)] tried at the start of [s]: group 1 of the
    match.  [\d+] is greedy; giving digits back never helps, the character
    after a shorter run being a digit and not the closing parenthesis. *)
Definition match_id_here (s : string) : option string :=
  if Py.startswith s "(ID: " then
    let rest := Py.drop 5 s in
    match Py.take_while Py.is_decimal rest with
    | EmptyString => None
    | ds => if Py.startswith (Py.drop (String.length ds) rest) ")" then Some ds else None
    end
  else None.

(** [re.search(r'\(ID: (\d+)\)', s)]. *)
Fixpoint re_search_id (s : string) : option string :=
  match match_id_here s with
  | Some ds => Some ds
  | None =>
      match s with
      | EmptyString => None
      | String _ t => re_search_id t
      end
  end.

Definition selection_error : dialog :=
  ShowWarning "Selection Error" "Please select a game from the list.".

(** [on_select], the Confirm button of the popup; [selected_text] is the
    text of the selected row, [None] when no row is selected. *)
Definition on_select (selected_text : option string) (g : SteamToolsInstaller)
    : SteamToolsInstaller :=
  match selected_text with
  | Some text =>
      match re_search_id text with
      | Some group1 =>
          match Py.int group1 with
          | Some app_id => download_thread_start app_id g
          | None =>
              finish_processing
                (show (ShowError "Error"
                         ("Error during selection: " +:+ Py.int_error group1)) g)
          end
      | None => show selection_error g
      end
  | None => show selection_error g
  end.

(** ** The installer as a function on the file system

    What [copy_files_to_steam] does to the file system, written without the
    monad; [copy_files_to_steam_run] below proves that the method computes
    it. *)

(** One turn of a copy loop: the copy done, or nothing when it raises. *)
Definition copy_step (dest_folder : path) (deny : gset path) (fs : gmap path node)
    (file_path : path) : gmap path node :=
  default fs (Fs.copy2 fs deny file_path (dest_folder ++ [Fs.name file_path])).

(** The cleanup: what [rmtree] leaves, whether it returns or raises. *)
Definition cleanup (source_path : path) (deny : gset path) (fs : gmap path node)
    : gmap path node :=
  (Fs.rmtree fs deny source_path).1.

(** What goes to the callback, when there is one. *)
Definition said (log_callback : bool) (lines : list string) : list string :=
  if log_callback then lines else [].

(** The line a copy loop logs for a file: none when the copy succeeds. *)
Definition copy_line (dest_folder : path) (w : world) (fs : gmap path node)
    (file_path : path) : list string :=
  match Fs.copy2 fs (denied w) file_path (dest_folder ++ [Fs.name file_path]) with
  | Some _ => []
  | None => ["  ✗ Failed: " +:+ os_error w (dest_folder ++ [Fs.name file_path])]
  end.

(** The lines of a copy loop. *)
Fixpoint loop_lines (dest_folder : path) (w : world) (fs : gmap path node)
    (files : list path) : list string :=
  match files with
  | [] => []
  | f :: rest =>
      copy_line dest_folder w fs f
      ++ loop_lines dest_folder w (copy_step dest_folder (denied w) fs f) rest
  end.

(** The line of the cleanup. *)
Definition cleanup_line (source_path : path) (w : world) (fs : gmap path node) : string :=
  if (Fs.rmtree fs (denied w) source_path).2 then "✓ Deleted temporary files"
  else "⚠ Could not delete downloads folder: " +:+ os_error w source_path.

(** The installation root [find_steam_folder] returns. *)
Definition steam_root (st : state) : option path :=
  match _steam_folder (self st) with
  | Some folder => Some folder
  | None => List.find (Fs.exists_ (nodes (outside st))) (possible_paths (outside st))
  end.

Definition stplug (steam_folder : path) : path := steam_folder ++ ["config"; "stplug-in"].

Definition depotcache (steam_folder : path) : path := steam_folder ++ ["depotcache"].

(** The files of the first loop and of the second. *)
Definition plugin_files (fs : gmap path node) (source_dir : path) : list path :=
  Fs.rglob fs source_dir is_lua ++ Fs.rglob fs source_dir is_st.

Definition manifest_files (fs : gmap path node) (source_dir : path) : list path :=
  Fs.rglob fs source_dir is_manifest.

(** The file system after the two loops and the cleanup; [fs0] is the one
    the files were listed in, [fs] the one the directories were made in. *)
Definition installed (fs0 fs : gmap path node) (deny : gset path)
    (source_dir steam_folder : path) : gmap path node :=
  let fs := foldl (copy_step (stplug steam_folder) deny) fs (plugin_files fs0 source_dir) in
  let fs := foldl (copy_step (depotcache steam_folder) deny) fs (manifest_files fs0 source_dir) in
  cleanup source_dir deny fs.

(** What [copy_files_to_steam] passes to the callback on a run that
    reaches the loops; [fs2] is the file system with the two folders
    made. *)
Definition install_lines (w : world) (fs2 : gmap path node) (source_dir steam_folder : path)
    : list string :=
  let fs0 := nodes w in
  let plugin := plugin_files fs0 source_dir in
  let manifests := manifest_files fs0 source_dir in
  let fs3 := foldl (copy_step (stplug steam_folder) (denied w)) fs2 plugin in
  let fs4 := foldl (copy_step (depotcache steam_folder) (denied w)) fs3 manifests in
  [nl +:+ "[3/5] Copying files to Steam..."]
  ++ (if bool_decide (plugin = []) then []
      else (nl +:+ "Copying plugin file(s) to config/stplug-in...")
           :: loop_lines (stplug steam_folder) w fs2 plugin)
  ++ (if bool_decide (manifests = []) then []
      else (nl +:+ "Copying manifest file(s) to depotcache...")
           :: loop_lines (depotcache steam_folder) w fs3 manifests)
  ++ [nl +:+ "[4/5] Cleaning up..."; cleanup_line source_dir w fs4].


Definition loop_folder (plugin : bool) (steam_folder : path) : path :=
  if plugin then stplug steam_folder else depotcache steam_folder.

(** A world with another file system and more lines logged. *)
Definition with_disk (fs : gmap path node) (lines : list string) (w : world) : world :=
  {| nodes := fs; denied := denied w; net := net w; requests := requests w;
     environ := environ w; home := home w; unzip := unzip w;
     popen_error := popen_error w; shell_commands := shell_commands w;
     stdout := stdout w; logged := logged w ++ lines; os_error := os_error w |}.

(** Neither directory lies inside the other. *)
Definition apart (a b : path) : Prop := ¬ a `prefix_of` b ∧ ¬ b `prefix_of` a.

(** ** Sample worlds

    Concrete states on which the model is run below. *)

Definition catalog_url : string := base_url +:+ "/ISteamApps/GetAppList/v2/".

Definition offline : nat -> string -> http_result :=
  fun _ _ => ConnectionError "connection refused".

(** The text Windows gives for a refused operation on a path. *)
Definition permission_denied (p : path) : string :=
  "[Errno 13] Permission denied: '" +:+ String.concat "\\" p +:+ "'".

Definition bare_world (answers : nat -> string -> http_result) (fs : gmap path node)
    (deny : gset path) : world :=
  {| nodes := fs; denied := deny; net := answers; requests := [];
     environ := ∅; home := ["C:"; "Users"; "player"]; unzip := fun _ => None;
     popen_error := fun _ => None; shell_commands := [];
     stdout := []; logged := []; os_error := permission_denied |}.

Definition fresh_downloader : SteamToolsDownloader :=
  {| games_cache := ∅; steamtools_exe := None; _steam_folder := None |}.

Definition offline_state : state :=
  {| self := fresh_downloader; outside := bare_world offline ∅ ∅ |}.

(** The reason phrase of a status. *)
Definition reason_phrase (status : Z) : string :=
  if bool_decide (status = 200) then "OK"
  else if bool_decide (status = 404) then "Not Found"
  else if bool_decide (status = 500) then "Internal Server Error"
  else "".

(** An answer without a body. *)
Definition plain_response (status : Z) (url : string) : response :=
  {| status_code := status; chunks := []; complete := true; apps := None;
     reason := reason_phrase status; url := url;
     stream_error := "Connection broken: IncompleteRead";
     apps_error := "Expecting value: line 1 column 1 (char 0)" |}.

Definition half_life_catalog : response :=
  {| status_code := 200; chunks := []; complete := true;
     apps := Some [("Half-Life", 70); ("Half-Life 2", 220); ("Portal", 400)];
     reason := "OK"; url := base_url +:+ "/ISteamApps/GetAppList/v2/";
     stream_error := ""; apps_error := "" |}.

(** A network whose first request times out and whose later ones are
    answered with a small catalog. *)
Definition flaky : nat -> string -> http_result :=
  fun k _ =>
    match k with
    | O => ConnectionError "timed out"
    | S _ => Responded half_life_catalog
    end.

Definition flaky_state : state :=
  {| self := fresh_downloader; outside := bare_world flaky ∅ ∅ |}.

(** The catalog fetch fails when the request raises or the body does not
    decode to the list of records. *)
Definition fetch_fails (answer : http_result) : bool :=
  match answer with
  | ConnectionError _ => true
  | Responded r => bool_decide (apps r = None)
  end.

Definition steamtools_dir : path := ["C:"; "Program Files"; "SteamTools"].

(** A file system on which the companion tool is installed. *)
Definition installed_fs : gmap path node :=
  list_to_map
    [ (["C:"], Dir);
      (["C:"; "Program Files"], Dir);
      (steamtools_dir, Dir);
      (steamtools_dir ++ ["SteamTools.exe"], File "MZ") ].

(** The tool was installed after the downloader was created without it. *)
Definition late_install_state : state :=
  {| self := fresh_downloader; outside := bare_world offline installed_fs ∅ |}.

Definition skip_warning : string := "⚠ SteamTools.exe not found. Skipping launch.".

(** The world after a message went to the callback, if there is one. *)
Definition log_world (log_callback : bool) (line : string) (w : world) : world :=
  if log_callback then add_logged line w else w.

Definition answer_with (status : Z) : nat -> string -> http_result :=
  fun _ url => Responded (plain_response status url).

(** Nothing on disk yet; the archive host answers every request with the
    given status. *)
Definition archive_state (status : Z) : state :=
  {| self := fresh_downloader; outside := bare_world (answer_with status) ∅ ∅ |}.

Definition steam_dir : path := ["C:"; "Program Files (x86)"; "Steam"].

(** Steam is installed and the staging directory exists and is empty. *)
Definition empty_staging_fs : gmap path node :=
  list_to_map
    [ (["C:"], Dir);
      (["C:"; "Program Files (x86)"], Dir);
      (steam_dir, Dir);
      (["downloads"], Dir) ].

(** Steam is installed; the staging directory holds nothing but a
    directory named [mods.lua]. *)
Definition dir_only_fs : gmap path node :=
  list_to_map
    [ (["C:"], Dir);
      (["C:"; "Program Files (x86)"], Dir);
      (steam_dir, Dir);
      (["downloads"], Dir);
      (["downloads"; "mods.lua"], Dir) ].

(** A script is staged and Steam is not installed. *)
Definition no_steam_fs : gmap path node :=
  list_to_map
    [ (["downloads"], Dir);
      (["downloads"; "440.lua"], File "addappid(440)") ].

Definition disk_state (fs : gmap path node) (deny : gset path) : state :=
  {| self := fresh_downloader; outside := bare_world offline fs deny |}.

(** Steam is installed; the staging directory holds two scripts of one
    name in two subdirectories, a third script and a manifest. *)
Definition staged_fs : gmap path node :=
  list_to_map
    [ (["C:"], Dir);
      (["C:"; "Program Files (x86)"], Dir);
      (steam_dir, Dir);
      (["downloads"], Dir);
      (["downloads"; "a"], Dir);
      (["downloads"; "b"], Dir);
      (["downloads"; "a"; "440.lua"], File "from a");
      (["downloads"; "b"; "440.lua"], File "from b");
      (["downloads"; "441.lua"], File "addappid(441)");
      (["downloads"; "440.manifest"], File "depot") ].

(** The system refuses to write the copy of [441.lua]. *)
Definition locked_441 : gset path := {[ stplug steam_dir ++ ["441.lua"] ]}.

(** The system refuses to remove the staged [441.lua]. *)
Definition locked_staged : gset path := {[ ["downloads"; "441.lua"] ]}.

(** [staged_fs] after the two [mkdir] calls of the installer. *)
Definition staged_fs1 : gmap path node :=
  <[stplug steam_dir := Dir]> (<[steam_dir ++ ["config"] := Dir]> staged_fs).

Definition staged_fs2 : gmap path node := <[depotcache steam_dir := Dir]> staged_fs1.

(** The catalog is cached; the network is down. *)
Definition cached_state : state :=
  {| self := {| games_cache := build_cache [("Half-Life", 70); ("Half-Life 2", 220); ("Portal", 400)];
                steamtools_exe := None; _steam_folder := None |};
     outside := bare_world offline ∅ ∅ |}.

(** The archive of id 220: a script at the top and a manifest in a
    subdirectory. *)
Definition archive_220 : response :=
  {| status_code := 200; chunks := ["PK"; "220"]; complete := true; apps := None;
     reason := "OK"; url := r2_base_url +:+ "/220.zip";
     stream_error := ""; apps_error := "" |}.

Definition unzip_220 (data : string) : option (list (path * node)) :=
  if bool_decide (data = "PK220")
  then Some [ (["220.lua"], File "addappid(220)");
              (["depots"], Dir);
              (["depots"; "220.manifest"], File "depot 220") ]
  else None.

(** Steam is installed, the catalog and the archive of 220 are served, every
    other archive is missing. *)
Definition serving : nat -> string -> http_result :=
  fun _ url =>
    if bool_decide (url = catalog_url) then Responded half_life_catalog
    else if bool_decide (url = archive_url 220) then Responded archive_220
    else Responded (plain_response 404 url).

Definition steam_only_fs : gmap path node :=
  list_to_map
    [ (["C:"], Dir);
      (["C:"; "Program Files (x86)"], Dir);
      (steam_dir, Dir) ].

Definition serving_state : state :=
  {| self := fresh_downloader;
     outside :=
       {| nodes := steam_only_fs; denied := ∅; net := serving; requests := [];
          environ := ∅; home := ["C:"; "Users"; "player"]; unzip := unzip_220;
          popen_error := fun _ => None; shell_commands := [];
          stdout := []; logged := []; os_error := permission_denied |} |}.

(** The stages of the pipeline that touch the network and the disk, run
    in order on [serving_state]. *)
Definition resolved : result resolution * state := find_game "Half-Life 2" serving_state.

Definition downloaded : result bool * state := download_appid_zip 220 ["downloads"] true resolved.2.

Definition copied : result bool * state := copy_files_to_steam ["downloads"] true downloaded.2.

(** A query of [n] digits. *)
Definition ones (n : nat) : string := String.concat "" (replicate n "1").

(** ** Notions used by the further properties *)

(** The directory [base] holds, at some depth, an entry named
    [SteamTools.exe]. *)
Definition holds_exe (fs : gmap path node) (base : path) : Prop :=
  Fs.is_dir fs base = true
  /\ exists p, base `prefix_of` p /\ p <> base /\ Fs.name p = "SteamTools.exe"
               /\ is_Some (fs !! p).

(** The records of a catalog whose lowercased name is [key]. *)
Definition records_of (key : string) (l : list (string * Z)) : list (string * Z) :=
  filter (fun app => Py.lower app.1 = key) l.

(** A query that takes neither shortcut of [find_game]. *)
Definition free_text (query : string) : Prop :=
  url_app_id query = None /\ Py.isdigit query = false.

(** A list of scored names in which no later score exceeds an earlier
    one. *)
Fixpoint descending (l : list (Q * string)) : Prop :=
  match l with
  | [] => True
  | p :: t => Forall (fun q => (q.1 <= p.1)%Q) t /\ descending t
  end.


(** Steam is installed with its executable. *)
Definition steam_exe_fs : gmap path node :=
  list_to_map
    [ (["C:"], Dir);
      (["C:"; "Program Files (x86)"], Dir);
      (steam_dir, Dir);
      (steam_dir ++ ["steam.exe"], File "MZ") ].

(** A script is staged and Steam is installed, but [config] inside the
    Steam folder is a regular file. *)
Definition blocked_fs : gmap path node :=
  list_to_map
    [ (["C:"], Dir);
      (["C:"; "Program Files (x86)"], Dir);
      (steam_dir, Dir);
      (steam_dir ++ ["config"], File "not a folder");
      (["downloads"], Dir);
      (["downloads"; "440.lua"], File "addappid(440)") ].

(** While the processing flag is set the Install button is disabled and
    the progress bar runs. *)
Definition busy_consistent (g : SteamToolsInstaller) : Prop :=
  is_processing g = true -> install_btn_enabled g = false /\ progress_running g = true.

(** Neither [s] nor its reversal begins with whitespace: [s] has no
    whitespace at either end. *)
Definition stripped (s : string) : Prop :=
  Py.drop_while Py.ch_isspace s = s
  /\ Py.drop_while Py.ch_isspace (String.rev s) = String.rev s.

(** The query of a search thread is not empty and has no whitespace at
    either end. *)
Definition clean_query (t : thread) : Prop :=
  match t with
  | InitialSearchThread query => query <> "" /\ stripped query
  | DownloadThread _ => True
  end.

(** Every name of the catalog is in lower case. *)
Definition lower_keys (games : gmap string Z) : Prop :=
  forall key, is_Some (games !! key) -> Py.lower key = key.

(** * Properties *)

Example lower_mixed : Py.lower "Half-Life 2" = "half-life 2".
Proof. reflexivity. Qed.

Example search_store_url :
  Py.re_search_app "https://store.steampowered.com/app/220/HalfLife_2/" = Some "220".
Proof. reflexivity. Qed.

Example search_skips_bare_prefix :
  Py.re_search_app "/app/x/app/12ab" = Some "12".
Proof. reflexivity. Qed.

Example int_leading_zeros : Py.int "007" = Some 7.
Proof. reflexivity. Qed.

Example strip_spaces : Py.strip "  440 " = "440".
Proof. reflexivity. Qed.

Example ratio_abcd : Difflib.ratio "abcd" "bcde" = (6 # 8)%Q.
Proof. vm_compute. reflexivity. Qed.

Example close_matches_appel :
  get_close_matches "appel" ["ape"; "apple"; "peach"; "puppy"] 3 (6 # 10) = ["apple"; "ape"].
Proof. vm_compute. reflexivity. Qed.

(** ** Strings *)

Lemma append_cons (c : ascii) (s t : string) : String c s +:+ t = String c (s +:+ t).
Proof. reflexivity. Qed.

Lemma append_nil (t : string) : "" +:+ t = t.
Proof. reflexivity. Qed.

Ltac norm_append H := repeat (rewrite append_cons in H || rewrite append_nil in H).

Lemma startswith_app (s sub : string) :
  Py.startswith s sub = true -> exists t, s = sub +:+ t.
Proof.
  revert s. induction sub as [|c sub IH]; intros s Hp; [exists s; reflexivity|].
  destruct s as [|d s]; [discriminate Hp|].
  cbn [Py.startswith] in Hp. apply andb_true_iff in Hp as [->%Ascii.eqb_eq Hp].
  destruct (IH s Hp) as [t ->]. exists t. reflexivity.
Qed.

Lemma startswith_app_true (sub t : string) : Py.startswith (sub +:+ t) sub = true.
Proof.
  induction sub as [|c sub IH]; [reflexivity|].
  rewrite append_cons. cbn [Py.startswith]. rewrite Ascii.eqb_refl. exact IH.
Qed.

Lemma all_chars_app (p : ascii -> bool) (s t : string) :
  Py.all_chars p (s +:+ t) = Py.all_chars p s && Py.all_chars p t.
Proof.
  induction s as [|c s IH]; [reflexivity|].
  rewrite append_cons. cbn [Py.all_chars]. rewrite IH. apply andb_assoc.
Qed.

Lemma prefix_all_chars (p : ascii -> bool) (sub s : string) :
  Py.startswith s sub = true -> Py.all_chars p s = true -> Py.all_chars p sub = true.
Proof.
  intros [t ->]%startswith_app. rewrite all_chars_app.
  intros [Hs _]%andb_true_iff. exact Hs.
Qed.

Lemma contains_all_chars (p : ascii -> bool) (sub s : string) :
  Py.contains sub s = true -> Py.all_chars p s = true -> Py.all_chars p sub = true.
Proof.
  induction s as [|d s IH]; simpl; intros Hc Hall.
  - rewrite orb_false_r in Hc. apply (prefix_all_chars p sub ""); [exact Hc|reflexivity].
  - apply orb_true_iff in Hc as [Hpre|Hc].
    + apply (prefix_all_chars p sub (String d s)); [exact Hpre|exact Hall].
    + apply andb_true_iff in Hall as [_ Hs]. eauto.
Qed.

Lemma decimal_isdigit (c : ascii) : Py.is_decimal c = true -> Py.ch_isdigit c = true.
Proof. unfold Py.ch_isdigit. intros ->. reflexivity. Qed.

Lemma all_decimal_isdigit (s : string) :
  Py.all_chars Py.is_decimal s = true -> Py.all_chars Py.ch_isdigit s = true.
Proof.
  induction s as [|c s IH]; simpl; [reflexivity|].
  intros [Hc Hs]%andb_true_iff. rewrite (decimal_isdigit c Hc). simpl. auto.
Qed.

(** A run of decimal digits names neither host, so the URL test fails. *)
Lemma decimal_no_url (s : string) :
  Py.all_chars Py.is_decimal s = true -> url_app_id s = None.
Proof.
  intros Hall. unfold url_app_id.
  destruct (Py.contains "store.steampowered.com" s) eqn:E1.
  { apply (contains_all_chars Py.is_decimal) in E1; [discriminate E1|exact Hall]. }
  destruct (Py.contains "steamcommunity.com" s) eqn:E2.
  { apply (contains_all_chars Py.is_decimal) in E2; [discriminate E2|exact Hall]. }
  reflexivity.
Qed.

Lemma take_while_all (p : ascii -> bool) (s : string) :
  Py.all_chars p s = true -> Py.take_while p s = s.
Proof.
  induction s as [|c s IH]; [reflexivity|].
  cbn [Py.all_chars Py.take_while]. intros [-> Hs]%andb_true_iff. rewrite IH by exact Hs.
  reflexivity.
Qed.

Lemma int_decimal (s : string) :
  s <> "" -> Py.all_chars Py.is_decimal s = true ->
  Z.of_nat (String.length s) <= Py.max_str_digits ->
  Py.int s = Some (Py.int_acc 0 s).
Proof.
  intros Hne Hall Hlen. unfold Py.int. rewrite (take_while_all _ _ Hall).
  destruct (Z.ltb_spec Py.max_str_digits (Z.of_nat (String.length s))) as [Hlt|_]; [lia|].
  destruct s as [|c s]; [congruence|]. rewrite Hall. reflexivity.
Qed.

(** A run of decimal digits longer than the limit is not converted. *)
Lemma int_too_long (s : string) :
  Py.all_chars Py.is_decimal s = true ->
  Py.max_str_digits < Z.of_nat (String.length s) ->
  Py.int s = None.
Proof.
  intros Hall Hlen. unfold Py.int. rewrite (take_while_all _ _ Hall).
  destruct (Z.ltb_spec Py.max_str_digits (Z.of_nat (String.length s))) as [_|Hle]; [reflexivity|lia].
Qed.

(** ** Numeric queries *)

(** C8, as amended. For every query made of decimal digits only, at least
    one and at most 4300, [find_game] returns [ResolvedId (int s)] and
    leaves the whole state as it was: no request is sent and the cache is
    not touched.  On a longer one [int] raises and so does [find_game]. *)
Theorem find_game_numeric `{SequenceMatcher} (s : string) (st : state) :
  s <> "" ->
  Py.all_chars Py.is_decimal s = true ->
  (Z.of_nat (String.length s) <= Py.max_str_digits ->
   exists n : Z, Py.int s = Some n /\ find_game s st = (Return (ResolvedId n), st))
  /\ (Py.max_str_digits < Z.of_nat (String.length s) ->
      Py.int s = None
      /\ find_game s st = (Raise (Exn "ValueError" (Py.int_error s)), st)).
Proof.
  intros Hne Hall.
  assert (find_game s st = (app_id ← py_int s; mret (ResolvedId app_id)) st) as ->.
  { unfold find_game. rewrite (decimal_no_url s Hall).
    assert (Py.isdigit s = true) as ->; [|reflexivity].
    destruct s; [congruence|]. unfold Py.isdigit. apply all_decimal_isdigit, Hall. }
  unfold py_int. split; intros Hlen.
  - exists (Py.int_acc 0 s). rewrite (int_decimal s Hne Hall Hlen). split; reflexivity.
  - rewrite (int_too_long s Hall Hlen). split; reflexivity.
Qed.

Lemma find_game_numeric_witness :
  (Z.of_nat (String.length "440") <= Py.max_str_digits ->
   exists n : Z, Py.int "440" = Some n
     /\ find_game "440" offline_state = (Return (ResolvedId n), offline_state))
  /\ (Py.max_str_digits < Z.of_nat (String.length "440") ->
      Py.int "440" = None
      /\ find_game "440" offline_state
         = (Raise (Exn "ValueError" (Py.int_error "440")), offline_state)).
Proof. apply (find_game_numeric "440" offline_state); [discriminate|reflexivity]. Defined.

(** C8, as stated, fails: a query of 4301 digits is purely numeric, and
    [find_game] raises the [ValueError] of [int] instead of resolving it. *)
Lemma find_game_numeric_too_long :
  Py.isdigit (ones 4301) = true
  /\ Py.all_chars Py.is_decimal (ones 4301) = true
  /\ (find_game (ones 4301) offline_state).1
     = Raise (Exn "ValueError"
                ("Exceeds the limit (4300 digits) for integer string conversion: "
                 +:+ "value has 4301 digits; "
                 +:+ "use sys.set_int_max_str_digits() to increase the limit"))
  /\ forall n : Z,
       find_game (ones 4301) offline_state <> (Return (ResolvedId n), offline_state).
Proof.
  assert ((find_game (ones 4301) offline_state).1
          = Raise (Exn "ValueError"
                     ("Exceeds the limit (4300 digits) for integer string conversion: "
                      +:+ "value has 4301 digits; "
                      +:+ "use sys.set_int_max_str_digits() to increase the limit"))) as Hraise
    by (vm_compute; reflexivity).
  repeat split; try (vm_compute; reflexivity).
  intros n Heq. rewrite Heq in Hraise. discriminate Hraise.
Qed.

Lemma isdigit_no_url (s : string) :
  Py.all_chars Py.ch_isdigit s = true -> url_app_id s = None.
Proof.
  intros Hall. unfold url_app_id.
  destruct (Py.contains "store.steampowered.com" s) eqn:E1.
  { apply (contains_all_chars Py.ch_isdigit) in E1; [discriminate E1|exact Hall]. }
  destruct (Py.contains "steamcommunity.com" s) eqn:E2.
  { apply (contains_all_chars Py.ch_isdigit) in E2; [discriminate E2|exact Hall]. }
  reflexivity.
Qed.

(** What [find_game] does on every query that passes [isdigit]: it
    converts it, or lets the [ValueError] of [int] escape; the state is as
    it was in both cases. *)
Lemma find_game_isdigit `{SequenceMatcher} (s : string) (st : state) :
  Py.isdigit s = true ->
  find_game s st = ((app_id ← py_int s; mret (ResolvedId app_id)) st)
  /\ (find_game s st).2 = st.
Proof.
  intros Hdig. unfold find_game.
  assert (url_app_id s = None) as ->.
  { apply isdigit_no_url. destruct s; [discriminate Hdig|exact Hdig]. }
  rewrite Hdig. split; [reflexivity|].
  unfold py_int. destruct (Py.int s); reflexivity.
Qed.

(** The superscript two is a digit for [isdigit] and not for [int]: the
    query made of it alone raises [ValueError] out of [find_game]. *)
Example find_game_superscript :
  let s := String (ascii_of_N 178) "" in
  Py.isdigit s = true /\ Py.int s = None
  /\ exists msg, find_game s offline_state = (Raise (Exn "ValueError" msg), offline_state).
Proof. repeat split. eexists. reflexivity. Qed.

(** ** Store and community URLs *)

Lemma take_while_app (p : ascii -> bool) (ds post : string) :
  Py.all_chars p ds = true -> Py.take_while p post = "" ->
  Py.take_while p (ds +:+ post) = ds.
Proof.
  intros Hall Hpost. induction ds as [|c ds IH]; [exact Hpost|].
  rewrite append_cons. cbn [Py.take_while Py.all_chars] in *.
  apply andb_true_iff in Hall as [-> Hall]. f_equal. auto.
Qed.

Lemma match_app_here_eq (t : string) :
  Py.match_app_here ("/app/" +:+ t) =
    match Py.take_while Py.is_decimal t with
    | EmptyString => None
    | ds => Some ds
    end.
Proof. unfold Py.match_app_here. rewrite startswith_app_true. reflexivity. Qed.

(** The pattern matches at the start of [s] exactly when [s] begins with
    [/app/] and a decimal digit. *)
Lemma match_app_here_inv (s ds : string) :
  Py.match_app_here s = Some ds ->
  exists d t, s = "/app/" +:+ String d t /\ Py.is_decimal d = true.
Proof.
  intros Hm. destruct (Py.startswith s "/app/") eqn:Hp.
  - apply startswith_app in Hp as [t ->]. rewrite match_app_here_eq in Hm.
    destruct t as [|d t]; [discriminate Hm|]. cbn [Py.take_while] in Hm.
    destruct (Py.is_decimal d) eqn:Hd; [|discriminate Hm]. eauto.
  - unfold Py.match_app_here in Hm. rewrite Hp in Hm. discriminate Hm.
Qed.

Lemma match_app_here_digit (d : ascii) (t : string) :
  Py.is_decimal d = true -> is_Some (Py.match_app_here ("/app/" +:+ String d t)).
Proof.
  intros Hd. rewrite match_app_here_eq. cbn [Py.take_while]. rewrite Hd. eauto.
Qed.

(** A match that starts inside [pre], in front of an [/app/], lies within
    [pre]: the characters of [/app/] are not digits. *)
Lemma match_app_here_within (pre tail ds : string) :
  pre <> "" ->
  Py.match_app_here (pre +:+ "/app/" +:+ tail) = Some ds ->
  is_Some (Py.match_app_here pre).
Proof.
  intros Hne Hm. apply match_app_here_inv in Hm as (d & t & Heq & Hd).
  destruct pre as [|c1 pre]; [congruence|].
  destruct pre as [|c2 pre]; [norm_append Heq; discriminate Heq|].
  destruct pre as [|c3 pre]; [norm_append Heq; discriminate Heq|].
  destruct pre as [|c4 pre]; [norm_append Heq; discriminate Heq|].
  destruct pre as [|c5 pre].
  { norm_append Heq. injection Heq as -> -> -> -> <- _. discriminate Hd. }
  destruct pre as [|c6 pre]; norm_append Heq.
  { injection Heq as -> -> -> -> -> <- _. discriminate Hd. }
  injection Heq as -> -> -> -> -> -> _.
  apply match_app_here_digit, Hd.
Qed.

Lemma re_search_app_cons (c : ascii) (t : string) :
  Py.re_search_app (String c t) =
    match Py.match_app_here (String c t) with
    | Some ds => Some ds
    | None => Py.re_search_app t
    end.
Proof. reflexivity. Qed.

Lemma re_search_app_here (s ds : string) :
  Py.match_app_here s = Some ds -> Py.re_search_app s = Some ds.
Proof. intros Hm. destruct s; cbn [Py.re_search_app]; rewrite Hm; reflexivity. Qed.

(** The search returns the digits of the leftmost [/app/<digits>]. *)
Lemma re_search_app_leftmost (pre ds post : string) :
  ds <> "" ->
  Py.all_chars Py.is_decimal ds = true ->
  Py.take_while Py.is_decimal post = "" ->
  Py.re_search_app pre = None ->
  Py.re_search_app (pre +:+ "/app/" +:+ ds +:+ post) = Some ds.
Proof.
  intros Hne Hall Hpost.
  assert (Py.match_app_here ("/app/" +:+ ds +:+ post) = Some ds) as Hhere.
  { rewrite match_app_here_eq, (take_while_app _ _ _ Hall Hpost).
    destruct ds; congruence. }
  induction pre as [|c pre IH]; intros Hpre.
  - apply re_search_app_here, Hhere.
  - change (String c pre +:+ "/app/" +:+ ds +:+ post)
      with (String c (pre +:+ "/app/" +:+ ds +:+ post)).
    rewrite re_search_app_cons. rewrite re_search_app_cons in Hpre.
    destruct (Py.match_app_here (String c pre)) eqn:Hc; [discriminate Hpre|].
    destruct (Py.match_app_here (String c (pre +:+ "/app/" +:+ ds +:+ post))) eqn:Hm.
    + apply (match_app_here_within (String c pre)) in Hm as [x Hx]; [|discriminate].
      congruence.
    + apply IH, Hpre.
Qed.

(** C3, as amended. For every query that contains one of the two host
    names, wherever in the query, and [/app/<digits>] with at most 4300
    digits, [find_game] returns [ResolvedId] of the digits of the leftmost
    such segment and leaves the whole state as it was, so the catalog is
    not accessed. *)
Theorem find_game_store_url `{SequenceMatcher} (query pre ds post : string) (st : state) :
  Py.contains "store.steampowered.com" query || Py.contains "steamcommunity.com" query = true ->
  query = pre +:+ "/app/" +:+ ds +:+ post ->
  ds <> "" ->
  Py.all_chars Py.is_decimal ds = true ->
  Z.of_nat (String.length ds) <= Py.max_str_digits ->
  Py.take_while Py.is_decimal post = "" ->
  Py.re_search_app pre = None ->
  exists n : Z, Py.int ds = Some n /\ find_game query st = (Return (ResolvedId n), st).
Proof.
  intros Hhost -> Hne Hall Hlen Hpost Hpre. exists (Py.int_acc 0 ds).
  split; [apply int_decimal; assumption|].
  unfold find_game, url_app_id. rewrite Hhost.
  rewrite (re_search_app_leftmost pre ds post Hne Hall Hpost Hpre).
  unfold py_int. rewrite (int_decimal ds Hne Hall Hlen). reflexivity.
Qed.

Lemma find_game_store_url_witness :
  exists n : Z, Py.int "220" = Some n
    /\ find_game "https://store.steampowered.com/app/220/HalfLife_2/" offline_state
       = (Return (ResolvedId n), offline_state).
Proof.
  apply (find_game_store_url _ "https://store.steampowered.com" "220" "/HalfLife_2/");
    solve [reflexivity | discriminate | vm_compute; discriminate].
Defined.

(** C3, as stated, fails.  A URL with [/app/440] in its path and neither
    host name in it is not resolved to 440: the catalog is requested
    instead.  A store URL whose segment has 4301 digits is not resolved
    either: [int] raises. *)
Lemma find_game_foreign_url :
  let query := "https://example.com/app/440" in
  let long := "https://store.steampowered.com/app/" +:+ ones 4301 in
  Py.re_search_app query = Some "440"
  /\ find_game query offline_state <> (Return (ResolvedId 440), offline_state)
  /\ (find_game query offline_state).1 = Return NotFound
  /\ requests (outside (find_game query offline_state).2) = [catalog_url]
  /\ Py.re_search_app long = Some (ones 4301)
  /\ exists msg, (find_game long offline_state).1 = Raise (Exn "ValueError" msg).
Proof.
  cbv zeta. split; [reflexivity|]. split.
  { intros Heq. apply (f_equal fst) in Heq. vm_compute in Heq. discriminate Heq. }
  split; [reflexivity|]. split; [reflexivity|]. split; [vm_compute; reflexivity|].
  eexists. vm_compute. reflexivity.
Qed.

(** ** The catalog cache *)

Ltac monad_unfold :=
  cbv beta iota zeta delta
    [mbind M_bind mret M_ret try_except raise get_self get_world
     modify_self modify_world print log requests_get fs_op self outside fst snd] in *.

(** Decide a closed proposition by evaluating its decision procedure. *)
Ltac by_compute := apply (bool_decide_unpack _); vm_compute; exact I.

Lemma get_app_list_cached (st : state) :
  games_cache (self st) <> ∅ ->
  get_app_list st = (Return (games_cache (self st)), st).
Proof.
  intros Hne. destruct st as [d w]. unfold get_app_list. monad_unfold.
  rewrite bool_decide_eq_false_2 by exact Hne. reflexivity.
Qed.

Lemma get_app_list_fetches (st : state) :
  games_cache (self st) = ∅ ->
  exists games st',
    get_app_list st = (Return games, st')
    /\ games = games_cache (self st')
    /\ requests (outside st') = requests (outside st) ++ [catalog_url]
    /\ (fetch_fails (net (outside st) (length (requests (outside st))) catalog_url) = true ->
        games = ∅).
Proof.
  intros Hempty. destruct st as [d w]. unfold get_app_list, catalog_url. monad_unfold.
  rewrite bool_decide_eq_true_2 by exact Hempty.
  destruct (net w (length (requests w)) _) as [msg|r].
  - eexists _, _. repeat split; eauto.
  - destruct (apps r) as [l|] eqn:Happs.
    + eexists _, _. repeat split; eauto.
      cbn. rewrite Happs. rewrite bool_decide_eq_false_2; [discriminate|congruence].
    + eexists _, _. repeat split; eauto.
Qed.

Lemma with_ids_state (games : gmap string Z) (l : list string) (st : state) :
  (with_ids games l st).2 = st.
Proof.
  induction l as [|m l IH]; [reflexivity|].
  cbn [with_ids]. unfold subscript. monad_unfold.
  destruct (games !! m); [|reflexivity].
  destruct (with_ids games l st) as [[]] eqn:E; cbn in *; congruence.
Qed.

(** After [get_app_list], the rest of [lookup_by_name] changes nothing. *)
Lemma lookup_by_name_state `{SequenceMatcher} (query : string) (st : state) :
  (lookup_by_name query st).2 = (get_app_list st).2.
Proof.
  unfold lookup_by_name. unfold mbind at 1, M_bind at 1.
  destruct (get_app_list st) as [[games|e] st'] eqn:E; [|reflexivity].
  cbn [snd]. case_bool_decide; [reflexivity|].
  destruct (games !! Py.lower query); [reflexivity|].
  destruct (get_close_matches _ _ _ _) as [|m ms]; [reflexivity|].
  generalize (m :: ms). intros l.
  pose proof (with_ids_state games l st') as Hs.
  unfold mbind, M_bind. destruct (with_ids games l st') as [[]]; cbn in *; congruence.
Qed.

(** C4, as amended. For a free-text query: with a non-empty cache the
    lookup leaves the state as it was (no request); with an empty cache it
    requests the catalog, whatever happened before; and when that fetch
    fails the cache stays empty and the answer is [NotFound]. *)
Theorem catalog_fetch_retry `{SequenceMatcher} (query : string) (st : state) :
  url_app_id query = None ->
  Py.isdigit query = false ->
  let answer := net (outside st) (length (requests (outside st))) catalog_url in
  let out := find_game query st in
  (games_cache (self st) <> ∅ -> out.2 = st)
  /\ (games_cache (self st) = ∅ ->
      requests (outside out.2) = requests (outside st) ++ [catalog_url])
  /\ (games_cache (self st) = ∅ -> fetch_fails answer = true ->
      out.1 = Return NotFound /\ games_cache (self out.2) = ∅).
Proof.
  intros Hurl Hdig answer out. subst out. unfold find_game. rewrite Hurl, Hdig.
  split; [|split].
  - intros Hne. rewrite lookup_by_name_state, get_app_list_cached by exact Hne. reflexivity.
  - intros Hempty. rewrite lookup_by_name_state.
    destruct (get_app_list_fetches st Hempty) as (games & st' & -> & _ & Hreq & _).
    exact Hreq.
  - intros Hempty Hfail.
    destruct (get_app_list_fetches st Hempty) as (games & st' & Hget & Hgames & _ & Hnone).
    specialize (Hnone Hfail). subst answer.
    unfold lookup_by_name. unfold mbind, M_bind. rewrite Hget.
    rewrite bool_decide_eq_true_2 by exact Hnone. cbn. split; [reflexivity|congruence].
Qed.

Lemma catalog_fetch_retry_witness :
  let out := find_game "half-life" offline_state in
  (games_cache (self offline_state) <> ∅ -> out.2 = offline_state)
  /\ (games_cache (self offline_state) = ∅ ->
      requests (outside out.2) = requests (outside offline_state) ++ [catalog_url])
  /\ (games_cache (self offline_state) = ∅ ->
      fetch_fails (net (outside offline_state)
                       (length (requests (outside offline_state))) catalog_url) = true ->
      out.1 = Return NotFound /\ games_cache (self out.2) = ∅).
Proof. apply (catalog_fetch_retry "half-life" offline_state); reflexivity. Defined.

(** C4, as stated, fails: after a failed fetch the next free-text lookup
    requests the catalog again and, the fetch succeeding, finds the game. *)
Lemma catalog_refetched_after_failure :
  let first := find_game "Half-Life" flaky_state in
  let second := find_game "Half-Life" first.2 in
  first.1 = Return NotFound
  /\ games_cache (self first.2) = ∅
  /\ second.1 = Return (ResolvedId 70)
  /\ requests (outside second.2) = [catalog_url; catalog_url].
Proof. vm_compute. repeat split; reflexivity. Qed.

(** ** The companion tool *)

(** What the probe returns is on disk. *)
Lemma first_exe_exists (fs : gmap path node) (bases : list path) (exe : path) :
  first_exe fs bases = Some exe -> Fs.exists_ fs exe = true.
Proof.
  induction bases as [|b bases IH]; cbn [first_exe]; [discriminate|].
  destruct (Fs.exists_ fs b); [|exact IH].
  destruct (Fs.rglob fs b (String.eqb "SteamTools.exe")) as [|hit hits] eqn:Hglob; [exact IH|].
  intros [= <-].
  assert (hit ∈ Fs.rglob fs b (String.eqb "SteamTools.exe")) as Hin by (rewrite Hglob; left).
  unfold Fs.rglob in Hin. destruct (Fs.is_dir fs b); [|apply elem_of_nil in Hin; contradiction].
  apply list_elem_of_filter in Hin as [_ Hin].
  apply list_elem_of_fmap in Hin as ([k n] & -> & Hin%elem_of_map_to_list). cbn [fst].
  unfold Fs.exists_, Fs.lookup. apply bool_decide_eq_true. destruct k; eauto.
Qed.

(** C5, as amended. The path is discovered when the downloader is
    created.  [launch_steamtools] keeps a stored path; when none is stored
    it probes the conventional directories again and stores what the probe
    finds, which is on disk.  With the path it then has (stored or just
    found) it calls [Popen] when the path exists: a shell is spawned for
    it and the result is [True], or the error of [Popen] is logged and the
    result is [False].  The launch is skipped with the warning in the two
    other cases only: no path stored and none found, or a path that does
    not exist.  The other attributes are never touched. *)
Theorem launch_steamtools_path (log_callback : bool) (st : state) :
  let probe := first_exe (nodes (outside st)) (common_paths (outside st)) in
  let path_used :=
    match steamtools_exe (self st) with
    | Some exe => Some exe
    | None => probe
    end in
  let out := launch_steamtools log_callback st in
  steamtools_exe (self (init st).2) = probe
  /\ self out.2 = set_steamtools_exe path_used (self st)
  /\ (forall exe, probe = Some exe -> Fs.exists_ (nodes (outside st)) exe = true)
  /\ (path_used = None ->
      out.1 = Return false
      /\ shell_commands (outside out.2) = shell_commands (outside st)
      /\ logged (outside out.2) = logged (outside st) ++ said log_callback [skip_warning])
  /\ (forall exe,
        path_used = Some exe -> Fs.exists_ (nodes (outside st)) exe = false ->
        out.1 = Return false
        /\ shell_commands (outside out.2) = shell_commands (outside st)
        /\ logged (outside out.2) = logged (outside st) ++ said log_callback [skip_warning])
  /\ (forall exe,
        path_used = Some exe -> Fs.exists_ (nodes (outside st)) exe = true ->
        popen_error (outside st) exe = None ->
        out.1 = Return true
        /\ shell_commands (outside out.2) = shell_commands (outside st) ++ [exe]
        /\ logged (outside out.2)
           = logged (outside st) ++ said log_callback ["✓ SteamTools launched"])
  /\ (forall exe msg,
        path_used = Some exe -> Fs.exists_ (nodes (outside st)) exe = true ->
        popen_error (outside st) exe = Some msg ->
        out.1 = Return false
        /\ shell_commands (outside out.2) = shell_commands (outside st)
        /\ logged (outside out.2)
           = logged (outside st)
             ++ said log_callback ["⚠ Could not launch SteamTools: " +:+ msg]).
Proof.
  destruct st as [[cache stored folder] w]. cbv zeta. cbn [self outside steamtools_exe].
  set (probe := first_exe (nodes w) (common_paths w)).
  set (path_used := match stored with Some exe => Some exe | None => probe end).
  assert (forall exe, probe = Some exe -> Fs.exists_ (nodes w) exe = true) as Hprobe
    by (intros exe; apply first_exe_exists).
  assert (steamtools_exe
            (self (init {| self := {| games_cache := cache; steamtools_exe := stored;
                                      _steam_folder := folder |};
                           outside := w |}).2) = probe) as Hinit by reflexivity.
  remember (launch_steamtools log_callback
              {| self := {| games_cache := cache; steamtools_exe := stored;
                            _steam_folder := folder |};
                 outside := w |}) as out eqn:Hout.
  unfold launch_steamtools, find_steamtools_exe, popen in Hout.
  unfold mbind, M_bind, mret, M_ret, get_self, get_world, log, modify_world, modify_self,
    try_except, raise in Hout.
  cbv beta iota delta [self outside fst snd steamtools_exe set_steamtools_exe games_cache
                       _steam_folder] in Hout.
  fold probe in Hout.
  split; [exact Hinit|]. clear Hinit.
  assert (self out.2 = set_steamtools_exe path_used
                         {| games_cache := cache; steamtools_exe := stored;
                            _steam_folder := folder |}
          /\ (path_used = None ->
              out = (Return false,
                     {| self := set_steamtools_exe None
                                  {| games_cache := cache; steamtools_exe := stored;
                                     _steam_folder := folder |};
                        outside := log_world log_callback skip_warning w |}))
          /\ (forall exe, path_used = Some exe ->
              out = let s := {| self := set_steamtools_exe (Some exe)
                                          {| games_cache := cache; steamtools_exe := stored;
                                             _steam_folder := folder |};
                                outside := w |} in
                    if Fs.exists_ (nodes w) exe then
                      match popen_error w exe with
                      | Some msg =>
                          (Return false,
                           {| self := self s;
                              outside := log_world log_callback
                                           ("⚠ Could not launch SteamTools: " +:+ msg) w |})
                      | None =>
                          (Return true,
                           {| self := self s;
                              outside := log_world log_callback "✓ SteamTools launched"
                                           (add_shell_command exe w) |})
                      end
                    else (Return false,
                          {| self := self s;
                             outside := log_world log_callback skip_warning w |})))
    as (Hself & Hnone & Hsome).
  { subst path_used out probe.
    destruct stored as [exe|];
      [|destruct (first_exe (nodes w) (common_paths w)) as [exe|]];
      cbv beta iota zeta;
      (split; [|split]); try discriminate;
      try (intros ? [= <-]); try intros _;
      try (destruct (Fs.exists_ (nodes w) exe), (popen_error w exe));
      destruct log_callback; reflexivity. }
  split; [exact Hself|]. split; [exact Hprobe|].
  split; [|split; [|split]].
  - intros Hp. rewrite (Hnone Hp). destruct log_callback; cbn; rewrite ?app_nil_r; auto.
  - intros exe Hp Hex. rewrite (Hsome exe Hp). cbn zeta. rewrite Hex.
    destruct log_callback; cbn; rewrite ?app_nil_r; auto.
  - intros exe Hp Hex Hpop. rewrite (Hsome exe Hp). cbn zeta. rewrite Hex, Hpop.
    destruct log_callback; cbn; rewrite ?app_nil_r; auto.
  - intros exe msg Hp Hex Hpop. rewrite (Hsome exe Hp). cbn zeta. rewrite Hex, Hpop.
    destruct log_callback; cbn; rewrite ?app_nil_r; auto.
Qed.

(** C5, as stated, fails: with no path stored, [launch_steamtools] finds
    a tool installed in the meantime, stores its path and launches it. *)
Lemma launch_steamtools_reprobes :
  let exe := steamtools_dir ++ ["SteamTools.exe"] in
  let out := launch_steamtools true late_install_state in
  steamtools_exe (self late_install_state) = None
  /\ out.1 = Return true
  /\ steamtools_exe (self out.2) = Some exe
  /\ shell_commands (outside out.2) = [exe]
  /\ self out.2 <> self late_install_state.
Proof.
  vm_compute. repeat split; try reflexivity. discriminate.
Qed.

(** ** The request gate *)


(** An accepted request finds the flag clear and sets it; a request that
    is not accepted leaves the flag and the threads as they are. *)
Lemma start_download_cases (g : SteamToolsInstaller) :
  (accepted g = true /\ is_processing g = false
   /\ is_processing (start_download g) = true
   /\ search_threads (start_download g) = S (search_threads g))
  \/ (accepted g = false
      /\ is_processing (start_download g) = is_processing g
      /\ threads (start_download g) = threads g).
Proof.
  unfold accepted, search_threads, start_download.
  destruct (is_processing g) eqn:Hbusy.
  { right. cbn. rewrite Hbusy, bool_decide_eq_false_2 by lia. auto. }
  destruct (steamtools_exe (downloader g)).
  2:{ right. cbn. rewrite Hbusy, bool_decide_eq_false_2 by lia. auto. }
  destruct (bool_decide (Py.strip (search_entry g) = "")) eqn:Hq.
  { right. cbn. rewrite Hbusy, bool_decide_eq_false_2 by lia. auto. }
  left. cbn. rewrite length_app, filter_app, length_app. cbn.
  rewrite bool_decide_eq_true_2 by lia. rewrite decide_True by reflexivity.
  cbn. repeat split; lia.
Qed.



(** The counter of accepted requests counts the search threads started. *)
Lemma search_threads_run (evs : list event) (g : SteamToolsInstaller) :
  search_threads (run evs g) = (search_threads g + accepted_starts evs g)%nat.
Proof.
  revert g. induction evs as [|e evs IH]; intros g; [cbn; lia|].
  unfold run in *. cbn [foldl accepted_starts]. rewrite IH.
  destruct e; cbn [handle]; try (unfold search_threads; cbn; lia).
  - destruct (start_download_cases g) as [(-> & _ & _ & Hn)|(-> & _ & Hsame)].
    + rewrite Hn. lia.
    + unfold search_threads. rewrite Hsame. lia.
  - unfold search_threads. cbn. rewrite filter_app, length_app. cbn.
    rewrite decide_False by discriminate. cbn. lia.
Qed.



(** ** Directories *)

Lemma ensure_dir_spec (fs fs' : gmap path node) (p : path) :
  Fs.ensure_dir fs p = Some fs' ->
  fs' = fs \/ (fs !! p = None /\ p <> [] /\ fs' = <[p := Dir]> fs).
Proof.
  unfold Fs.ensure_dir, Fs.lookup. destruct p as [|c p].
  - intros [= <-]. left. reflexivity.
  - destruct (fs !! (c :: p)) as [[data|]|] eqn:E; intros [= <-]; [left|right]; auto.
Qed.

(** Creating directories keeps every entry there is and adds only
    directories among the paths asked for. *)
Lemma ensure_dirs_spec (ps : list path) (fs fs' : gmap path node) :
  Fs.ensure_dirs fs ps = Some fs' ->
  (forall q n, fs !! q = Some n -> fs' !! q = Some n)
  /\ (forall q, fs' !! q <> fs !! q -> fs' !! q = Some Dir /\ q ∈ ps).
Proof.
  revert fs. induction ps as [|p ps IH]; intros fs; cbn [Fs.ensure_dirs].
  - intros [= <-]. split; [auto|]. intros q Hq. congruence.
  - destruct (Fs.ensure_dir fs p) as [fs1|] eqn:E1; [|discriminate].
    intros Hrest. destruct (IH fs1 Hrest) as [Hkeep Hnew].
    apply ensure_dir_spec in E1 as [->|(Hnone & Hne & ->)].
    + split; [exact Hkeep|]. intros q Hq. destruct (Hnew q Hq). split; [assumption|].
      apply list_elem_of_further. assumption.
    + split.
      * intros q n Hq. apply Hkeep. rewrite lookup_insert_ne; [exact Hq|congruence].
      * intros q Hq. destruct (decide (fs' !! q = <[p := Dir]> fs !! q)) as [Heq|Hdiff].
        -- destruct (decide (p = q)) as [<-|Hpq].
           ++ rewrite Heq, lookup_insert_eq. split; [reflexivity|left].
           ++ rewrite lookup_insert_ne in Heq by exact Hpq. contradiction.
        -- destruct (Hnew q Hdiff). split; [assumption|].
           apply list_elem_of_further. assumption.
Qed.

Lemma ensure_dirs_present (ps : list path) (fs : gmap path node) :
  Forall (fun p => Fs.is_dir fs p = true) ps -> Fs.ensure_dirs fs ps = Some fs.
Proof.
  induction 1 as [|p ps Hp _ IH]; [reflexivity|].
  cbn [Fs.ensure_dirs]. unfold Fs.ensure_dir.
  unfold Fs.is_dir in Hp. apply bool_decide_eq_true in Hp. rewrite Hp. exact IH.
Qed.

Lemma ancestors_prefix (pre p q : path) :
  q ∈ Fs.ancestors pre p -> q `prefix_of` pre ++ p.
Proof.
  revert pre. induction p as [|c p IH]; intros pre; cbn [Fs.ancestors].
  - intros []%elem_of_nil.
  - intros [->|Hq]%elem_of_cons.
    + exists p. rewrite <- app_assoc. reflexivity.
    + apply IH in Hq. rewrite <- app_assoc in Hq. exact Hq.
Qed.

Lemma mkdir_p_spec (fs fs' : gmap path node) (p : path) :
  Fs.mkdir_p fs p = Some fs' ->
  (forall q n, fs !! q = Some n -> fs' !! q = Some n)
  /\ (forall q, fs' !! q <> fs !! q -> fs' !! q = Some Dir /\ q `prefix_of` p).
Proof.
  intros [Hkeep Hnew]%ensure_dirs_spec. split; [exact Hkeep|].
  intros q Hq. destruct (Hnew q Hq) as [Hdir Hin]. split; [exact Hdir|].
  apply (ancestors_prefix [] p q Hin).
Qed.

(** ** The archive of an id the host does not have *)

(** A request that raises makes [download_appid_zip] return [False]. *)
Lemma download_connection_error (app_id : Z) (output_dir : path) (log_callback : bool)
    (st : state) (msg : string) (fs' : gmap path node) :
  Fs.mkdir_p (nodes (outside st)) output_dir = Some fs' ->
  net (outside st) (length (requests (outside st))) (archive_url app_id)
    = ConnectionError msg ->
  (download_appid_zip app_id output_dir log_callback st).1 = Return false.
Proof.
  intros Hmk Hnet. destruct st as [d w]. cbn [self outside] in *.
  unfold download_appid_zip. monad_unfold.
  destruct log_callback; cbn [nodes denied requests net add_logged set_nodes];
    rewrite Hmk; cbn [nodes denied requests net add_logged set_nodes];
    rewrite Hnet; reflexivity.
Qed.

(** C1, as amended. When the archive request is answered with status 404,
    [download_appid_zip] returns [False], the value it also returns when
    the request fails; the callback, if any, receives the line
    "No data found for App ID <id>"; one request is sent; and the file system
    differs from the one before only by the directories created for
    [output_dir]: every entry is kept, no file is written, and nothing
    changes when the directory and its parents were there. *)
Theorem download_not_found (app_id : Z) (output_dir : path) (log_callback : bool)
    (st : state) (r : response) (fs' : gmap path node) :
  Fs.mkdir_p (nodes (outside st)) output_dir = Some fs' ->
  net (outside st) (length (requests (outside st))) (archive_url app_id) = Responded r ->
  status_code r = 404 ->
  let out := download_appid_zip app_id output_dir log_callback st in
  out.1 = Return false
  /\ out.2 =
       {| self := self st;
          outside :=
            log_world log_callback (no_data_line app_id)
              (add_request (archive_url app_id)
                 (set_nodes (fun _ => fs')
                    (log_world log_callback (downloading_line app_id) (outside st)))) |}
  /\ (forall st2 msg fs2,
        Fs.mkdir_p (nodes (outside st2)) output_dir = Some fs2 ->
        net (outside st2) (length (requests (outside st2))) (archive_url app_id)
          = ConnectionError msg ->
        (download_appid_zip app_id output_dir log_callback st2).1 = out.1)
  /\ (forall q n, nodes (outside st) !! q = Some n -> fs' !! q = Some n)
  /\ (forall q, fs' !! q <> nodes (outside st) !! q ->
        fs' !! q = Some Dir /\ q `prefix_of` output_dir)
  /\ (Forall (fun p => Fs.is_dir (nodes (outside st)) p = true) (Fs.ancestors [] output_dir) ->
      fs' = nodes (outside st)).
Proof.
  intros Hmk Hnet H404 out.
  assert (out = (Return false,
       {| self := self st;
          outside :=
            log_world log_callback (no_data_line app_id)
              (add_request (archive_url app_id)
                 (set_nodes (fun _ => fs')
                    (log_world log_callback (downloading_line app_id) (outside st)))) |}))
    as Hout.
  { subst out. destruct st as [d w]. cbn [self outside] in *.
    unfold download_appid_zip, log_world. monad_unfold.
    destruct log_callback; cbn [nodes denied requests net add_logged set_nodes];
      rewrite Hmk; cbn [nodes denied requests net add_logged set_nodes];
      rewrite Hnet, H404; reflexivity. }
  rewrite Hout. cbn [fst snd].
  split; [reflexivity|]. split; [reflexivity|]. split.
  { intros st2 msg fs2 Hmk2 Hnet2. eapply download_connection_error; eassumption. }
  destruct (mkdir_p_spec _ _ _ Hmk) as [Hkeep Hnew].
  split; [exact Hkeep|]. split; [exact Hnew|].
  intros Hall. unfold Fs.mkdir_p in Hmk.
  rewrite (ensure_dirs_present _ _ Hall) in Hmk. congruence.
Qed.

Lemma download_not_found_witness :
  let out := download_appid_zip 440 ["downloads"] true (archive_state 404) in
  out.1 = Return false
  /\ logged (outside out.2) = [downloading_line 440; no_data_line 440]
  /\ nodes (outside out.2) = {[ ["downloads"] := Dir ]}.
Proof.
  pose proof (download_not_found 440 ["downloads"] true (archive_state 404)
                (plain_response 404 (archive_url 440))
                {[ ["downloads"] := Dir ]} eq_refl eq_refl eq_refl) as (H1 & H2 & _).
  split; [exact H1|]. rewrite H2. split; reflexivity.
Defined.

(** C1, as stated, fails: with no callback, an id answered with 404 and
    an id answered with 500 give the same result, [False]; and after the
    404 the file system holds a directory it did not hold before. *)
Lemma download_not_found_not_distinct :
  let missing := download_appid_zip 440 ["downloads"] false (archive_state 404) in
  let failed := download_appid_zip 440 ["downloads"] false (archive_state 500) in
  missing.1 = Return false
  /\ failed.1 = missing.1
  /\ nodes (outside (archive_state 404)) !! ["downloads"] = None
  /\ nodes (outside missing.2) !! ["downloads"] = Some Dir
  /\ nodes (outside missing.2) <> nodes (outside (archive_state 404)).
Proof.
  cbv zeta. repeat apply conj; try (vm_compute; reflexivity). by_compute.
Qed.

(** ** Nothing to install *)

(** C6, as amended. When the staging directory holds no entry, file or
    directory, at any depth, whose name has one of the three extensions
    (the three listings are empty), [copy_files_to_steam] returns [False],
    passes "No files found to copy." to the callback, if any, and changes
    nothing else: no destination directory is created, the installation
    root is not looked for, the staging directory stays. *)
Theorem nothing_to_copy (source_dir : path) (log_callback : bool) (st : state) :
  Fs.rglob (nodes (outside st)) source_dir is_lua = [] ->
  Fs.rglob (nodes (outside st)) source_dir is_manifest = [] ->
  Fs.rglob (nodes (outside st)) source_dir is_st = [] ->
  copy_files_to_steam source_dir log_callback st =
    (Return false,
     {| self := self st;
        outside := log_world log_callback "No files found to copy." (outside st) |}).
Proof.
  intros Hlua Hman Hst. destruct st as [d w]. cbn [self outside] in *.
  unfold copy_files_to_steam. monad_unfold.
  rewrite Hlua, Hman, Hst. cbn [bool_decide andb].
  rewrite !bool_decide_eq_true_2 by reflexivity.
  destruct log_callback; reflexivity.
Qed.

Lemma nothing_to_copy_witness :
  copy_files_to_steam ["downloads"] true (disk_state empty_staging_fs ∅) =
    (Return false,
     {| self := fresh_downloader;
        outside := log_world true "No files found to copy."
                     (bare_world offline empty_staging_fs ∅) |}).
Proof.
  apply (nothing_to_copy ["downloads"] true (disk_state empty_staging_fs ∅));
    vm_compute; reflexivity.
Defined.

(** C6, as stated, fails: with no callback, an empty staging directory
    and a staged script without an installation root give the same result,
    [False]. *)
Lemma nothing_to_copy_not_distinct :
  let nothing := copy_files_to_steam ["downloads"] false (disk_state empty_staging_fs ∅) in
  let rootless := copy_files_to_steam ["downloads"] false (disk_state no_steam_fs ∅) in
  Fs.rglob no_steam_fs ["downloads"] is_lua = [["downloads"; "440.lua"]]
  /\ List.find (Fs.exists_ no_steam_fs) (possible_paths (bare_world offline no_steam_fs ∅)) = None
  /\ nothing.1 = Return false
  /\ rootless.1 = nothing.1.
Proof. vm_compute. repeat split; reflexivity. Qed.

(** A staged directory whose name has one of the extensions is listed
    like a file: the installer goes on, fails to copy it, removes the
    staging directory and returns [True]. *)
Example staged_directory_is_listed :
  let out := copy_files_to_steam ["downloads"] true (disk_state dir_only_fs ∅) in
  Fs.rglob dir_only_fs ["downloads"] is_lua = [["downloads"; "mods.lua"]]
  /\ out.1 = Return true
  /\ Fs.is_dir (nodes (outside out.2)) (stplug steam_dir) = true
  /\ Fs.is_dir (nodes (outside out.2)) (depotcache steam_dir) = true
  /\ nodes (outside out.2) !! (stplug steam_dir ++ ["mods.lua"]) = None
  /\ nodes (outside out.2) !! ["downloads"] = None.
Proof. cbv zeta. repeat apply conj; vm_compute; reflexivity. Qed.

(** ** The installer *)

Lemma with_disk_id (w : world) : w = with_disk (nodes w) [] w.
Proof. destruct w. unfold with_disk. cbn. rewrite app_nil_r. reflexivity. Qed.

Lemma with_disk_logged (fs : gmap path node) (lines : list string) (line : string) (w : world) :
  add_logged line (with_disk fs lines w) = with_disk fs (lines ++ [line]) w.
Proof. unfold add_logged, with_disk. cbn. rewrite app_assoc. reflexivity. Qed.

Lemma with_disk_nodes (fs fs' : gmap path node) (lines : list string) (w : world) :
  set_nodes (fun _ => fs') (with_disk fs lines w) = with_disk fs' lines w.
Proof. reflexivity. Qed.

Lemma bind_return {A B : Type} (m : M A) (f : A -> M B) (s s' : state) (a : A) :
  m s = (Return a, s') -> (m ≫= f) s = f a s'.
Proof. intros Hm. unfold mbind, M_bind. rewrite Hm. reflexivity. Qed.

Lemma said_app (log_callback : bool) (a b : list string) :
  said log_callback (a ++ b) = said log_callback a ++ said log_callback b.
Proof. destruct log_callback; reflexivity. Qed.

Lemma log_run (log_callback : bool) (line : string) (d : SteamToolsDownloader) (w : world)
    (fs : gmap path node) (lines : list string) :
  log log_callback line {| self := d; outside := with_disk fs lines w |}
  = (Return tt, {| self := d; outside := with_disk fs (lines ++ said log_callback [line]) w |}).
Proof.
  destruct log_callback; cbn [log said].
  - unfold modify_world. cbn [self outside]. rewrite with_disk_logged. reflexivity.
  - rewrite app_nil_r. reflexivity.
Qed.

(** One turn of a copy loop never raises. *)
Lemma copy_one_run (dest_folder : path) (log_callback : bool) (f : path)
    (d : SteamToolsDownloader) (w : world) (fs : gmap path node) (lines : list string) :
  copy_one dest_folder log_callback f {| self := d; outside := with_disk fs lines w |}
  = (Return tt,
     {| self := d;
        outside := with_disk (copy_step dest_folder (denied w) fs f)
                     (lines ++ said log_callback (copy_line dest_folder w fs f)) w |}).
Proof.
  unfold copy_one, copy_step, copy_line, try_except, fs_op.
  cbn [self outside nodes denied with_disk].
  destruct (Fs.copy2 fs (denied w) f (dest_folder ++ [Fs.name f])) as [fs'|]; cbn [default].
  - destruct log_callback; cbn [said]; rewrite app_nil_r; reflexivity.
  - cbn [str_exn os_error with_disk]. apply log_run.
Qed.

(** A copy loop never raises; it folds [copy_step] over the files. *)
Lemma for_each_copy_one (dest_folder : path) (log_callback : bool) (files : list path)
    (d : SteamToolsDownloader) (w : world) (fs : gmap path node) (lines : list string) :
  for_each files (copy_one dest_folder log_callback)
    {| self := d; outside := with_disk fs lines w |}
  = (Return tt,
     {| self := d;
        outside := with_disk (foldl (copy_step dest_folder (denied w)) fs files)
                     (lines ++ said log_callback (loop_lines dest_folder w fs files)) w |}).
Proof.
  revert fs lines. induction files as [|f files IH]; intros fs lines.
  - cbn [for_each foldl loop_lines]. destruct log_callback; cbn [said]; rewrite app_nil_r;
      reflexivity.
  - cbn [for_each foldl loop_lines].
    rewrite (bind_return _ _ _ _ _ (copy_one_run dest_folder log_callback f d w fs lines)).
    rewrite IH, said_app, app_assoc. reflexivity.
Qed.

Lemma mkdir_run (p : path) (d : SteamToolsDownloader) (w : world)
    (fs fs' : gmap path node) (lines : list string) :
  Fs.mkdir_p fs p = Some fs' ->
  fs_op p (fun fs _ => Fs.mkdir_p fs p) {| self := d; outside := with_disk fs lines w |}
  = (Return tt, {| self := d; outside := with_disk fs' lines w |}).
Proof. intros Hmk. unfold fs_op. cbn [self outside nodes denied with_disk]. rewrite Hmk. reflexivity. Qed.

Lemma find_steam_folder_run (d : SteamToolsDownloader) (w : world) (fs : gmap path node)
    (lines : list string) (steam_folder : path) :
  steam_root {| self := d; outside := with_disk fs lines w |} = Some steam_folder ->
  exists d',
    find_steam_folder {| self := d; outside := with_disk fs lines w |}
    = (Return (Some steam_folder), {| self := d'; outside := with_disk fs lines w |})
    /\ _steam_folder d' = Some steam_folder
    /\ games_cache d' = games_cache d
    /\ steamtools_exe d' = steamtools_exe d.
Proof.
  unfold steam_root, find_steam_folder. monad_unfold.
  destruct (_steam_folder d) as [folder|] eqn:Hcached.
  - intros [= ->]. exists d. auto.
  - intros ->. exists (set_steam_folder (Some steam_folder) d). auto.
Qed.

(** The cleanup never raises: a refusal is logged. *)
Lemma cleanup_run (source_path : path) (log_callback : bool) (d : SteamToolsDownloader)
    (w : world) (fs : gmap path node) (lines : list string) :
  try_except
    (rmtree_op source_path;;
     log log_callback "✓ Deleted temporary files")
    (fun e => log log_callback ("⚠ Could not delete downloads folder: " +:+ str_exn e))
    {| self := d; outside := with_disk fs lines w |}
  = (Return tt,
     {| self := d;
        outside := with_disk (cleanup source_path (denied w) fs)
                     (lines ++ said log_callback [cleanup_line source_path w fs]) w |}).
Proof.
  unfold cleanup, cleanup_line, try_except, mbind, M_bind, rmtree_op.
  cbn [self outside nodes denied with_disk os_error].
  destruct (Fs.rmtree fs (denied w) source_path) as [fs' []]; cbn [fst snd str_exn];
    rewrite with_disk_nodes, log_run; reflexivity.
Qed.

Lemma files_nonempty (fs : gmap path node) (source_dir : path) :
  plugin_files fs source_dir ++ manifest_files fs source_dir <> [] ->
  bool_decide (Fs.rglob fs source_dir is_lua = [])
  && bool_decide (Fs.rglob fs source_dir is_manifest = [])
  && bool_decide (Fs.rglob fs source_dir is_st = []) = false.
Proof.
  unfold plugin_files, manifest_files. intros Hne.
  destruct (Fs.rglob fs source_dir is_lua); [|reflexivity].
  destruct (Fs.rglob fs source_dir is_manifest); [|reflexivity].
  destruct (Fs.rglob fs source_dir is_st); [|reflexivity].
  contradiction Hne. reflexivity.
Qed.

(** A guarded copy loop, as the method writes both of them. *)
Lemma guarded_loop_run (dest_folder : path) (log_callback : bool) (files : list path)
    (line : string) (d : SteamToolsDownloader) (w : world) (fs : gmap path node)
    (lines : list string) :
  (if bool_decide (files = []) then mret tt
   else log log_callback line;; for_each files (copy_one dest_folder log_callback))
    {| self := d; outside := with_disk fs lines w |}
  = (Return tt,
     {| self := d;
        outside := with_disk (foldl (copy_step dest_folder (denied w)) fs files)
                     (lines ++ said log_callback
                                 (if bool_decide (files = []) then []
                                  else line :: loop_lines dest_folder w fs files)) w |}).
Proof.
  case_bool_decide as Hfiles.
  - subst files. destruct log_callback; cbn [said]; rewrite app_nil_r; reflexivity.
  - rewrite (bind_return _ _ _ _ _ (log_run log_callback line d w fs lines)).
    rewrite for_each_copy_one, <- app_assoc, <- said_app. reflexivity.
Qed.

(** On a staging directory that holds something to copy, with the
    installation root found and the two folders in place or creatable,
    [copy_files_to_steam] returns [True], leaves the file system
    [installed] describes and has passed [install_lines] to the
    callback. *)
Lemma copy_files_to_steam_lines (source_dir : path) (log_callback : bool) (st : state)
    (steam_folder : path) (fs1 fs2 : gmap path node) :
  plugin_files (nodes (outside st)) source_dir ++ manifest_files (nodes (outside st)) source_dir
    <> [] ->
  steam_root st = Some steam_folder ->
  Fs.mkdir_p (nodes (outside st)) (stplug steam_folder) = Some fs1 ->
  Fs.mkdir_p fs1 (depotcache steam_folder) = Some fs2 ->
  exists d',
    copy_files_to_steam source_dir log_callback st
    = (Return true,
       {| self := d';
          outside :=
            with_disk
              (installed (nodes (outside st)) fs2 (denied (outside st)) source_dir steam_folder)
              (said log_callback (install_lines (outside st) fs2 source_dir steam_folder))
              (outside st) |})
    /\ _steam_folder d' = Some steam_folder
    /\ games_cache d' = games_cache (self st)
    /\ steamtools_exe d' = steamtools_exe (self st).
Proof.
  intros Hfiles Hroot Hmk1 Hmk2.
  destruct st as [d w]. cbn [self outside] in *.
  unfold copy_files_to_steam.
  unfold mbind at 1, M_bind at 1, get_world at 1. cbn [outside].
  rewrite (files_nonempty _ _ Hfiles).
  replace {| self := d; outside := w |}
    with {| self := d; outside := with_disk (nodes w) [] w |} in Hroot |- *
    by (rewrite <- with_disk_id; reflexivity).
  rewrite (bind_return _ _ _ _ _
             (log_run log_callback (nl +:+ "[3/5] Copying files to Steam...") d w (nodes w) [])).
  set (l1 := [] ++ said log_callback [nl +:+ "[3/5] Copying files to Steam..."]).
  assert (steam_root {| self := d; outside := with_disk (nodes w) l1 w |} = Some steam_folder)
    as Hroot1 by exact Hroot.
  destruct (find_steam_folder_run d w (nodes w) l1 steam_folder Hroot1)
    as (d' & H2 & Hfolder & Hcache & Hexe).
  rewrite (bind_return _ _ _ _ _ H2).
  rewrite (bind_return _ _ _ _ _ (mkdir_run _ d' w _ _ _ Hmk1)).
  rewrite (bind_return _ _ _ _ _ (mkdir_run _ d' w _ _ _ Hmk2)).
  rewrite (bind_return _ _ _ _ _ (guarded_loop_run _ _ _ _ _ _ _ _)).
  rewrite (bind_return _ _ _ _ _ (guarded_loop_run _ _ _ _ _ _ _ _)).
  rewrite (bind_return _ _ _ _ _ (log_run _ _ _ _ _ _)).
  rewrite (bind_return _ _ _ _ _ (cleanup_run _ _ _ _ _ _)).
  exists d'. split; [|auto].
  unfold mret, M_ret, installed, install_lines, plugin_files, manifest_files, stplug, depotcache.
  subst l1. f_equal. f_equal. f_equal. destruct log_callback; cbn [said app]; [|reflexivity].
  rewrite <- !app_assoc. reflexivity.
Qed.

Lemma copy_files_to_steam_run (source_dir : path) (log_callback : bool) (st : state)
    (steam_folder : path) (fs1 fs2 : gmap path node) :
  plugin_files (nodes (outside st)) source_dir ++ manifest_files (nodes (outside st)) source_dir
    <> [] ->
  steam_root st = Some steam_folder ->
  Fs.mkdir_p (nodes (outside st)) (stplug steam_folder) = Some fs1 ->
  Fs.mkdir_p fs1 (depotcache steam_folder) = Some fs2 ->
  exists d' lines',
    copy_files_to_steam source_dir log_callback st
    = (Return true,
       {| self := d';
          outside :=
            with_disk
              (installed (nodes (outside st)) fs2 (denied (outside st)) source_dir steam_folder)
              lines' (outside st) |})
    /\ _steam_folder d' = Some steam_folder
    /\ games_cache d' = games_cache (self st)
    /\ steamtools_exe d' = steamtools_exe (self st).
Proof.
  intros Hfiles Hroot Hmk1 Hmk2.
  destruct (copy_files_to_steam_lines source_dir log_callback st steam_folder fs1 fs2
              Hfiles Hroot Hmk1 Hmk2) as (d' & Hrun & Hrest).
  eauto.
Qed.

(** *** What one copy does to the file system *)

Lemma lookup_nonroot (fs : gmap path node) (p : path) : p <> [] -> Fs.lookup fs p = fs !! p.
Proof. destruct p; [congruence|reflexivity]. Qed.

Lemma parent_snoc (p : path) (c : string) : Fs.parent (p ++ [c]) = p.
Proof. unfold Fs.parent. apply removelast_last. Qed.


Lemma write_file_spec (fs fs' : gmap path node) (deny : gset path) (p : path) (data : string) :
  Fs.write_file fs deny p data = Some fs' ->
  fs' = <[p := File data]> fs /\ p <> [] /\ fs !! p <> Some Dir.
Proof.
  unfold Fs.write_file.
  destruct (Fs.is_dir fs (Fs.parent p)); [|discriminate].
  destruct (Fs.is_dir fs p) eqn:Hdir; [discriminate|].
  destruct (bool_decide (p ∉ deny)); [|discriminate].
  cbn [andb negb]. case_bool_decide as Hp; [|discriminate].
  intros [= <-]. repeat split; [exact Hp|].
  unfold Fs.is_dir in Hdir. apply bool_decide_eq_false in Hdir.
  rewrite lookup_nonroot in Hdir by exact Hp. exact Hdir.
Qed.

(** A copy that succeeds writes one regular file, at the destination or
    one level below it, over something that is not a directory. *)
Lemma copy2_spec (fs fs' : gmap path node) (deny : gset path) (src dst : path) :
  Fs.copy2 fs deny src dst = Some fs' ->
  exists target data,
    (target = dst \/ target = dst ++ [Fs.name src])
    /\ fs' = <[target := File data]> fs
    /\ target <> []
    /\ fs !! target <> Some Dir.
Proof.
  unfold Fs.copy2.
  set (target := if Fs.is_dir fs dst then dst ++ [Fs.name src] else dst).
  assert (target = dst \/ target = dst ++ [Fs.name src]) as Htarget.
  { subst target. destruct (Fs.is_dir fs dst); auto. }
  case_bool_decide; [discriminate|].
  destruct (Fs.lookup fs src) as [[data|]|]; try discriminate.
  intros (-> & Hne & Hnd)%write_file_spec. exists target, data. auto.
Qed.

(** After a turn of a loop into [dest_folder], an entry is as before, or
    it is a regular file written over a non-directory in one of the two
    places the turn can write to. *)
Lemma copy_step_lookup (dest_folder : path) (deny : gset path) (fs : gmap path node)
    (f q : path) :
  copy_step dest_folder deny fs f !! q = fs !! q
  \/ ((exists data, copy_step dest_folder deny fs f !! q = Some (File data))
      /\ fs !! q <> Some Dir
      /\ (q = dest_folder ++ [Fs.name f] \/ q = dest_folder ++ [Fs.name f; Fs.name f])).
Proof.
  unfold copy_step.
  destruct (Fs.copy2 fs deny f (dest_folder ++ [Fs.name f])) as [fs'|] eqn:Hcopy;
    cbn [default from_option id]; [|left; reflexivity].
  apply copy2_spec in Hcopy as (target & data & Htarget & -> & Hne & Hnd).
  destruct (decide (target = q)) as [<-|Hq].
  - right. rewrite lookup_insert_eq. split; [eauto|]. split; [exact Hnd|].
    rewrite <- app_assoc in Htarget. exact Htarget.
  - left. apply lookup_insert_ne, Hq.
Qed.

Lemma copy_step_file_kept (dest_folder : path) (deny : gset path) (fs : gmap path node)
    (f q : path) (data : string) :
  fs !! q = Some (File data) ->
  exists data', copy_step dest_folder deny fs f !! q = Some (File data').
Proof.
  intros Hq. destruct (copy_step_lookup dest_folder deny fs f q) as [->|[Hw _]]; eauto.
Qed.

Lemma copy_step_dir (dest_folder : path) (deny : gset path) (fs : gmap path node) (f q : path) :
  copy_step dest_folder deny fs f !! q = Some Dir <-> fs !! q = Some Dir.
Proof.
  destruct (copy_step_lookup dest_folder deny fs f q) as [->|([data Hw] & Hnd & _)];
    [reflexivity|].
  rewrite Hw. split; [discriminate|contradiction].
Qed.

Lemma copy_step_outside (dest_folder : path) (deny : gset path) (fs : gmap path node)
    (f q : path) :
  ¬ dest_folder `prefix_of` q -> copy_step dest_folder deny fs f !! q = fs !! q.
Proof.
  intros Hout. destruct (copy_step_lookup dest_folder deny fs f q) as [->|(_ & _ & Hq)];
    [reflexivity|].
  contradiction Hout. destruct Hq as [->| ->]; eexists; reflexivity.
Qed.


Lemma is_dir_copy_step (dest_folder : path) (deny : gset path) (fs : gmap path node) (f q : path) :
  Fs.is_dir (copy_step dest_folder deny fs f) q = Fs.is_dir fs q.
Proof.
  unfold Fs.is_dir. destruct q as [|c q]; [reflexivity|]. cbn [Fs.lookup].
  apply bool_decide_ext, copy_step_dir.
Qed.

(** The turn of a regular file whose destination can be written puts its
    content there. *)
Lemma copy_step_turn (dest_folder : path) (deny : gset path) (fs : gmap path node)
    (f : path) (data : string) :
  f <> [] ->
  fs !! f = Some (File data) ->
  Fs.is_dir fs dest_folder = true ->
  fs !! (dest_folder ++ [Fs.name f]) <> Some Dir ->
  dest_folder ++ [Fs.name f] ∉ deny ->
  f <> dest_folder ++ [Fs.name f] ->
  copy_step dest_folder deny fs f !! (dest_folder ++ [Fs.name f]) = Some (File data).
Proof.
  intros Hf Hdata Hdest Hnd Hallowed Hother.
  assert (dest_folder ++ [Fs.name f] <> []) as Hne by (destruct dest_folder; discriminate).
  assert (Fs.is_dir fs (dest_folder ++ [Fs.name f]) = false) as Hfile.
  { unfold Fs.is_dir. rewrite lookup_nonroot by exact Hne.
    apply bool_decide_eq_false, Hnd. }
  unfold copy_step, Fs.copy2. rewrite Hfile.
  rewrite bool_decide_eq_false_2 by exact Hother.
  rewrite lookup_nonroot by exact Hf. rewrite Hdata.
  unfold Fs.write_file. rewrite parent_snoc, Hdest, Hfile.
  rewrite !bool_decide_eq_true_2 by assumption. cbn [andb negb default from_option id].
  apply lookup_insert_eq.
Qed.

(** *** What a loop does to the file system *)

Section copy_loop.
Variables (dest_folder : path) (deny : gset path).

Local Abbreviation loop := (foldl (copy_step dest_folder deny)).

Lemma loop_file_kept (files : list path) (fs : gmap path node) (q : path) (data : string) :
  fs !! q = Some (File data) -> exists data', loop fs files !! q = Some (File data').
Proof.
  revert fs data. induction files as [|f files IH]; intros fs data Hq; [eauto|].
  destruct (copy_step_file_kept dest_folder deny fs f q data Hq) as [data1 H1].
  apply (IH _ _ H1).
Qed.

Lemma loop_dir (files : list path) (fs : gmap path node) (q : path) :
  loop fs files !! q = Some Dir <-> fs !! q = Some Dir.
Proof.
  revert fs. induction files as [|f files IH]; intros fs; [reflexivity|].
  cbn [foldl]. rewrite IH. apply copy_step_dir.
Qed.

Lemma is_dir_loop (files : list path) (fs : gmap path node) (q : path) :
  Fs.is_dir (loop fs files) q = Fs.is_dir fs q.
Proof.
  unfold Fs.is_dir. destruct q as [|c q]; [reflexivity|]. cbn [Fs.lookup].
  apply bool_decide_ext, loop_dir.
Qed.

Lemma loop_outside (files : list path) (fs : gmap path node) (q : path) :
  ¬ dest_folder `prefix_of` q -> loop fs files !! q = fs !! q.
Proof.
  intros Hout. revert fs. induction files as [|f files IH]; intros fs; [reflexivity|].
  cbn [foldl]. rewrite IH. apply copy_step_outside, Hout.
Qed.



(** A file that can be copied is copied, whatever the other turns do. *)
Lemma loop_copies (files : list path) (fs : gmap path node) (f : path) (data : string) :
  f ∈ files ->
  f <> [] ->
  fs !! f = Some (File data) ->
  ¬ dest_folder `prefix_of` f ->
  Fs.is_dir fs dest_folder = true ->
  fs !! (dest_folder ++ [Fs.name f]) <> Some Dir ->
  dest_folder ++ [Fs.name f] ∉ deny ->
  exists data', loop fs files !! (dest_folder ++ [Fs.name f]) = Some (File data').
Proof.
  intros (before & after & ->)%list_elem_of_split Hf Hdata Hout Hdest Hnd Hallowed.
  rewrite foldl_app. cbn [foldl].
  eapply loop_file_kept. apply copy_step_turn.
  - exact Hf.
  - rewrite loop_outside by exact Hout. exact Hdata.
  - rewrite is_dir_loop. exact Hdest.
  - rewrite loop_dir. exact Hnd.
  - exact Hallowed.
  - intros Heq. apply Hout. exists [Fs.name f]. exact Heq.
Qed.

End copy_loop.

(** *** Listing, creating and removing *)

Lemma rglob_elem (fs : gmap path node) (root : path) (matches : string -> bool) (f : path) :
  f ∈ Fs.rglob fs root matches ->
  root `prefix_of` f /\ f <> root /\ f <> [] /\ matches (Fs.name f) = true
  /\ is_Some (fs !! f) /\ Fs.is_dir fs root = true.
Proof.
  unfold Fs.rglob. destruct (Fs.is_dir fs root) eqn:Hroot; [|intros []%elem_of_nil].
  intros [(Hpre & Hne & Hm) Hin]%list_elem_of_filter.
  apply list_elem_of_fmap in Hin as ([k n] & -> & Hin).
  apply elem_of_map_to_list in Hin. cbn [fst] in *.
  repeat split; eauto.
  intros ->. apply Hne. destruct Hpre as [x Hx]. symmetry in Hx.
  apply app_eq_nil in Hx as [-> _]. reflexivity.
Qed.


Lemma children_below (fs : gmap path node) (p q : path) :
  q ∈ Fs.children fs p -> p `prefix_of` q /\ q <> p.
Proof.
  unfold Fs.children. intros [[Hne Hpar] _]%list_elem_of_filter.
  destruct q as [|c q] using rev_ind; [congruence|]. clear IHq.
  unfold Fs.parent in Hpar. rewrite removelast_last in Hpar. subst p.
  split; [eexists; reflexivity|].
  intros Heq. apply (f_equal length) in Heq. rewrite length_app in Heq. cbn in Heq. lia.
Qed.

(** The walk touches nothing outside the tree and removes no entry the
    system refuses. *)
Lemma rmtree_walk_kept (fuel : nat) (deny : gset path) (p : path) (fs : gmap path node)
    (q : path) :
  ¬ p `prefix_of` q \/ q ∈ deny ->
  (Fs.rmtree_walk fuel deny p fs).1 !! q = fs !! q.
Proof.
  revert p fs. induction fuel as [|fuel IH]; intros p fs Hq; [reflexivity|].
  cbn [Fs.rmtree_walk].
  match goal with |- context [foldl ?f _ _] => set (step := f) end.
  assert (forall cs acc,
            (forall c, c ∈ cs -> p `prefix_of` c) ->
            (foldl step acc cs).1 !! q = acc.1 !! q) as Hloop.
  { induction cs as [|c cs IHcs]; intros acc Hcs; [reflexivity|].
    cbn [foldl]. rewrite IHcs by (intros c' Hc'; apply Hcs; right; exact Hc').
    assert (p `prefix_of` c) as Hpc by (apply Hcs; left).
    assert (c <> q \/ c ∈ deny) as Hcq.
    { destruct Hq as [Hout|Hden]; [left; intros ->; contradiction|].
      destruct (decide (c ∈ deny)); [right; assumption|left; intros ->; contradiction]. }
    subst step. cbn beta. destruct acc.2; [|reflexivity].
    destruct (acc.1 !! c) as [[data|]|] eqn:Hc; [| |reflexivity].
    - case_bool_decide as Hden; [reflexivity|]. cbn [fst].
      apply lookup_delete_ne. destruct Hcq; [assumption|contradiction].
    - apply IH. destruct Hq as [Hout|Hden]; [left|right; exact Hden].
      intros Hcq'. apply Hout. etrans; eassumption. }
  specialize (Hloop (Fs.children fs p) (fs, true)
                (fun c Hc => proj1 (children_below fs p c Hc))).
  cbn [fst] in Hloop.
  destruct (foldl step (fs, true) (Fs.children fs p)) as [fs' ok]. cbn [fst snd] in *.
  destruct ok; [|exact Hloop]. case_bool_decide as Hden; [exact Hloop|]. cbn [fst].
  rewrite lookup_delete_ne; [exact Hloop|].
  destruct Hq as [Hout|Hq]; intros ->; [apply Hout; reflexivity|contradiction].
Qed.

Lemma tree_elem (fs : gmap path node) (p q : path) :
  q ∈ Fs.tree fs p <-> p `prefix_of` q /\ is_Some (fs !! q).
Proof.
  unfold Fs.tree. rewrite list_elem_of_filter, list_elem_of_fmap. split.
  - intros [Hpre ([k n] & -> & Hin%elem_of_map_to_list)]. eauto.
  - intros [Hpre [n Hn]]. split; [exact Hpre|]. exists (q, n).
    split; [reflexivity|apply elem_of_map_to_list, Hn].
Qed.

Lemma cleanup_outside (source_path : path) (deny : gset path) (fs : gmap path node)
    (q : path) :
  ¬ source_path `prefix_of` q -> cleanup source_path deny fs !! q = fs !! q.
Proof.
  intros Hout. unfold cleanup, Fs.rmtree.
  destruct (Fs.is_dir fs source_path); [|reflexivity].
  case_bool_decide; cbn [fst]; [|apply rmtree_walk_kept; left; exact Hout].
  destruct (fs !! q) as [n|] eqn:Hq.
  - apply map_lookup_filter_Some. split; [exact Hq|exact Hout].
  - apply map_lookup_filter_None. left. exact Hq.
Qed.


(** When nothing in the tree is refused, the cleanup returns and the tree
    is gone; otherwise it raises. *)
Lemma cleanup_removes (source_path : path) (deny : gset path) (fs : gmap path node)
    (q : path) :
  Fs.is_dir fs source_path = true ->
  (forall e, source_path `prefix_of` e -> is_Some (fs !! e) -> e ∉ deny) ->
  (Fs.rmtree fs deny source_path).2 = true
  /\ (source_path `prefix_of` q -> cleanup source_path deny fs !! q = None).
Proof.
  intros Hdir Hfree. unfold cleanup, Fs.rmtree. rewrite Hdir.
  rewrite bool_decide_eq_true_2.
  2:{ apply Forall_forall. intros e [Hpre He]%tree_elem. apply Hfree; assumption. }
  split; [reflexivity|]. intros Hin. cbn [fst].
  apply map_lookup_filter_None. right. intros n _ Hout. apply Hout. exact Hin.
Qed.


Lemma is_dir_kept (fs fs' : gmap path node) (q : path) :
  (forall p n, fs !! p = Some n -> fs' !! p = Some n) ->
  Fs.is_dir fs q = true -> Fs.is_dir fs' q = true.
Proof.
  intros Hkeep. unfold Fs.is_dir. destruct q as [|c q]; [auto|]. cbn [Fs.lookup].
  intros Hq%bool_decide_eq_true. apply bool_decide_eq_true, Hkeep, Hq.
Qed.




Lemma prefix_snoc (p l : path) (x : string) :
  p `prefix_of` l ++ [x] -> p `prefix_of` l \/ p = l ++ [x].
Proof.
  intros [k Hk]. destruct k as [|y k _] using rev_ind.
  - right. rewrite app_nil_r in Hk. congruence.
  - left. rewrite app_assoc in Hk. apply app_inj_tail in Hk as [-> _]. eexists. reflexivity.
Qed.

Lemma apart_entry (source_dir dest_folder : path) (n : string) :
  apart source_dir dest_folder -> ¬ source_dir `prefix_of` dest_folder ++ [n].
Proof.
  intros [Hsd Hds] [Hpre| ->]%prefix_snoc; [contradiction|].
  apply Hds. eexists. reflexivity.
Qed.

(** An entry of one destination folder is no ancestor of either folder
    and lies outside the other folder. *)
Lemma entry_not_ancestor (plugin other : bool) (steam_folder : path) (n : string) :
  ¬ loop_folder plugin steam_folder ++ [n] `prefix_of` loop_folder other steam_folder.
Proof.
  intros [k Hk]. destruct plugin, other; unfold loop_folder, stplug, depotcache in Hk;
    rewrite <- !app_assoc in Hk; apply app_inv_head in Hk; discriminate Hk.
Qed.


Lemma copy2_allowed (fs fs' : gmap path node) (deny : gset path) (src dst q : path) :
  Fs.copy2 fs deny src dst = Some fs' -> q ∈ deny -> fs' !! q = fs !! q.
Proof.
  unfold Fs.copy2.
  set (target := if Fs.is_dir fs dst then dst ++ [Fs.name src] else dst).
  case_bool_decide; [discriminate|].
  destruct (Fs.lookup fs src) as [[data|]|]; try discriminate.
  unfold Fs.write_file.
  destruct (Fs.is_dir fs (Fs.parent target)); [|discriminate].
  destruct (Fs.is_dir fs target); [discriminate|]. cbn [andb negb].
  case_bool_decide as Hallowed; [|discriminate].
  case_bool_decide; [|discriminate].
  intros [= <-] Hq. apply lookup_insert_ne. intros ->. contradiction.
Qed.

Lemma loop_denied (dest_folder : path) (deny : gset path) (files : list path)
    (fs : gmap path node) (q : path) :
  q ∈ deny -> foldl (copy_step dest_folder deny) fs files !! q = fs !! q.
Proof.
  intros Hq. revert fs. induction files as [|f files IH]; intros fs; [reflexivity|].
  cbn [foldl]. rewrite IH. unfold copy_step.
  destruct (Fs.copy2 fs deny f (dest_folder ++ [Fs.name f])) as [fs'|] eqn:E;
    cbn [default from_option id]; [|reflexivity].
  apply (copy2_allowed _ _ _ _ _ _ E Hq).
Qed.



Section installer.
Variables (source_dir : path) (log_callback : bool) (st : state).
Variables (steam_folder : path) (fs1 fs2 : gmap path node).

Local Abbreviation fs0 := (nodes (outside st)).
Local Abbreviation deny := (denied (outside st)).
Local Abbreviation final := (nodes (outside (copy_files_to_steam source_dir log_callback st).2)).

Hypothesis Hfiles : plugin_files fs0 source_dir ++ manifest_files fs0 source_dir <> [].
Hypothesis Hroot : steam_root st = Some steam_folder.
Hypothesis Hmk1 : Fs.mkdir_p fs0 (stplug steam_folder) = Some fs1.
Hypothesis Hmk2 : Fs.mkdir_p fs1 (depotcache steam_folder) = Some fs2.
Hypothesis Hplug : apart source_dir (stplug steam_folder).
Hypothesis Hdepot : apart source_dir (depotcache steam_folder).

Lemma install_result :
  (copy_files_to_steam source_dir log_callback st).1 = Return true
  /\ final = installed fs0 fs2 deny source_dir steam_folder.
Proof.
  destruct (copy_files_to_steam_run source_dir log_callback st steam_folder fs1 fs2
              Hfiles Hroot Hmk1 Hmk2) as (d' & lines' & -> & _).
  split; reflexivity.
Qed.















End installer.

Lemma staged_apart (plugin : bool) : apart ["downloads"] (loop_folder plugin steam_dir).
Proof. destruct plugin; split; intros [k Hk]; discriminate Hk. Qed.



(** The cleanup can fail as well: with a staged script the system refuses
    to remove, the copies are made, the script stays in the staging
    directory, the refusal is logged and the result is still [True]. *)
Example refused_cleanup_returns_true :
  let out := copy_files_to_steam ["downloads"] true (disk_state staged_fs locked_staged) in
  out.1 = Return true
  /\ nodes (outside out.2) !! (stplug steam_dir ++ ["441.lua"]) = Some (File "addappid(441)")
  /\ nodes (outside out.2) !! ["downloads"; "441.lua"] = Some (File "addappid(441)")
  /\ nodes (outside out.2) !! ["downloads"] = Some Dir
  /\ last (logged (outside out.2))
     = Some ("⚠ Could not delete downloads folder: " +:+ permission_denied ["downloads"]).
Proof.
  cbv zeta. repeat apply conj; vm_compute; reflexivity.
Qed.


(** ** Fuzzy matching *)

Lemma insert_desc_elem (p x : Q * string) (l : list (Q * string)) :
  x ∈ insert_desc p l <-> x = p \/ x ∈ l.
Proof.
  induction l as [|q l IH]; cbn [insert_desc].
  - rewrite list_elem_of_singleton, elem_of_nil. tauto.
  - destruct (scored_gtb q p); rewrite !elem_of_cons; [rewrite IH|]; tauto.
Qed.

Lemma sort_desc_elem (x : Q * string) (l : list (Q * string)) : x ∈ sort_desc l <-> x ∈ l.
Proof.
  unfold sort_desc. induction l as [|p l IH]; cbn [foldr]; [reflexivity|].
  rewrite insert_desc_elem, elem_of_cons, IH. reflexivity.
Qed.

Lemma nlargest_elem (n : nat) (x : Q * string) (l : list (Q * string)) :
  x ∈ nlargest n l -> x ∈ l.
Proof.
  unfold nlargest. intros Hx. apply sort_desc_elem.
  apply (subseteq_take n (sort_desc l)), Hx.
Qed.


Section close_matches_facts.
Context `{SequenceMatcher}.


(** A name returned is one of the possibilities and passes the three
    tests, the last of which is the similarity ratio itself. *)
Lemma get_close_matches_elem (word : string) (possibilities : list string) (n : nat)
    (cutoff : Q) (x : string) :
  x ∈ get_close_matches word possibilities n cutoff ->
  x ∈ possibilities /\ (cutoff <= ratio x word)%Q.
Proof.
  unfold get_close_matches.
  intros ([score y] & -> & Hin%nlargest_elem)%list_elem_of_fmap.
  apply list_elem_of_fmap in Hin as (z & [= -> ->] & Hz).
  apply list_elem_of_filter in Hz as [Hclose Hz]. split; [exact Hz|].
  unfold close_enough in Hclose.
  apply andb_true_iff in Hclose as [_ Hratio]. apply Qle_bool_iff, Hratio.
Qed.


End close_matches_facts.

Lemma with_ids_ok (games : gmap string Z) (l : list string) (st : state) :
  Forall (fun m => is_Some (games !! m)) l ->
  exists r,
    with_ids games l st = (Return r, st)
    /\ r.*1 = l
    /\ Forall (fun c => games !! c.1 = Some c.2) r.
Proof.
  induction 1 as [|m l [v Hv] _ (r & Hr & Hnames & Hids)].
  - exists []. repeat split. constructor.
  - exists ((m, v) :: r). cbn [with_ids]. unfold subscript. rewrite Hv.
    unfold mbind, M_bind, mret, M_ret. rewrite Hr.
    split; [reflexivity|]. split; [cbn; congruence|]. constructor; assumption.
Qed.

Lemma get_app_list_result (st : state) :
  exists st', get_app_list st = (Return (games_cache (self st')), st').
Proof.
  destruct (decide (games_cache (self st) = ∅)) as [Hempty|Hne].
  - destruct (get_app_list_fetches st Hempty) as (games & st' & Hget & -> & _). eauto.
  - exists st. apply get_app_list_cached, Hne.
Qed.



(** The two catalog names close to a misspelt query, best first. *)
Example two_candidates :
  (find_game "Half-Lfe" cached_state).1
  = Return (CandidateSet [("half-life", 70); ("half-life 2", 220)]).
Proof. vm_compute. reflexivity. Qed.

(** A single name within the threshold is offered for confirmation. *)
Example single_hit_is_offered :
  (find_game "Portl" cached_state).1 = Return (CandidateSet [("portal", 400)]).
Proof. vm_compute. reflexivity. Qed.

(** An exact match, up to case, is resolved without fuzzy matching. *)
Example exact_match_is_resolved :
  (find_game "HALF-LIFE" cached_state).1 = Return (ResolvedId 70).
Proof. vm_compute. reflexivity. Qed.

(** ** The pipeline on a sample world

    On [serving_state] the name resolves to 220, the archive is fetched,
    unpacked and deleted, the script and the manifest reach their folders
    under their base names, and the staging directory is removed. *)

Example pipeline_resolves : resolved.1 = Return (ResolvedId 220).
Proof. vm_compute. reflexivity. Qed.

Example pipeline_downloads :
  downloaded.1 = Return true
  /\ nodes (outside downloaded.2) !! ["downloads"; "220.lua"] = Some (File "addappid(220)")
  /\ nodes (outside downloaded.2) !! ["downloads"; "depots"; "220.manifest"]
     = Some (File "depot 220")
  /\ nodes (outside downloaded.2) !! ["downloads"; "220.zip"] = None
  /\ requests (outside downloaded.2) = [catalog_url; archive_url 220].
Proof. repeat apply conj; vm_compute; reflexivity. Qed.

Example pipeline_installs :
  copied.1 = Return true
  /\ nodes (outside copied.2) !! (stplug steam_dir ++ ["220.lua"]) = Some (File "addappid(220)")
  /\ nodes (outside copied.2) !! (depotcache steam_dir ++ ["220.manifest"])
     = Some (File "depot 220")
  /\ nodes (outside copied.2) !! ["downloads"] = None
  /\ nodes (outside copied.2) !! ["downloads"; "220.lua"] = None.
Proof. repeat apply conj; vm_compute; reflexivity. Qed.

(** An id without an archive stops the pipeline at the download. *)
Example pipeline_missing_archive :
  (download_appid_zip 70 ["downloads"] true serving_state).1 = Return false
  /\ logged (outside (download_appid_zip 70 ["downloads"] true serving_state).2)
     = [downloading_line 70; no_data_line 70].
Proof. repeat apply conj; vm_compute; reflexivity. Qed.

(** * Further properties *)

(** ** Locating the companion tool and the installation root *)

Lemma rglob_nil (fs : gmap path node) (root : path) (matches : string -> bool) :
  Fs.rglob fs root matches = [] <->
  (Fs.is_dir fs root = true ->
   forall p, root `prefix_of` p -> p <> root -> matches (Fs.name p) = true -> fs !! p = None).
Proof.
  split.
  - intros Hnil Hdir p Hpre Hne Hm. destruct (fs !! p) as [n|] eqn:Hp; [|reflexivity].
    assert (p ∈ Fs.rglob fs root matches) as Hin.
    { unfold Fs.rglob. rewrite Hdir. apply list_elem_of_filter. split; [auto|].
      apply list_elem_of_fmap. exists (p, n). split; [reflexivity|].
      apply elem_of_map_to_list, Hp. }
    rewrite Hnil in Hin. apply elem_of_nil in Hin. contradiction.
  - intros Hnone. destruct (Fs.rglob fs root matches) as [|p l] eqn:E; [reflexivity|].
    assert (p ∈ Fs.rglob fs root matches) as Hin by (rewrite E; left).
    apply rglob_elem in Hin as (Hpre & Hne & _ & Hm & [n Hn] & Hdir).
    rewrite (Hnone Hdir p Hpre Hne Hm) in Hn. discriminate Hn.
Qed.

Lemma rglob_exe_nil (fs : gmap path node) (base : path) :
  Fs.rglob fs base (String.eqb "SteamTools.exe") = [] <-> ¬ holds_exe fs base.
Proof.
  rewrite rglob_nil. unfold holds_exe. split.
  - intros Hnone (Hdir & p & Hpre & Hne & Hname & [n Hn]).
    rewrite (Hnone Hdir p Hpre Hne) in Hn; [discriminate Hn|].
    apply String.eqb_eq. symmetry. exact Hname.
  - intros Hno Hdir p Hpre Hne Hm%String.eqb_eq.
    destruct (fs !! p) as [n|] eqn:Hp; [|reflexivity].
    contradiction Hno. split; [exact Hdir|]. exists p. rewrite Hp. eauto.
Qed.

Lemma first_exe_some (fs : gmap path node) (bases : list path) (exe : path) :
  first_exe fs bases = Some exe ->
  exists before base after,
    bases = before ++ base :: after
    /\ (forall b, b ∈ before -> ¬ holds_exe fs b)
    /\ Fs.is_dir fs base = true
    /\ base `prefix_of` exe /\ exe <> base
    /\ Fs.name exe = "SteamTools.exe"
    /\ is_Some (fs !! exe).
Proof.
  induction bases as [|b bases IH]; cbn [first_exe]; [discriminate|].
  destruct (Fs.rglob fs b (String.eqb "SteamTools.exe")) as [|hit hits] eqn:Hglob.
  - intros Hrest.
    assert (first_exe fs bases = Some exe) as Hrest' by (destruct (Fs.exists_ fs b); exact Hrest).
    destruct (IH Hrest') as (before & base & after & -> & Hbefore & Hfound).
    exists (b :: before), base, after. split; [reflexivity|]. split; [|exact Hfound].
    intros b' [->|Hb']%elem_of_cons; [apply rglob_exe_nil, Hglob|auto].
  - assert (hit ∈ Fs.rglob fs b (String.eqb "SteamTools.exe")) as Hin by (rewrite Hglob; left).
    apply rglob_elem in Hin as (Hpre & Hne & _ & Hname%String.eqb_eq & Hsome & Hdir).
    assert (Fs.exists_ fs b = true) as ->.
    { unfold Fs.exists_. unfold Fs.is_dir in Hdir. apply bool_decide_eq_true in Hdir.
      apply bool_decide_eq_true. rewrite Hdir. eauto. }
    intros [= <-]. exists [], b, bases. split; [reflexivity|].
    split; [intros b' Hb'; apply elem_of_nil in Hb'; contradiction|]. auto.
Qed.

Lemma first_exe_none (fs : gmap path node) (bases : list path) :
  first_exe fs bases = None <-> forall b, b ∈ bases -> ¬ holds_exe fs b.
Proof.
  induction bases as [|b bases IH]; cbn [first_exe].
  - split; [|reflexivity]. intros _ b Hb. apply elem_of_nil in Hb. contradiction.
  - destruct (Fs.rglob fs b (String.eqb "SteamTools.exe")) as [|hit hits] eqn:Hglob.
    + assert ((if Fs.exists_ fs b then first_exe fs bases else first_exe fs bases)
              = first_exe fs bases) as -> by (destruct (Fs.exists_ fs b); reflexivity).
      rewrite IH. split.
      * intros Hrest b' [->|Hb']%elem_of_cons; [apply rglob_exe_nil, Hglob|auto].
      * intros Hall b' Hb'. apply Hall. right. exact Hb'.
    + assert (holds_exe fs b) as Hholds.
      { assert (hit ∈ Fs.rglob fs b (String.eqb "SteamTools.exe")) as Hin
          by (rewrite Hglob; left).
        apply rglob_elem in Hin as (Hpre & Hne & _ & Hname%String.eqb_eq & Hsome & Hdir).
        split; [exact Hdir|]. exists hit. auto. }
      assert (Fs.exists_ fs b = true) as ->.
      { destruct Hholds as [Hdir _]. unfold Fs.exists_. unfold Fs.is_dir in Hdir.
        apply bool_decide_eq_true in Hdir. apply bool_decide_eq_true. rewrite Hdir. eauto. }
      split; [discriminate|]. intros Hall. destruct (Hall b); [left|exact Hholds].
Qed.

Lemma find_steamtools_exe_run (st : state) :
  find_steamtools_exe st
  = (Return (first_exe (nodes (outside st)) (common_paths (outside st))), st).
Proof. destruct st. reflexivity. Qed.

(** X1. When [find_steamtools_exe] returns a path, the path exists, is
    named [SteamTools.exe] and lies below one of the four conventional
    directories, none of the directories tried before it holds such an
    entry; the state is left as it was. *)
Theorem find_steamtools_exe_found (st : state) (exe : path) :
  (find_steamtools_exe st).1 = Return (Some exe) ->
  (find_steamtools_exe st).2 = st
  /\ exists before base after,
       common_paths (outside st) = before ++ base :: after
       /\ (forall b, b ∈ before -> ¬ holds_exe (nodes (outside st)) b)
       /\ Fs.is_dir (nodes (outside st)) base = true
       /\ base `prefix_of` exe /\ exe <> base
       /\ Fs.name exe = "SteamTools.exe"
       /\ is_Some (nodes (outside st) !! exe).
Proof.
  rewrite find_steamtools_exe_run. cbn [fst snd]. intros [= Hfound].
  split; [reflexivity|]. apply first_exe_some, Hfound.
Qed.

Lemma find_steamtools_exe_found_witness :
  (find_steamtools_exe late_install_state).2 = late_install_state
  /\ exists before base after,
       common_paths (outside late_install_state) = before ++ base :: after
       /\ (forall b, b ∈ before -> ¬ holds_exe (nodes (outside late_install_state)) b)
       /\ Fs.is_dir (nodes (outside late_install_state)) base = true
       /\ base `prefix_of` steamtools_dir ++ ["SteamTools.exe"]
       /\ steamtools_dir ++ ["SteamTools.exe"] <> base
       /\ Fs.name (steamtools_dir ++ ["SteamTools.exe"]) = "SteamTools.exe"
       /\ is_Some (nodes (outside late_install_state) !! (steamtools_dir ++ ["SteamTools.exe"])).
Proof.
  apply (find_steamtools_exe_found late_install_state (steamtools_dir ++ ["SteamTools.exe"])).
  vm_compute. reflexivity.
Defined.

(** X2. [find_steamtools_exe] returns [None] exactly when none of the four
    conventional directories is a directory holding, at any depth, an entry
    named [SteamTools.exe]. *)
Theorem find_steamtools_exe_missing (st : state) :
  (find_steamtools_exe st).1 = Return None <->
  forall b, b ∈ common_paths (outside st) -> ¬ holds_exe (nodes (outside st)) b.
Proof.
  rewrite find_steamtools_exe_run. cbn [fst]. split.
  - intros [= Hnone]. apply first_exe_none, Hnone.
  - intros Hall. f_equal. apply first_exe_none, Hall.
Qed.

Lemma find_first (f : path -> bool) (l : list path) (x : path) :
  List.find f l = Some x ->
  exists before after, l = before ++ x :: after /\ f x = true
                       /\ forall y, y ∈ before -> f y = false.
Proof.
  induction l as [|y l IH]; cbn [List.find]; [discriminate|].
  destruct (f y) eqn:Hy.
  - intros [= ->]. exists [], l. split; [reflexivity|]. split; [exact Hy|].
    intros z Hz. apply elem_of_nil in Hz. contradiction.
  - intros (before & after & -> & Hx & Hbefore)%IH.
    exists (y :: before), after. split; [reflexivity|]. split; [exact Hx|].
    intros z [->|Hz]%elem_of_cons; auto.
Qed.

(** X3. The installation root is probed until it is found and then
    remembered.  A folder returned by [find_steam_folder] is returned by
    every later call, whatever the file system has become, with no change of
    state; when it was not remembered before, it is the first of the four
    candidate paths that exists.  A failed probe changes nothing, so the
    next call probes again. *)
Theorem find_steam_folder_cache (st : state) :
  (forall folder,
     (find_steam_folder st).1 = Return (Some folder) ->
     outside (find_steam_folder st).2 = outside st
     /\ (forall w',
           find_steam_folder {| self := self (find_steam_folder st).2; outside := w' |}
           = (Return (Some folder), {| self := self (find_steam_folder st).2; outside := w' |}))
     /\ (_steam_folder (self st) = None ->
         exists before after,
           possible_paths (outside st) = before ++ folder :: after
           /\ Fs.exists_ (nodes (outside st)) folder = true
           /\ forall p, p ∈ before -> Fs.exists_ (nodes (outside st)) p = false))
  /\ ((find_steam_folder st).1 = Return None ->
      (find_steam_folder st).2 = st
      /\ forall p, p ∈ possible_paths (outside st) -> Fs.exists_ (nodes (outside st)) p = false).
Proof.
  destruct st as [[cache exe folder0] w].
  unfold find_steam_folder, mbind, M_bind, mret, M_ret, get_self, get_world, modify_self.
  cbn [self outside _steam_folder fst snd].
  destruct folder0 as [folder0|]; cbn [fst snd self outside].
  - split; [|discriminate]. intros folder [= <-].
    split; [reflexivity|]. split; [reflexivity|discriminate].
  - destruct (List.find (Fs.exists_ (nodes w)) (possible_paths w)) as [found|] eqn:Hfind.
    + cbn [fst snd self outside]. split; [|discriminate]. intros folder [= <-].
      split; [reflexivity|]. split; [reflexivity|]. intros _.
      destruct (find_first _ _ _ Hfind) as (before & after & Hsplit & Hx & Hbefore). eauto.
    + cbn [fst snd self outside]. split; [discriminate|]. intros _. split; [reflexivity|].
      intros p Hp%list_elem_of_In. apply (find_none _ _ Hfind p Hp).
Qed.

(** ** The catalog *)

Lemma build_cache_snoc (l : list (string * Z)) (app : string * Z) :
  build_cache (l ++ [app]) = <[Py.lower app.1 := app.2]> (build_cache l).
Proof. unfold build_cache. rewrite foldl_app. reflexivity. Qed.

Lemma catalog_key_lookup_aux (l : list (string * Z)) (key : string) :
  build_cache l !! key = snd <$> last (records_of key l).
Proof.
  induction l as [|app l IH] using rev_ind; [reflexivity|].
  rewrite build_cache_snoc. unfold records_of in *. rewrite filter_app.
  rewrite filter_cons, filter_nil.
  destruct (decide (Py.lower app.1 = key)) as [<-|Hne].
  - rewrite lookup_insert_eq, last_snoc. reflexivity.
  - rewrite lookup_insert_ne by exact Hne. rewrite app_nil_r. exact IH.
Qed.

(** X4. The cache built from the catalog maps a key to the id of the last
    record whose lowercased name is the key; a key that is the lowercased
    name of no record is absent, and the name of every record is found again
    under its lowercased form. *)
Theorem catalog_key_lookup (l : list (string * Z)) (key : string) :
  build_cache l !! key = snd <$> last (records_of key l)
  /\ (build_cache l !! key = None <-> forall app, app ∈ l -> Py.lower app.1 <> key)
  /\ (forall app, app ∈ l -> is_Some (build_cache l !! Py.lower app.1)).
Proof.
  split; [apply catalog_key_lookup_aux|].
  assert (forall k, build_cache l !! k = None <-> records_of k l = []) as Hnone.
  { intros k. rewrite catalog_key_lookup_aux.
    destruct (records_of k l) as [|a t] eqn:E using rev_ind; [tauto|].
    rewrite last_snoc. cbn. split; [discriminate|].
    intros Hnil. apply app_eq_nil in Hnil as [_ Hnil]. discriminate Hnil. }
  split.
  - rewrite Hnone. unfold records_of. split.
    + intros Hnil app Hin Hkey.
      assert (app ∈ filter (fun app => Py.lower app.1 = key) l) as Hf
        by (apply list_elem_of_filter; auto).
      rewrite Hnil in Hf. apply elem_of_nil in Hf. contradiction.
    + intros Hall. destruct (filter _ l) as [|a t] eqn:E; [reflexivity|].
      assert (a ∈ filter (fun app => Py.lower app.1 = key) l) as Hf by (rewrite E; left).
      apply list_elem_of_filter in Hf as [Hkey Hin]. destruct (Hall a Hin Hkey).
  - intros app Hin. destruct (build_cache l !! Py.lower app.1) eqn:E; [eauto|].
    apply Hnone in E. unfold records_of in E.
    assert (app ∈ filter (fun a => Py.lower a.1 = Py.lower app.1) l) as Hf
      by (apply list_elem_of_filter; auto).
    rewrite E in Hf. apply elem_of_nil in Hf. contradiction.
Qed.

Lemma get_app_list_success (st : state) (r : response) (l : list (string * Z)) :
  games_cache (self st) = ∅ ->
  net (outside st) (length (requests (outside st))) catalog_url = Responded r ->
  apps r = Some l ->
  get_app_list st
  = (Return (build_cache l),
     {| self := set_games_cache (build_cache l) (self st);
        outside := add_request catalog_url (outside st) |}).
Proof.
  intros Hempty Hnet Happs. destruct st as [d w]. cbn [self outside] in *.
  unfold get_app_list, catalog_url in *. monad_unfold.
  rewrite bool_decide_eq_true_2 by exact Hempty. rewrite Hnet, Happs. reflexivity.
Qed.

Lemma lookup_by_name_exact `{SequenceMatcher} (query : string) (st st' : state)
    (games : gmap string Z) (app_id : Z) :
  get_app_list st = (Return games, st') ->
  games !! Py.lower query = Some app_id ->
  lookup_by_name query st = (Return (ResolvedId app_id), st').
Proof.
  intros Hget Hhit. unfold lookup_by_name. rewrite (bind_return _ _ _ _ _ Hget).
  rewrite bool_decide_eq_false_2.
  - rewrite Hhit. reflexivity.
  - intros ->. rewrite lookup_empty in Hhit. discriminate Hhit.
Qed.

(** X5. An exact match comes first: when the lowercased free-text query is
    a key of the cached catalog, [find_game] returns the id stored under it,
    sends no request and leaves the state as it was, whatever names are
    close to the query. *)
Theorem exact_match_first `{SequenceMatcher} (query : string) (st : state) (app_id : Z) :
  free_text query ->
  games_cache (self st) !! Py.lower query = Some app_id ->
  find_game query st = (Return (ResolvedId app_id), st).
Proof.
  intros [Hurl Hdig] Hhit. unfold find_game. rewrite Hurl, Hdig.
  apply lookup_by_name_exact with (games := games_cache (self st)); [|exact Hhit].
  apply get_app_list_cached. intros Hempty. rewrite Hempty, lookup_empty in Hhit.
  discriminate Hhit.
Qed.

Lemma exact_match_first_witness :
  find_game "HALF-LIFE 2" cached_state = (Return (ResolvedId 220), cached_state).
Proof.
  apply (exact_match_first "HALF-LIFE 2" cached_state 220).
  - split; reflexivity.
  - by_compute.
Defined.

(** X6. The first free-text lookup fetches the catalog once; when the
    catalog holds a record whose name equals the query up to case, the
    lookup returns the id of the last such record and stores the whole
    catalog, and the same lookup repeated returns the same id with no
    further request. *)
Theorem fetch_then_resolve `{SequenceMatcher} (query : string) (st : state) (r : response)
    (l : list (string * Z)) (name : string) (app_id : Z) :
  free_text query ->
  games_cache (self st) = ∅ ->
  net (outside st) (length (requests (outside st))) catalog_url = Responded r ->
  apps r = Some l ->
  last (records_of (Py.lower query) l) = Some (name, app_id) ->
  (find_game query st).1 = Return (ResolvedId app_id)
  /\ games_cache (self (find_game query st).2) = build_cache l
  /\ requests (outside (find_game query st).2) = requests (outside st) ++ [catalog_url]
  /\ find_game query (find_game query st).2
     = (Return (ResolvedId app_id), (find_game query st).2).
Proof.
  intros [Hurl Hdig] Hempty Hnet Happs Hlast.
  assert (build_cache l !! Py.lower query = Some app_id) as Hhit
    by (rewrite catalog_key_lookup_aux, Hlast; reflexivity).
  pose proof (get_app_list_success st r l Hempty Hnet Happs) as Hget.
  assert (find_game query st
          = (Return (ResolvedId app_id),
             {| self := set_games_cache (build_cache l) (self st);
                outside := add_request catalog_url (outside st) |})) as Hfirst.
  { unfold find_game. rewrite Hurl, Hdig.
    apply (lookup_by_name_exact query st _ (build_cache l) app_id Hget Hhit). }
  rewrite Hfirst. cbn [fst snd self outside games_cache set_games_cache requests add_request].
  repeat split.
  unfold find_game. rewrite Hurl, Hdig.
  apply lookup_by_name_exact with (games := build_cache l); [|exact Hhit].
  apply get_app_list_cached. cbn [self games_cache set_games_cache].
  intros Hnil. rewrite Hnil, lookup_empty in Hhit. discriminate Hhit.
Qed.

Lemma fetch_then_resolve_witness :
  (find_game "half-life 2" serving_state).1 = Return (ResolvedId 220)
  /\ games_cache (self (find_game "half-life 2" serving_state).2)
     = build_cache [("Half-Life", 70); ("Half-Life 2", 220); ("Portal", 400)]
  /\ requests (outside (find_game "half-life 2" serving_state).2)
     = requests (outside serving_state) ++ [catalog_url]
  /\ find_game "half-life 2" (find_game "half-life 2" serving_state).2
     = (Return (ResolvedId 220), (find_game "half-life 2" serving_state).2).
Proof.
  apply (fetch_then_resolve "half-life 2" serving_state half_life_catalog
           [("Half-Life", 70); ("Half-Life 2", 220); ("Portal", 400)] "Half-Life 2" 220).
  - split; reflexivity.
  - reflexivity.
  - reflexivity.
  - reflexivity.
  - vm_compute. reflexivity.
Defined.

(** X7. A query that passes [isdigit] and holds a character that is not a
    decimal digit (a superscript digit) makes [find_game] raise the
    [ValueError] of [int]; no request is sent and the state is as before. *)
Theorem find_game_digit_not_decimal `{SequenceMatcher} (s : string) (st : state) :
  Py.isdigit s = true ->
  Py.all_chars Py.is_decimal s = false ->
  exists msg, find_game s st = (Raise (Exn "ValueError" msg), st).
Proof.
  intros Hdig Hdec. destruct (find_game_isdigit s st Hdig) as [-> _].
  assert (Py.int s = None) as Hint.
  { unfold Py.int. destruct (Z.ltb _ _); [reflexivity|].
    destruct s as [|c s]; [reflexivity|]. rewrite Hdec. reflexivity. }
  unfold py_int. rewrite Hint. eexists. reflexivity.
Qed.

Lemma find_game_digit_not_decimal_witness :
  exists msg,
    find_game ("4" +:+ String (ascii_of_N 178) "") offline_state
    = (Raise (Exn "ValueError" msg), offline_state).
Proof.
  apply (find_game_digit_not_decimal ("4" +:+ String (ascii_of_N 178) "") offline_state);
    reflexivity.
Defined.

(** ** The order of the candidates *)

Lemma scored_gtb_true (q p : Q * string) : scored_gtb q p = true -> (p.1 <= q.1)%Q.
Proof.
  unfold scored_gtb. destruct (q.1 ?= p.1)%Q eqn:E; [| discriminate |].
  - intros _. apply Qeq_alt in E. apply Qle_lteq. right. symmetry. exact E.
  - intros _. apply Qgt_alt in E. apply Qlt_le_weak, E.
Qed.

Lemma scored_gtb_false (q p : Q * string) : scored_gtb q p = false -> (q.1 <= p.1)%Q.
Proof.
  unfold scored_gtb. intros Hf. apply Qle_alt. intros E. rewrite E in Hf. discriminate Hf.
Qed.

Lemma insert_desc_descending (p : Q * string) (l : list (Q * string)) :
  descending l -> descending (insert_desc p l).
Proof.
  induction l as [|q l IH]; cbn [insert_desc descending].
  - intros _. split; [constructor|exact I].
  - intros [Hq Hl]. destruct (scored_gtb q p) eqn:E; cbn [descending].
    + split; [|auto]. apply Forall_forall. intros x [->|Hx]%insert_desc_elem.
      * apply scored_gtb_true, E.
      * rewrite Forall_forall in Hq. auto.
    + split; [|split; assumption]. constructor; [apply scored_gtb_false, E|].
      apply Forall_forall. intros x Hx. rewrite Forall_forall in Hq.
      eapply Qle_trans; [apply Hq, Hx|apply scored_gtb_false, E].
Qed.

Lemma sort_desc_descending (l : list (Q * string)) : descending (sort_desc l).
Proof.
  unfold sort_desc. induction l as [|p l IH]; cbn [foldr]; [exact I|].
  apply insert_desc_descending, IH.
Qed.

Lemma descending_app (l k : list (Q * string)) (p q : Q * string) :
  descending (l ++ k) -> p ∈ l -> q ∈ k -> (q.1 <= p.1)%Q.
Proof.
  induction l as [|x l IH]; cbn [app descending];
    [intros _ Hp; apply elem_of_nil in Hp; contradiction|].
  intros [Hx Hrest] [->|Hp]%elem_of_cons Hq; [|auto].
  rewrite Forall_forall in Hx. apply Hx. rewrite elem_of_app. right. exact Hq.
Qed.

Lemma descending_lookup (l : list (Q * string)) (i j : nat) (p q : Q * string) :
  descending l -> (i < j)%nat -> l !! i = Some p -> l !! j = Some q -> (q.1 <= p.1)%Q.
Proof.
  intros Hdesc Hij Hp Hq.
  rewrite <- (take_drop j l) in Hdesc.
  apply (descending_app _ _ p q Hdesc).
  - apply list_elem_of_lookup. exists i. rewrite lookup_take_lt by exact Hij. exact Hp.
  - apply list_elem_of_lookup. exists 0%nat. rewrite lookup_drop, Nat.add_0_r. exact Hq.
Qed.

Lemma insert_desc_NoDup (p : Q * string) (l : list (Q * string)) :
  p ∉ l -> NoDup l -> NoDup (insert_desc p l).
Proof.
  induction l as [|q l IH]; cbn [insert_desc]; intros Hp Hl.
  - apply NoDup_singleton.
  - apply not_elem_of_cons in Hp as [Hpq Hp]. apply NoDup_cons in Hl as [Hq Hl].
    destruct (scored_gtb q p).
    + apply NoDup_cons. split; [|auto]. rewrite insert_desc_elem. intros [->|Hin]; auto.
    + apply NoDup_cons. split; [|apply NoDup_cons; auto].
      apply not_elem_of_cons. auto.
Qed.

Lemma sort_desc_NoDup (l : list (Q * string)) : NoDup l -> NoDup (sort_desc l).
Proof.
  unfold sort_desc. induction 1 as [|p l Hp Hl IH]; cbn [foldr]; [constructor|].
  apply insert_desc_NoDup; [|exact IH]. fold (sort_desc l). rewrite sort_desc_elem. exact Hp.
Qed.

Section ranking.
Context `{SequenceMatcher}.
Variables (word : string) (possibilities : list string) (n : nat) (cutoff : Q).

Local Abbreviation scored :=
  ((fun x => (ratio x word, x)) <$> filter (fun x => close_enough cutoff word x = true) possibilities).

Lemma scored_elem (p : Q * string) : p ∈ nlargest n scored -> p = (ratio p.2 word, p.2).
Proof.
  intros Hp%nlargest_elem. apply list_elem_of_fmap in Hp as (x & -> & _). reflexivity.
Qed.

(** The names come best first. *)
Lemma get_close_matches_sorted (i j : nat) (x y : string) :
  (i < j)%nat ->
  get_close_matches word possibilities n cutoff !! i = Some x ->
  get_close_matches word possibilities n cutoff !! j = Some y ->
  (ratio y word <= ratio x word)%Q.
Proof.
  unfold get_close_matches. rewrite !list_lookup_fmap. intros Hij Hx Hy.
  destruct (nlargest n scored !! i) as [p|] eqn:Hp; [|discriminate Hx].
  destruct (nlargest n scored !! j) as [q|] eqn:Hq; [|discriminate Hy].
  cbn in Hx, Hy. injection Hx as <-. injection Hy as <-.
  assert (p ∈ nlargest n scored) as Hpin by (apply list_elem_of_lookup; eauto).
  assert (q ∈ nlargest n scored) as Hqin by (apply list_elem_of_lookup; eauto).
  unfold nlargest in Hp, Hq.
  assert ((i < n)%nat /\ (j < n)%nat) as [Hi Hj].
  { apply lookup_lt_Some in Hq. rewrite length_take in Hq. lia. }
  rewrite lookup_take_lt in Hp, Hq by assumption.
  pose proof (descending_lookup _ i j p q (sort_desc_descending scored) Hij Hp Hq) as Hle.
  rewrite (scored_elem p Hpin), (scored_elem q Hqin) in Hle. exact Hle.
Qed.

(** A name that passes the tests and is left out is no closer than any
    name returned, and [n] names are returned. *)
Lemma get_close_matches_best (x y : string) :
  x ∈ possibilities ->
  close_enough cutoff word x = true ->
  x ∉ get_close_matches word possibilities n cutoff ->
  length (get_close_matches word possibilities n cutoff) = n
  /\ (y ∈ get_close_matches word possibilities n cutoff -> (ratio x word <= ratio y word)%Q).
Proof.
  unfold get_close_matches, nlargest. intros Hx Hclose Hout.
  assert ((ratio x word, x) ∈ sort_desc scored) as Hin.
  { apply sort_desc_elem, list_elem_of_fmap. exists x. split; [reflexivity|].
    apply list_elem_of_filter. auto. }
  rewrite <- (take_drop n (sort_desc scored)) in Hin.
  apply elem_of_app in Hin as [Hin|Hin].
  { contradiction Hout. apply list_elem_of_fmap. exists (ratio x word, x). auto. }
  split.
  - rewrite length_fmap, length_take. apply list_elem_of_lookup in Hin as [k Hk].
    apply lookup_lt_Some in Hk. rewrite length_drop in Hk. lia.
  - intros ([r y'] & -> & Hy)%list_elem_of_fmap.
    pose proof (sort_desc_descending scored) as Hdesc.
    rewrite <- (take_drop n (sort_desc scored)) in Hdesc.
    pose proof (descending_app _ _ _ _ Hdesc Hy Hin) as Hle.
    rewrite (scored_elem (r, y') Hy) in Hle. exact Hle.
Qed.

(** No name is returned twice when no possibility is listed twice. *)
Lemma get_close_matches_NoDup :
  NoDup possibilities -> NoDup (get_close_matches word possibilities n cutoff).
Proof.
  intros Hnd. unfold get_close_matches.
  apply NoDup_fmap_2_strong.
  - intros p q Hp%scored_elem Hq%scored_elem Heq. rewrite Hp, Hq, Heq. reflexivity.
  - unfold nlargest. eapply sublist_NoDup; [|apply sublist_take].
    apply sort_desc_NoDup. apply NoDup_fmap_2_strong; [|apply NoDup_filter, Hnd].
    intros a b _ _ [= _ ->]. reflexivity.
Qed.

End ranking.

(** The candidates of [find_game] are the names [get_close_matches]
    returns on the keys of the cache, each with the id stored under it. *)
Lemma find_game_candidates `{SequenceMatcher} (query : string) (st : state)
    (l : list (string * Z)) :
  free_text query ->
  (find_game query st).1 = Return (CandidateSet l) ->
  l.*1 = get_close_matches (Py.lower query)
           (map_to_list (games_cache (self (find_game query st).2))).*1 5 (7 # 10)
  /\ Forall (fun c => games_cache (self (find_game query st).2) !! c.1 = Some c.2) l.
Proof.
  intros [Hurl Hdig]. unfold find_game. rewrite Hurl, Hdig.
  destruct (get_app_list_result st) as [st' Hget].
  assert ((lookup_by_name query st).2 = st') as Hst
    by (rewrite lookup_by_name_state, Hget; reflexivity).
  rewrite Hst. clear Hst.
  unfold lookup_by_name. rewrite (bind_return _ _ _ _ _ Hget).
  set (games := games_cache (self st')) in *.
  case_bool_decide as Hempty; [discriminate|].
  destruct (games !! Py.lower query); [discriminate|].
  destruct (get_close_matches _ _ _ _) as [|m ms] eqn:Hm; [discriminate|].
  destruct (with_ids_ok games (m :: ms) st') as (r & Hr & Hnames & Hids).
  { apply Forall_forall. intros x Hx. rewrite <- Hm in Hx.
    apply get_close_matches_elem in Hx as [Hx _].
    apply list_elem_of_fmap in Hx as ([k v] & -> & Hkv%elem_of_map_to_list). eauto. }
  rewrite (bind_return _ _ _ _ _ Hr). cbn [fst]. intros [= <-]. auto.
Qed.

(** X8. The candidates of a free-text lookup come best first, and they are
    the best: the similarity ratio never increases along the list, and a
    catalog name that passes the threshold tests and is not listed is no
    closer to the query than any listed name, the list then holding five. *)
Theorem candidates_best_first `{SequenceMatcher} (query : string) (st : state)
    (l : list (string * Z)) :
  free_text query ->
  (find_game query st).1 = Return (CandidateSet l) ->
  (forall i j c1 c2,
     (i < j)%nat -> l !! i = Some c1 -> l !! j = Some c2 ->
     (ratio c2.1 (Py.lower query) <= ratio c1.1 (Py.lower query))%Q)
  /\ (forall name,
        is_Some (games_cache (self (find_game query st).2) !! name) ->
        close_enough (7 # 10) (Py.lower query) name = true ->
        name ∉ l.*1 ->
        length l = 5%nat
        /\ forall c, c ∈ l ->
             (ratio name (Py.lower query) <= ratio c.1 (Py.lower query))%Q).
Proof.
  intros Hfree Hres. destruct (find_game_candidates query st l Hfree Hres) as [Hnames _].
  split.
  - intros i j c1 c2 Hij H1 H2.
    apply (get_close_matches_sorted (Py.lower query)
             (map_to_list (games_cache (self (find_game query st).2))).*1 5 (7 # 10) i j);
      [exact Hij| |]; rewrite <- Hnames, list_lookup_fmap.
    + rewrite H1. reflexivity.
    + rewrite H2. reflexivity.
  - intros name [v Hv] Hclose Hout.
    assert (name ∈ (map_to_list (games_cache (self (find_game query st).2))).*1) as Hkey.
    { apply list_elem_of_fmap. exists (name, v). split; [reflexivity|].
      apply elem_of_map_to_list, Hv. }
    rewrite Hnames in Hout. split.
    + rewrite <- (length_fmap fst), Hnames.
      apply (get_close_matches_best _ _ _ _ name name Hkey Hclose Hout).
    + intros c Hc.
      apply (get_close_matches_best _ _ _ _ name c.1 Hkey Hclose Hout).
      rewrite <- Hnames. apply list_elem_of_fmap. eauto.
Qed.

Lemma candidates_best_first_witness :
  (forall i j c1 c2,
     (i < j)%nat ->
     [("half-life", 70); ("half-life 2", 220)] !! i = Some c1 ->
     [("half-life", 70); ("half-life 2", 220)] !! j = Some c2 ->
     (ratio c2.1 (Py.lower "Half-Lfe") <= ratio c1.1 (Py.lower "Half-Lfe"))%Q)
  /\ (forall name,
        is_Some (games_cache (self (find_game "Half-Lfe" cached_state).2) !! name) ->
        close_enough (7 # 10) (Py.lower "Half-Lfe") name = true ->
        name ∉ [("half-life", 70); ("half-life 2", 220)].*1 ->
        length [("half-life", 70); ("half-life 2", 220)] = 5%nat
        /\ forall c, c ∈ [("half-life", 70); ("half-life 2", 220)] ->
             (ratio name (Py.lower "Half-Lfe") <= ratio c.1 (Py.lower "Half-Lfe"))%Q).
Proof.
  apply (candidates_best_first "Half-Lfe" cached_state).
  - split; reflexivity.
  - vm_compute. reflexivity.
Defined.

(** X9. No catalog name is offered twice, and every candidate carries the
    id the catalog stores under its name. *)
Theorem candidates_distinct `{SequenceMatcher} (query : string) (st : state)
    (l : list (string * Z)) :
  free_text query ->
  (find_game query st).1 = Return (CandidateSet l) ->
  NoDup l.*1
  /\ Forall (fun c => games_cache (self (find_game query st).2) !! c.1 = Some c.2) l.
Proof.
  intros Hfree Hres. destruct (find_game_candidates query st l Hfree Hres) as [Hnames Hids].
  split; [|exact Hids]. rewrite Hnames.
  apply get_close_matches_NoDup, NoDup_fst_map_to_list.
Qed.

Lemma candidates_distinct_witness :
  NoDup [("half-life", 70); ("half-life 2", 220)].*1
  /\ Forall (fun c => games_cache (self (find_game "Half-Lfe" cached_state).2) !! c.1 = Some c.2)
            [("half-life", 70); ("half-life 2", 220)].
Proof.
  apply (candidates_distinct "Half-Lfe" cached_state).
  - split; reflexivity.
  - vm_compute. reflexivity.
Defined.

(** ** Downloading *)

Lemma try_except_returns {A : Type} (body : M A) (handler : exn -> M A) (s : state) :
  (forall e s', exists a s'', handler e s' = (Return a, s'')) ->
  exists a s'', try_except body handler s = (Return a, s'').
Proof.
  intros Hh. unfold try_except. destruct (body s) as [[a|e] s']; eauto.
Qed.

(** The state in which the [try] block of [download_appid_zip] starts. *)
Lemma download_prologue (app_id : Z) (output_dir : path) (log_callback : bool) (st : state)
    (fs' : gmap path node) (k : unit -> M bool) :
  Fs.mkdir_p (nodes (outside st)) output_dir = Some fs' ->
  (log log_callback (downloading_line app_id) ≫= fun _ =>
   fs_op output_dir (fun fs _ => Fs.mkdir_p fs output_dir) ≫= k) st
  = k tt {| self := self st;
            outside := set_nodes (fun _ => fs')
                         (log_world log_callback (downloading_line app_id) (outside st)) |}.
Proof.
  intros Hmk. destruct st as [d w]. cbn [self outside] in *.
  unfold log_world, mbind, M_bind, log, fs_op, modify_world, mret, M_ret. cbn [self outside].
  destruct log_callback; cbn [self outside nodes denied add_logged]; rewrite Hmk; reflexivity.
Qed.

Lemma download_raises_only_for_directory_aux (app_id : Z) (output_dir : path)
    (log_callback : bool) (st : state) :
  Fs.mkdir_p (nodes (outside st)) output_dir = None ->
  exists e, (download_appid_zip app_id output_dir log_callback st).1 = Raise e.
Proof.
  intros Hmk. destruct st as [d w]. cbn [self outside] in *.
  unfold download_appid_zip, mbind, M_bind, log, fs_op, modify_world, mret, M_ret.
  destruct log_callback; cbn [self outside nodes denied add_logged]; rewrite Hmk;
    cbn [fst]; eauto.
Qed.

(** X10. The only exception [download_appid_zip] lets out is the one of
    creating the destination directory, raised before any request is sent
    and with the file system untouched; once the directory is there, every
    failure is turned into the result [False]. *)
Theorem download_raises_only_for_directory (app_id : Z) (output_dir : path)
    (log_callback : bool) (st : state) :
  (forall fs', Fs.mkdir_p (nodes (outside st)) output_dir = Some fs' ->
     exists b, (download_appid_zip app_id output_dir log_callback st).1 = Return b)
  /\ (Fs.mkdir_p (nodes (outside st)) output_dir = None ->
      (exists e, (download_appid_zip app_id output_dir log_callback st).1 = Raise e)
      /\ requests (outside (download_appid_zip app_id output_dir log_callback st).2)
         = requests (outside st)
      /\ nodes (outside (download_appid_zip app_id output_dir log_callback st).2)
         = nodes (outside st)).
Proof.
  split.
  - intros fs' Hmk. unfold download_appid_zip.
    rewrite (download_prologue _ _ _ _ fs' _ Hmk).
    match goal with
    | |- context [try_except ?body ?handler ?s] =>
        destruct (try_except_returns body handler s) as (b & s'' & ->)
    end.
    + intros e s'. destruct s' as [d w]. destruct log_callback; eexists _, _; reflexivity.
    + eauto.
  - intros Hmk. destruct st as [d w]. cbn [self outside] in *.
    unfold download_appid_zip, mbind, M_bind, log, fs_op, modify_world, mret, M_ret.
    destruct log_callback; cbn [self outside nodes denied add_logged]; rewrite Hmk;
      cbn [fst snd self outside nodes requests add_logged]; eauto.
Qed.

(** X11. An error status other than 404 (400 to 599) makes
    [download_appid_zip] return [False] after one request, with the text of
    the [HTTPError] of [raise_for_status] passed to the callback; no file
    is written: the file system is the one the creation of the directory
    left. *)
Theorem download_http_error (app_id : Z) (output_dir : path) (log_callback : bool)
    (st : state) (r : response) (fs' : gmap path node) :
  Fs.mkdir_p (nodes (outside st)) output_dir = Some fs' ->
  net (outside st) (length (requests (outside st))) (archive_url app_id) = Responded r ->
  400 <= status_code r < 600 ->
  status_code r <> 404 ->
  download_appid_zip app_id output_dir log_callback st
  = (Return false,
     {| self := self st;
        outside :=
          log_world log_callback
            ("Error during download/extraction: " +:+ http_error_msg r)
            (add_request (archive_url app_id)
               (set_nodes (fun _ => fs')
                  (log_world log_callback (downloading_line app_id) (outside st)))) |}).
Proof.
  intros Hmk Hnet Hrange H404. unfold download_appid_zip.
  rewrite (download_prologue _ _ _ _ fs' _ Hmk).
  destruct st as [d w]. cbn [self outside] in *.
  unfold log_world, raise_for_status. monad_unfold.
  destruct log_callback; cbn [nodes denied requests net add_logged set_nodes];
    rewrite Hnet; rewrite (bool_decide_eq_false_2 _ H404);
    rewrite (bool_decide_eq_true_2 _ Hrange); reflexivity.
Qed.

Lemma download_http_error_witness :
  download_appid_zip 440 ["downloads"] true (archive_state 500)
  = (Return false,
     {| self := self (archive_state 500);
        outside :=
          log_world true
            ("Error during download/extraction: 500 Server Error: Internal Server Error "
             +:+ "for url: https://pub-5b6d3b7c03fd4ac1afb5bd3017850e20.r2.dev/440.zip")
            (add_request (archive_url 440)
               (set_nodes (fun _ => {[ ["downloads"] := Dir ]})
                  (log_world true (downloading_line 440) (outside (archive_state 500))))) |}).
Proof.
  apply (download_http_error 440 ["downloads"] true (archive_state 500)
           (plain_response 500 (archive_url 440))
           {[ ["downloads"] := Dir ]}).
  - by_compute.
  - reflexivity.
  - cbn. lia.
  - discriminate.
Defined.

(** X12. When the body was written and the stream then breaks, or the
    file written is no archive, [download_appid_zip] returns [False] and the
    file stays in the destination directory under the name [<id>.zip] with
    what was received. *)
Theorem download_leaves_archive (app_id : Z) (output_dir : path) (log_callback : bool)
    (st : state) (r : response) (fs' fs'' : gmap path node) :
  Fs.mkdir_p (nodes (outside st)) output_dir = Some fs' ->
  net (outside st) (length (requests (outside st))) (archive_url app_id) = Responded r ->
  ¬ (400 <= status_code r < 600) ->
  Fs.write_file fs' (denied (outside st)) (output_dir ++ [pretty app_id +:+ ".zip"])
    (String.concat "" (chunks r)) = Some fs'' ->
  complete r = false \/ unzip (outside st) (String.concat "" (chunks r)) = None ->
  (download_appid_zip app_id output_dir log_callback st).1 = Return false
  /\ nodes (outside (download_appid_zip app_id output_dir log_callback st).2) = fs''
  /\ fs'' !! (output_dir ++ [pretty app_id +:+ ".zip"])
     = Some (File (String.concat "" (chunks r))).
Proof.
  intros Hmk Hnet Hrange Hwrite Hbad.
  assert (status_code r <> 404) as H404 by lia.
  pose proof Hwrite as (Hfs'' & Hne & _)%write_file_spec.
  assert (fs'' !! (output_dir ++ [pretty app_id +:+ ".zip"])
          = Some (File (String.concat "" (chunks r)))) as Hzip
    by (rewrite Hfs''; apply lookup_insert_eq).
  unfold download_appid_zip. rewrite (download_prologue _ _ _ _ fs' _ Hmk).
  destruct st as [d w]. cbn [self outside] in *.
  unfold log_world, raise_for_status, write_stream, extractall. monad_unfold.
  assert (forall x : world, (if log_callback then add_logged (downloading_line app_id) x else x)
            = log_world log_callback (downloading_line app_id) x) as Hfold by reflexivity.
  destruct log_callback; cbn [nodes denied requests net unzip add_logged set_nodes add_request];
    rewrite Hnet; rewrite (bool_decide_eq_false_2 _ H404);
    rewrite (bool_decide_eq_false_2 _ Hrange);
    cbn [nodes denied requests net unzip add_logged set_nodes add_request];
    rewrite Hwrite;
    (destruct (complete r) eqn:Hc;
     [ destruct Hbad as [Hbad|Hbad]; [discriminate Hbad|];
       cbn [self outside nodes denied requests net unzip add_logged set_nodes add_request];
       rewrite (lookup_nonroot _ _ Hne), Hzip, Hbad
     | ]);
    cbn [fst snd self nodes outside add_logged set_nodes add_request]; auto.
Qed.

Lemma download_leaves_archive_witness :
  (download_appid_zip 440 ["downloads"] true (archive_state 200)).1 = Return false
  /\ nodes (outside (download_appid_zip 440 ["downloads"] true (archive_state 200)).2)
     = <[ ["downloads"; "440.zip"] := File "" ]> {[ ["downloads"] := Dir ]}
  /\ (<[ ["downloads"; "440.zip"] := File "" ]> {[ ["downloads"] := Dir ]} : gmap path node)
     !! (["downloads"] ++ [pretty 440 +:+ ".zip"]) = Some (File (String.concat "" [])).
Proof.
  apply (download_leaves_archive 440 ["downloads"] true (archive_state 200)
           (plain_response 200 (archive_url 440))
           {[ ["downloads"] := Dir ]}).
  - by_compute.
  - reflexivity.
  - cbn. lia.
  - by_compute.
  - right. reflexivity.
Defined.

(** X13. When [download_appid_zip] returns [True], the archive file is no
    longer in the destination directory, exactly one request was sent, and
    its answer was complete and carried no error status. *)
Theorem download_success_removes_archive (app_id : Z) (output_dir : path)
    (log_callback : bool) (st : state) :
  (download_appid_zip app_id output_dir log_callback st).1 = Return true ->
  nodes (outside (download_appid_zip app_id output_dir log_callback st).2)
    !! (output_dir ++ [pretty app_id +:+ ".zip"]) = None
  /\ requests (outside (download_appid_zip app_id output_dir log_callback st).2)
     = requests (outside st) ++ [archive_url app_id]
  /\ exists r,
       net (outside st) (length (requests (outside st))) (archive_url app_id) = Responded r
       /\ ¬ (400 <= status_code r < 600)
       /\ complete r = true.
Proof.
  destruct (Fs.mkdir_p (nodes (outside st)) output_dir) as [fs'|] eqn:Hmk.
  2:{ intros Htrue.
      destruct (download_raises_only_for_directory_aux app_id output_dir log_callback st Hmk)
        as [e He]. rewrite He in Htrue. discriminate Htrue. }
  unfold download_appid_zip. rewrite (download_prologue _ _ _ _ fs' _ Hmk).
  destruct st as [d w]. cbn [self outside] in *.
  unfold log_world, raise_for_status, write_stream, extractall. monad_unfold.
  set (zip := output_dir ++ [pretty app_id +:+ ".zip"]).
  destruct log_callback;
    cbn [self outside nodes denied requests net unzip add_logged set_nodes add_request];
    (destruct (net w (length (requests w)) (archive_url app_id)) as [msg|r] eqn:Hnet;
     [cbn; discriminate|]);
    (case_bool_decide as H404; [cbn; discriminate|]);
    (case_bool_decide as Hrange; [cbn; discriminate|]);
    cbn [self outside nodes denied requests net unzip add_logged set_nodes add_request];
    (destruct (Fs.write_file fs' (denied w) zip (String.concat "" (chunks r)))
       as [fs''|] eqn:Hwrite; [|cbn; discriminate]);
    (destruct (complete r) eqn:Hc; [|cbn; discriminate]);
    cbn [self outside nodes denied requests net unzip add_logged set_nodes add_request];
    (destruct (Fs.lookup fs'' zip) as [[data|]|] eqn:Hlook; try (cbn; discriminate));
    (destruct (unzip w data) as [entries|] eqn:Hunzip; [|cbn; discriminate]);
    (destruct (Fs.extract fs'' (denied w) output_dir entries) as [fs3 ok] eqn:Hex);
    cbn [self outside nodes denied requests net unzip add_logged set_nodes add_request];
    (destruct ok; [|cbn; discriminate]);
    cbn [self outside nodes denied requests net unzip add_logged set_nodes add_request];
    (destruct (Fs.unlink fs3 zip) as [fs4|] eqn:Hun; [|cbn; discriminate]);
    cbn [fst snd self outside nodes denied requests net unzip add_logged set_nodes add_request];
    intros _;
    (split; [|split; [reflexivity|exists r; auto]]);
    unfold Fs.unlink in Hun;
    (destruct (Fs.lookup fs3 zip) as [[data'|]|]; try discriminate Hun);
    injection Hun as <-; apply lookup_delete_eq.
Qed.

Lemma download_success_removes_archive_witness :
  nodes (outside (download_appid_zip 220 ["downloads"] true resolved.2).2)
    !! (["downloads"] ++ [pretty 220 +:+ ".zip"]) = None
  /\ requests (outside (download_appid_zip 220 ["downloads"] true resolved.2).2)
     = requests (outside resolved.2) ++ [archive_url 220]
  /\ exists r,
       net (outside resolved.2) (length (requests (outside resolved.2))) (archive_url 220)
       = Responded r
       /\ ¬ (400 <= status_code r < 600)
       /\ complete r = true.
Proof.
  apply (download_success_removes_archive 220 ["downloads"] true resolved.2).
  vm_compute. reflexivity.
Defined.

(** ** More on the installer *)

Lemma log_step (log_callback : bool) (line : string) (s : state) :
  log log_callback line s
  = (Return tt, {| self := self s; outside := log_world log_callback line (outside s) |}).
Proof. destruct s as [d w], log_callback; reflexivity. Qed.

Lemma steam_root_logged (log_callback : bool) (line : string) (d : SteamToolsDownloader)
    (w : world) :
  steam_root {| self := d; outside := log_world log_callback line w |}
  = steam_root {| self := d; outside := w |}.
Proof. destruct log_callback; reflexivity. Qed.

Lemma find_steam_folder_none (s : state) :
  steam_root s = None -> find_steam_folder s = (Return None, s).
Proof.
  destruct s as [[cache exe folder] w]. unfold steam_root, find_steam_folder.
  unfold mbind, M_bind, mret, M_ret, get_self, get_world. cbn [self outside _steam_folder].
  destruct folder; [discriminate|]. cbn [self outside _steam_folder].
  intros Hfind. rewrite Hfind. reflexivity.
Qed.

(** X14. With something staged and no installation root, the installer
    returns [False] and touches nothing: the staged files stay, no folder is
    created, no root is remembered; only the two lines go to the callback. *)
Theorem install_without_root (source_dir : path) (log_callback : bool) (st : state) :
  plugin_files (nodes (outside st)) source_dir ++ manifest_files (nodes (outside st)) source_dir
    <> [] ->
  steam_root st = None ->
  copy_files_to_steam source_dir log_callback st
  = (Return false,
     {| self := self st;
        outside :=
          log_world log_callback (nl +:+ "Could not find Steam installation.")
            (log_world log_callback (nl +:+ "[3/5] Copying files to Steam...") (outside st)) |}).
Proof.
  intros Hfiles Hroot. destruct st as [d w]. cbn [self outside] in *.
  unfold copy_files_to_steam.
  unfold mbind at 1, M_bind at 1, get_world at 1. cbn [outside].
  rewrite (files_nonempty _ _ Hfiles).
  rewrite (bind_return _ _ _ _ _ (log_step _ _ _)). cbn [self outside].
  rewrite <- (steam_root_logged log_callback (nl +:+ "[3/5] Copying files to Steam...")) in Hroot.
  rewrite (bind_return _ _ _ _ _ (find_steam_folder_none _ Hroot)).
  rewrite (bind_return _ _ _ _ _ (log_step _ _ _)). reflexivity.
Qed.

Lemma install_without_root_witness :
  copy_files_to_steam ["downloads"] true (disk_state no_steam_fs ∅)
  = (Return false,
     {| self := self (disk_state no_steam_fs ∅);
        outside :=
          log_world true (nl +:+ "Could not find Steam installation.")
            (log_world true (nl +:+ "[3/5] Copying files to Steam...")
               (outside (disk_state no_steam_fs ∅))) |}).
Proof.
  apply (install_without_root ["downloads"] true (disk_state no_steam_fs ∅)).
  - vm_compute. discriminate.
  - vm_compute. reflexivity.
Defined.

Section installer_frame.
Variables (source_dir : path) (log_callback : bool) (st : state).
Variables (steam_folder : path) (fs1 fs2 : gmap path node).

Local Abbreviation fs0 := (nodes (outside st)).
Local Abbreviation deny := (denied (outside st)).
Local Abbreviation after := (copy_files_to_steam source_dir log_callback st).
Local Abbreviation final := (nodes (outside after.2)).

Hypothesis Hfiles : plugin_files fs0 source_dir ++ manifest_files fs0 source_dir <> [].
Hypothesis Hroot : steam_root st = Some steam_folder.
Hypothesis Hmk1 : Fs.mkdir_p fs0 (stplug steam_folder) = Some fs1.
Hypothesis Hmk2 : Fs.mkdir_p fs1 (depotcache steam_folder) = Some fs2.

Lemma final_is_installed : final = installed fs0 fs2 deny source_dir steam_folder.
Proof.
  apply (install_result source_dir log_callback st steam_folder fs1 fs2 Hfiles Hroot Hmk1 Hmk2).
Qed.

Lemma made_dirs (q : path) :
  fs2 !! q = fs0 !! q
  \/ (fs0 !! q = None /\ fs2 !! q = Some Dir
      /\ (q `prefix_of` stplug steam_folder \/ q `prefix_of` depotcache steam_folder)).
Proof.
  destruct (mkdir_p_spec _ _ _ Hmk1) as [Hkeep1 Hnew1].
  destruct (mkdir_p_spec _ _ _ Hmk2) as [Hkeep2 Hnew2].
  destruct (fs0 !! q) as [n|] eqn:E0.
  { left. apply Hkeep2, Hkeep1, E0. }
  destruct (decide (fs2 !! q = fs1 !! q)) as [E21|N21].
  - destruct (decide (fs1 !! q = fs0 !! q)) as [E10|N10].
    + left. congruence.
    + right. destruct (Hnew1 q N10) as [Hdir Hpre]. rewrite E21. auto.
  - right. destruct (Hnew2 q N21) as [Hdir Hpre]. auto.
Qed.

Lemma staging_listed : Fs.is_dir fs0 source_dir = true.
Proof.
  destruct (plugin_files fs0 source_dir ++ manifest_files fs0 source_dir) as [|f l] eqn:E;
    [contradiction|].
  assert (f ∈ plugin_files fs0 source_dir ++ manifest_files fs0 source_dir) as Hin
    by (rewrite E; left).
  unfold plugin_files, manifest_files in Hin. rewrite !elem_of_app in Hin.
  destruct Hin as [[Hin|Hin]|Hin]; apply rglob_elem in Hin; tauto.
Qed.

Lemma staging_gone (q : path) :
  (forall e, source_dir `prefix_of` e -> e ∉ deny) ->
  source_dir `prefix_of` q -> final !! q = None.
Proof.
  intros Hfree Hq. rewrite final_is_installed. unfold installed.
  apply cleanup_removes; [|intros e He _; apply Hfree, He|exact Hq]. rewrite !is_dir_loop.
  apply (is_dir_kept fs0 fs2); [|exact staging_listed].
  intros p n Hp. apply (mkdir_p_spec _ _ _ Hmk2), (mkdir_p_spec _ _ _ Hmk1), Hp.
Qed.

(** X15. The installer changes nothing outside the staging directory and
    the two destination folders, except that it creates the folders and
    their missing parents: any other entry is what it was. *)
Theorem install_frame (q : path) :
  ¬ source_dir `prefix_of` q ->
  ¬ stplug steam_folder `prefix_of` q ->
  ¬ depotcache steam_folder `prefix_of` q ->
  final !! q = fs0 !! q
  \/ (fs0 !! q = None /\ final !! q = Some Dir
      /\ (q `prefix_of` stplug steam_folder \/ q `prefix_of` depotcache steam_folder)).
Proof.
  intros Hsrc Hplug Hdepot.
  assert (final !! q = fs2 !! q) as ->.
  { rewrite final_is_installed. unfold installed.
    rewrite cleanup_outside by exact Hsrc.
    rewrite loop_outside by exact Hdepot. apply loop_outside, Hplug. }
  apply made_dirs.
Qed.

(** X16. A destination the system refuses to write keeps what it held:
    the installer neither replaces nor removes it. *)
Theorem install_keeps_refused (plugin : bool) (n : string) :
  apart source_dir (loop_folder plugin steam_folder) ->
  loop_folder plugin steam_folder ++ [n] ∈ deny ->
  final !! (loop_folder plugin steam_folder ++ [n])
  = fs0 !! (loop_folder plugin steam_folder ++ [n]).
Proof.
  intros Hapart Hdenied. rewrite final_is_installed. unfold installed.
  rewrite cleanup_outside by (apply apart_entry, Hapart).
  rewrite !loop_denied by exact Hdenied.
  destruct (made_dirs (loop_folder plugin steam_folder ++ [n])) as [E|(_ & _ & [Hpre|Hpre])];
    [exact E| |].
  - destruct (entry_not_ancestor plugin true steam_folder n Hpre).
  - destruct (entry_not_ancestor plugin false steam_folder n Hpre).
Qed.

(** X17. When the system refuses to remove nothing below the staging
    directory, so that the cleanup of the first call succeeds, a second call
    right after it finds nothing to copy: it returns [False] and leaves the
    file system as the first call left it. *)
Theorem install_twice :
  source_dir <> [] ->
  (forall e, source_dir `prefix_of` e -> e ∉ deny) ->
  (copy_files_to_steam source_dir log_callback after.2).1 = Return false
  /\ nodes (outside (copy_files_to_steam source_dir log_callback after.2).2) = final.
Proof.
  intros Hne Hfree.
  assert (Fs.is_dir final source_dir = false) as Hgone.
  { unfold Fs.is_dir. rewrite lookup_nonroot by exact Hne.
    rewrite (staging_gone _ Hfree) by reflexivity. apply bool_decide_eq_false_2. discriminate. }
  destruct after.2 as [d w] eqn:E. cbn [outside] in *.
  unfold copy_files_to_steam. monad_unfold. unfold Fs.rglob. rewrite Hgone.
  rewrite !bool_decide_eq_true_2 by reflexivity. cbn [andb].
  destruct log_callback; split; reflexivity.
Qed.

End installer_frame.

Lemma install_frame_witness :
  nodes (outside (copy_files_to_steam ["downloads"] true (disk_state staged_fs locked_441)).2)
    !! ["C:"] = nodes (outside (disk_state staged_fs locked_441)) !! ["C:"]
  \/ (nodes (outside (disk_state staged_fs locked_441)) !! ["C:"] = None
      /\ nodes (outside (copy_files_to_steam ["downloads"] true
                           (disk_state staged_fs locked_441)).2) !! ["C:"] = Some Dir
      /\ (["C:"] `prefix_of` stplug steam_dir \/ ["C:"] `prefix_of` depotcache steam_dir)).
Proof.
  apply (install_frame ["downloads"] true (disk_state staged_fs locked_441)
           steam_dir staged_fs1 staged_fs2).
  - vm_compute. discriminate.
  - vm_compute. reflexivity.
  - by_compute.
  - by_compute.
  - intros [k Hk]. discriminate Hk.
  - intros [k Hk]. discriminate Hk.
  - intros [k Hk]. discriminate Hk.
Defined.

Lemma install_keeps_refused_witness :
  nodes (outside (copy_files_to_steam ["downloads"] true (disk_state staged_fs locked_441)).2)
    !! (loop_folder true steam_dir ++ ["441.lua"])
  = nodes (outside (disk_state staged_fs locked_441)) !! (loop_folder true steam_dir ++ ["441.lua"]).
Proof.
  apply (install_keeps_refused ["downloads"] true (disk_state staged_fs locked_441)
           steam_dir staged_fs1 staged_fs2).
  - vm_compute. discriminate.
  - vm_compute. reflexivity.
  - by_compute.
  - by_compute.
  - apply (staged_apart true).
  - by_compute.
Defined.

Lemma install_twice_witness :
  (copy_files_to_steam ["downloads"] true
     (copy_files_to_steam ["downloads"] true (disk_state staged_fs locked_441)).2).1
  = Return false
  /\ nodes (outside (copy_files_to_steam ["downloads"] true
                       (copy_files_to_steam ["downloads"] true
                          (disk_state staged_fs locked_441)).2).2)
     = nodes (outside (copy_files_to_steam ["downloads"] true
                         (disk_state staged_fs locked_441)).2).
Proof.
  apply (install_twice ["downloads"] true (disk_state staged_fs locked_441)
           steam_dir staged_fs1 staged_fs2).
  - vm_compute. discriminate.
  - vm_compute. reflexivity.
  - by_compute.
  - by_compute.
  - discriminate.
  - intros e [k ->] Hin. change (["downloads"] ++ k ∈ locked_441) in Hin.
    apply elem_of_singleton in Hin. discriminate Hin.
Defined.

Lemma mkdir_blocked_run (p : path) (s : state) :
  Fs.mkdir_p (nodes (outside s)) p = None ->
  fs_op p (fun fs _ => Fs.mkdir_p fs p) s
  = (Raise (Exn "OSError" (os_error (outside s) p)), s).
Proof. intros Hmk. unfold fs_op. rewrite Hmk. reflexivity. Qed.

Lemma bind_raise {A B : Type} (m : M A) (f : A -> M B) (s s' : state) (e : exn) :
  m s = (Raise e, s') -> (m ≫= f) s = (Raise e, s').
Proof. intros Hm. unfold mbind, M_bind. rewrite Hm. reflexivity. Qed.

(** X18. When a destination folder cannot be created, a component of its
    path being a regular file, the installer raises instead of returning:
    nothing is copied, and the staging directory is not removed. *)
Theorem install_raises_when_blocked (source_dir : path) (log_callback : bool) (st : state)
    (steam_folder : path) :
  plugin_files (nodes (outside st)) source_dir ++ manifest_files (nodes (outside st)) source_dir
    <> [] ->
  steam_root st = Some steam_folder ->
  Fs.mkdir_p (nodes (outside st)) (stplug steam_folder) = None ->
  (exists e, (copy_files_to_steam source_dir log_callback st).1 = Raise e)
  /\ nodes (outside (copy_files_to_steam source_dir log_callback st).2) = nodes (outside st).
Proof.
  intros Hfiles Hroot Hmk. destruct st as [d w]. cbn [self outside] in *.
  assert (exists e d' lines,
            copy_files_to_steam source_dir log_callback {| self := d; outside := w |}
            = (Raise e, {| self := d'; outside := with_disk (nodes w) lines w |})) as Hrun.
  { unfold copy_files_to_steam.
    unfold mbind at 1, M_bind at 1, get_world at 1. cbn [outside].
    rewrite (files_nonempty _ _ Hfiles).
    replace {| self := d; outside := w |}
      with {| self := d; outside := with_disk (nodes w) [] w |} in Hroot |- *
      by (rewrite <- with_disk_id; reflexivity).
    rewrite (bind_return _ _ _ _ _
               (log_run log_callback (nl +:+ "[3/5] Copying files to Steam...") d w (nodes w) [])).
    set (l1 := [] ++ said log_callback [nl +:+ "[3/5] Copying files to Steam..."]).
    assert (steam_root {| self := d; outside := with_disk (nodes w) l1 w |} = Some steam_folder)
      as Hroot1 by exact Hroot.
    destruct (find_steam_folder_run d w (nodes w) l1 steam_folder Hroot1) as (d' & H2 & _).
    rewrite (bind_return _ _ _ _ _ H2).
    rewrite (bind_raise _ _ _ _ _
               (mkdir_blocked_run (stplug steam_folder)
                  {| self := d'; outside := with_disk (nodes w) l1 w |} Hmk)).
    eauto. }
  destruct Hrun as (e & d' & lines & ->). split; [eauto|reflexivity].
Qed.

Lemma install_raises_when_blocked_witness :
  (exists e, (copy_files_to_steam ["downloads"] true (disk_state blocked_fs ∅)).1 = Raise e)
  /\ nodes (outside (copy_files_to_steam ["downloads"] true (disk_state blocked_fs ∅)).2)
     = nodes (outside (disk_state blocked_fs ∅)).
Proof.
  apply (install_raises_when_blocked ["downloads"] true (disk_state blocked_fs ∅) steam_dir).
  - vm_compute. discriminate.
  - vm_compute. reflexivity.
  - by_compute.
Defined.

(** ** Launching the companion tool *)

(** X19. A stored path that no longer exists on disk is not looked for
    again: the launch is skipped with the warning, the stored path is
    kept, and nothing is spawned, even if the tool is installed elsewhere. *)
Theorem launch_skips_stale_path (log_callback : bool) (st : state) (exe : path) :
  steamtools_exe (self st) = Some exe ->
  Fs.exists_ (nodes (outside st)) exe = false ->
  launch_steamtools log_callback st
  = (Return false,
     {| self := self st; outside := log_world log_callback skip_warning (outside st) |}).
Proof.
  intros Hexe Hgone. destruct st as [[cache stored folder] w]. cbn [self outside steamtools_exe] in *.
  subst stored. unfold launch_steamtools, log_world.
  unfold mbind, M_bind, mret, M_ret, get_self, get_world, log, modify_world.
  cbn [self outside steamtools_exe]. rewrite Hgone.
  destruct log_callback; reflexivity.
Qed.

Lemma launch_skips_stale_path_witness :
  launch_steamtools true
    {| self := set_steamtools_exe (Some ["C:"; "Tools"; "SteamTools.exe"]) fresh_downloader;
       outside := bare_world offline installed_fs ∅ |}
  = (Return false,
     {| self := set_steamtools_exe (Some ["C:"; "Tools"; "SteamTools.exe"]) fresh_downloader;
        outside := log_world true skip_warning (bare_world offline installed_fs ∅) |}).
Proof.
  apply (launch_skips_stale_path true
           {| self := set_steamtools_exe (Some ["C:"; "Tools"; "SteamTools.exe"]) fresh_downloader;
              outside := bare_world offline installed_fs ∅ |}
           ["C:"; "Tools"; "SteamTools.exe"]).
  - reflexivity.
  - vm_compute. reflexivity.
Defined.

(** The two ways [launch_steamtools] ends when every probe of the file
    system answers. *)
Lemma launch_cases (log_callback : bool) (st : state) :
  ((launch_steamtools log_callback st).1 = Return true
   /\ exists exe,
        steamtools_exe (self (launch_steamtools log_callback st).2) = Some exe
        /\ Fs.exists_ (nodes (outside st)) exe = true
        /\ popen_error (outside st) exe = None
        /\ shell_commands (outside (launch_steamtools log_callback st).2)
           = shell_commands (outside st) ++ [exe])
  \/ ((launch_steamtools log_callback st).1 = Return false
      /\ shell_commands (outside (launch_steamtools log_callback st).2)
         = shell_commands (outside st)).
Proof.
  destruct st as [[cache stored folder] w].
  unfold launch_steamtools, find_steamtools_exe, popen.
  unfold mbind, M_bind, mret, M_ret, get_self, get_world, log, modify_world, modify_self,
    try_except, raise.
  cbn [self outside steamtools_exe set_steamtools_exe].
  destruct stored as [exe|];
    cbn [self outside steamtools_exe set_steamtools_exe fst snd];
    [|destruct (first_exe (nodes w) (common_paths w)) as [exe|];
      cbn [self outside steamtools_exe set_steamtools_exe fst snd];
      [|right; destruct log_callback; split; reflexivity]];
    (destruct (Fs.exists_ (nodes w) exe) eqn:Hex;
     [destruct (popen_error w exe) eqn:Hpop|]);
    cbn [self outside steamtools_exe set_steamtools_exe fst snd];
    try rewrite Hpop;
    try (right; destruct log_callback; split; reflexivity);
    left; (split; [destruct log_callback; reflexivity|]);
    exists exe; destruct log_callback; repeat split; assumption || reflexivity.
Qed.

(** X20. What the result of [launch_steamtools] tells.  When it returns
    [True], [Popen] was called on the path then stored, which the probe
    found on disk, and a shell was spawned for it; whether the shell started
    the tool is not observed.  When it returns [False], no shell was
    spawned. *)
Theorem launch_result (log_callback : bool) (st : state) :
  ((launch_steamtools log_callback st).1 = Return true ->
   exists exe,
     steamtools_exe (self (launch_steamtools log_callback st).2) = Some exe
     /\ Fs.exists_ (nodes (outside st)) exe = true
     /\ popen_error (outside st) exe = None
     /\ shell_commands (outside (launch_steamtools log_callback st).2)
        = shell_commands (outside st) ++ [exe])
  /\ ((launch_steamtools log_callback st).1 = Return false ->
      shell_commands (outside (launch_steamtools log_callback st).2)
      = shell_commands (outside st)).
Proof.
  destruct (launch_cases log_callback st) as [[Htrue Hspawn]|[Hfalse Hsame]]; split;
    intros Hres; try assumption; congruence.
Qed.

(** ** More on the request gate *)

Lemma handle_downloader (e : event) (g : SteamToolsInstaller) :
  downloader (handle e g) = downloader g.
Proof.
  destruct e; cbn; try reflexivity. unfold start_download.
  destruct (is_processing g); [reflexivity|].
  destruct (steamtools_exe (downloader g)); [|reflexivity].
  case_bool_decide; reflexivity.
Qed.

(** X21. Whenever the processing flag is set, the Install button is
    disabled and the progress bar runs: no handler of the window breaks
    this.  (The flag, not the runs: a call of [finish_processing] clears
    the flag and enables the button whatever run scheduled it.) *)
Theorem busy_consistent_run (evs : list event) (g : SteamToolsInstaller) :
  busy_consistent g -> busy_consistent (run evs g).
Proof.
  revert g. induction evs as [|e evs IH]; intros g Hg; [exact Hg|].
  unfold run in *. cbn [foldl]. apply IH. clear IH. unfold busy_consistent in *.
  destruct e; cbn; try exact Hg; [|discriminate].
  unfold start_download. destruct (is_processing g) eqn:Hbusy; [rewrite Hbusy; exact Hg|].
  destruct (steamtools_exe (downloader g)); [|cbn; rewrite Hbusy; discriminate].
  case_bool_decide; cbn; [rewrite Hbusy; discriminate|auto].
Qed.

Lemma busy_consistent_run_witness :
  busy_consistent
    (run [EditEntry "440"; StartRequest; Log "Searching: 440"; StartRequest]
       {| downloader := set_steamtools_exe (Some ["C:"; "SteamTools.exe"]) fresh_downloader;
          is_processing := false; search_entry := ""; install_btn_enabled := true;
          progress_running := false; log_text := ""; status_label := "Ready";
          dialogs := []; threads := [] |}).
Proof.
  apply (busy_consistent_run [EditEntry "440"; StartRequest; Log "Searching: 440"; StartRequest]).
  intros Hbusy. discriminate Hbusy.
Defined.

(** X22. When the companion tool was not found, no start request is ever
    accepted: whatever is typed and however often a run is requested, no
    search thread is started. *)
Theorem no_run_without_tool (evs : list event) (g : SteamToolsInstaller) :
  steamtools_exe (downloader g) = None ->
  accepted_starts evs g = 0%nat /\ search_threads (run evs g) = search_threads g.
Proof.
  intros Hnone.
  assert (accepted_starts evs g = 0%nat) as Hzero.
  { revert g Hnone. induction evs as [|e evs IH]; intros g Hnone; [reflexivity|].
    cbn [accepted_starts]. rewrite IH by (rewrite handle_downloader; exact Hnone).
    destruct e; try reflexivity.
    unfold accepted, start_download. rewrite Hnone.
    destruct (is_processing g); cbn; rewrite bool_decide_eq_false_2 by lia; reflexivity. }
  split; [exact Hzero|]. rewrite search_threads_run, Hzero. lia.
Qed.

Lemma no_run_without_tool_witness :
  accepted_starts [EditEntry "440"; StartRequest; FinishProcessing; StartRequest]
    {| downloader := fresh_downloader;
       is_processing := false; search_entry := ""; install_btn_enabled := false;
       progress_running := false; log_text := ""; status_label := "ERROR: SteamTools not found.";
       dialogs := []; threads := [] |} = 0%nat
  /\ search_threads
       (run [EditEntry "440"; StartRequest; FinishProcessing; StartRequest]
          {| downloader := fresh_downloader;
             is_processing := false; search_entry := ""; install_btn_enabled := false;
             progress_running := false; log_text := "";
             status_label := "ERROR: SteamTools not found.";
             dialogs := []; threads := [] |})
     = search_threads
         {| downloader := fresh_downloader;
            is_processing := false; search_entry := ""; install_btn_enabled := false;
            progress_running := false; log_text := "";
            status_label := "ERROR: SteamTools not found.";
            dialogs := []; threads := [] |}.
Proof.
  apply (no_run_without_tool [EditEntry "440"; StartRequest; FinishProcessing; StartRequest]).
  reflexivity.
Defined.

(** ** Starting Steam again *)

(** X23. When the installation root is found and holds [steam.exe],
    [start_steam] remembers the root and calls [Popen] on [steam.exe]: a
    shell is spawned for it, the line goes to the callback and the result is
    [True] (whether the shell started Steam is not observed), or the error
    of [Popen] is logged, nothing is spawned and the result is [False]. *)
Theorem start_steam_result (log_callback : bool) (st : state) (steam_folder : path) :
  steam_root st = Some steam_folder ->
  Fs.exists_ (nodes (outside st)) (steam_folder ++ ["steam.exe"]) = true ->
  _steam_folder (self (start_steam log_callback st).2) = Some steam_folder
  /\ (popen_error (outside st) (steam_folder ++ ["steam.exe"]) = None ->
      (start_steam log_callback st).1 = Return true
      /\ shell_commands (outside (start_steam log_callback st).2)
         = shell_commands (outside st) ++ [steam_folder ++ ["steam.exe"]]
      /\ logged (outside (start_steam log_callback st).2)
         = logged (outside st) ++ said log_callback ["✓ Steam started"])
  /\ (forall msg,
        popen_error (outside st) (steam_folder ++ ["steam.exe"]) = Some msg ->
        (start_steam log_callback st).1 = Return false
        /\ shell_commands (outside (start_steam log_callback st).2)
           = shell_commands (outside st)
        /\ logged (outside (start_steam log_callback st).2)
           = logged (outside st)
             ++ said log_callback ["⚠ Could not start Steam: " +:+ msg]).
Proof.
  destruct st as [[cache exe folder] w].
  unfold start_steam, find_steam_folder, steam_root, popen.
  unfold mbind, M_bind, mret, M_ret, get_self, get_world, log, modify_world, modify_self,
    try_except, raise.
  cbn [self outside _steam_folder]. intros Hroot Hex.
  cbv beta iota zeta delta [self outside _steam_folder set_steam_folder fst snd].
  destruct folder as [folder|];
    [|destruct (List.find (Fs.exists_ (nodes w)) (possible_paths w)) as [folder|];
      [|discriminate Hroot]];
    injection Hroot as ->;
    cbv beta iota zeta;
    rewrite Hex;
    (split; [destruct (popen_error w (steam_folder ++ ["steam.exe"])), log_callback;
               reflexivity|]);
    (split; [intros Hpop|intros msg Hpop]); rewrite Hpop;
    destruct log_callback; cbn; rewrite ?app_nil_r; auto.
Qed.

Lemma start_steam_result_witness :
  _steam_folder (self (start_steam true (disk_state steam_exe_fs ∅)).2) = Some steam_dir
  /\ (popen_error (outside (disk_state steam_exe_fs ∅)) (steam_dir ++ ["steam.exe"]) = None ->
      (start_steam true (disk_state steam_exe_fs ∅)).1 = Return true
      /\ shell_commands (outside (start_steam true (disk_state steam_exe_fs ∅)).2)
         = shell_commands (outside (disk_state steam_exe_fs ∅)) ++ [steam_dir ++ ["steam.exe"]]
      /\ logged (outside (start_steam true (disk_state steam_exe_fs ∅)).2)
         = logged (outside (disk_state steam_exe_fs ∅)) ++ said true ["✓ Steam started"])
  /\ (forall msg,
        popen_error (outside (disk_state steam_exe_fs ∅)) (steam_dir ++ ["steam.exe"])
        = Some msg ->
        (start_steam true (disk_state steam_exe_fs ∅)).1 = Return false
        /\ shell_commands (outside (start_steam true (disk_state steam_exe_fs ∅)).2)
           = shell_commands (outside (disk_state steam_exe_fs ∅))
        /\ logged (outside (start_steam true (disk_state steam_exe_fs ∅)).2)
           = logged (outside (disk_state steam_exe_fs ∅))
             ++ said true ["⚠ Could not start Steam: " +:+ msg]).
Proof.
  apply (start_steam_result true (disk_state steam_exe_fs ∅) steam_dir).
  - vm_compute. reflexivity.
  - vm_compute. reflexivity.
Defined.

(** X24. When no installation root is found, or the root holds no
    [steam.exe], [start_steam] returns [False] without a word: nothing is
    spawned and no line goes to the callback. *)
Theorem start_steam_silent (log_callback : bool) (st : state) :
  (forall steam_folder,
     steam_root st = Some steam_folder ->
     Fs.exists_ (nodes (outside st)) (steam_folder ++ ["steam.exe"]) = false) ->
  (start_steam log_callback st).1 = Return false
  /\ outside (start_steam log_callback st).2 = outside st.
Proof.
  destruct st as [[cache exe folder] w].
  unfold start_steam, find_steam_folder, steam_root.
  unfold mbind, M_bind, mret, M_ret, get_self, get_world, modify_self.
  cbn [self outside _steam_folder]. intros Hgone.
  destruct folder as [steam_folder|];
    cbn [self outside _steam_folder set_steam_folder fst snd].
  - rewrite (Hgone steam_folder eq_refl). split; reflexivity.
  - destruct (List.find (Fs.exists_ (nodes w)) (possible_paths w)) as [steam_folder|];
      cbn [self outside _steam_folder set_steam_folder fst snd].
    + rewrite (Hgone steam_folder eq_refl). split; reflexivity.
    + split; reflexivity.
Qed.

Lemma start_steam_silent_witness :
  (start_steam true (disk_state empty_staging_fs ∅)).1 = Return false
  /\ outside (start_steam true (disk_state empty_staging_fs ∅)).2
     = outside (disk_state empty_staging_fs ∅).
Proof.
  apply (start_steam_silent true (disk_state empty_staging_fs ∅)).
  intros steam_folder Hroot.
  vm_compute in Hroot. injection Hroot as <-. vm_compute. reflexivity.
Defined.

(** ** The names of the catalog *)

Lemma ch_lower_idem (c : ascii) : Py.ch_lower (Py.ch_lower c) = Py.ch_lower c.
Proof. destruct c as [[] [] [] [] [] [] [] []]; reflexivity. Qed.

Lemma lower_idem (s : string) : Py.lower (Py.lower s) = Py.lower s.
Proof.
  induction s as [|c s IH]; [reflexivity|].
  cbn [Py.lower]. rewrite ch_lower_idem, IH. reflexivity.
Qed.

Lemma build_cache_lower_keys (l : list (string * Z)) : lower_keys (build_cache l).
Proof.
  induction l as [|app l IH] using rev_ind; intros key [v Hv].
  - unfold build_cache in Hv. cbn in Hv. rewrite lookup_empty in Hv. discriminate Hv.
  - rewrite build_cache_snoc in Hv. apply lookup_insert_Some in Hv as [[<- _]|[_ Hv]].
    + apply lower_idem.
    + apply IH. eauto.
Qed.

(** [get_app_list] leaves the cache as it was or replaces it by one built
    from a catalog. *)
Lemma get_app_list_cache (st : state) :
  games_cache (self (get_app_list st).2) = games_cache (self st)
  \/ exists l, games_cache (self (get_app_list st).2) = build_cache l.
Proof.
  destruct st as [d w]. unfold get_app_list. monad_unfold.
  case_bool_decide; [|left; reflexivity].
  destruct (net w (length (requests w)) _) as [msg|r]; [left; reflexivity|].
  destruct (apps r) as [l|]; [right; exists l; reflexivity|left; reflexivity].
Qed.

Lemma py_int_state (s : string) (st : state) : (py_int s st).2 = st.
Proof. unfold py_int. destruct (Py.int s); reflexivity. Qed.

Lemma find_game_state `{SequenceMatcher} (query : string) (st : state) :
  (find_game query st).2 = st \/ (find_game query st).2 = (get_app_list st).2.
Proof.
  unfold find_game.
  destruct (url_app_id query) as [group1|].
  - left. unfold mbind, M_bind. pose proof (py_int_state group1 st) as Hst.
    destruct (py_int group1 st) as [[]]; exact Hst.
  - destruct (Py.isdigit query).
    + left. unfold mbind, M_bind. pose proof (py_int_state query st) as Hst.
      destruct (py_int query st) as [[]]; exact Hst.
    + right. apply lookup_by_name_state.
Qed.

Lemma find_game_lower_keys `{SequenceMatcher} (query : string) (st : state) :
  lower_keys (games_cache (self st)) ->
  lower_keys (games_cache (self (find_game query st).2)).
Proof.
  intros Hkeys. destruct (find_game_state query st) as [->| ->]; [exact Hkeys|].
  destruct (get_app_list_cache st) as [->|[l ->]]; [exact Hkeys|].
  apply build_cache_lower_keys.
Qed.

(** X25. The names of the catalog stay in lower case: whatever is looked
    up, and whatever the catalog host answers, no lookup puts a name with an
    upper-case letter into the cache, so the lowercased query is compared
    with lower-case names only. *)
Theorem catalog_keys_lowercase `{SequenceMatcher} (queries : list string) (st : state) :
  lower_keys (games_cache (self st)) ->
  lower_keys (games_cache (self (foldl (fun s query => (find_game query s).2) st queries))).
Proof.
  revert st. induction queries as [|query queries IH]; intros st Hkeys; [exact Hkeys|].
  cbn [foldl]. apply IH, find_game_lower_keys, Hkeys.
Qed.

Lemma catalog_keys_lowercase_witness :
  lower_keys
    (games_cache
       (self (foldl (fun s query => (find_game query s).2) serving_state
                ["Half-Life 2"; "Portal"]))).
Proof.
  apply (catalog_keys_lowercase ["Half-Life 2"; "Portal"] serving_state).
  intros key [v Hv]. vm_compute in Hv. discriminate Hv.
Defined.

(** ** Confirming a candidate *)

Lemma append_assoc (a b c : string) : (a +:+ b) +:+ c = a +:+ (b +:+ c).
Proof.
  induction a as [|x a IH]; [rewrite !append_nil; reflexivity|].
  rewrite !append_cons, IH. reflexivity.
Qed.

(** *** [str] of an id that is not negative *)

Lemma pretty_N_go_app (x : N) (s : string) : pretty_N_go x s = pretty_N_go x "" +:+ s.
Proof.
  revert s. induction (N.lt_wf_0 x) as [x _ IH]. intros s.
  destruct (decide (x = 0%N)) as [->|Hpos].
  - rewrite !pretty_N_go_0, append_nil. reflexivity.
  - rewrite !(pretty_N_go_step x) by lia.
    assert (x `div` 10 < x)%N as Hlt by (apply N.div_lt; lia).
    rewrite (IH _ Hlt (String _ s)), (IH _ Hlt (String _ "")).
    rewrite append_assoc, append_cons, append_nil. reflexivity.
Qed.

Lemma pretty_N_char_decimal (x : N) : Py.is_decimal (pretty_N_char x) = true.
Proof. unfold pretty_N_char. repeat case_match; reflexivity. Qed.

Lemma pretty_N_char_value (x : N) :
  (x < 10)%N -> Py.digit_value (pretty_N_char x) = Z.of_N x.
Proof.
  intros Hx.
  assert (x = 0 \/ x = 1 \/ x = 2 \/ x = 3 \/ x = 4 \/ x = 5
          \/ x = 6 \/ x = 7 \/ x = 8 \/ x = 9)%N as Hcases by lia.
  repeat (destruct Hcases as [->|Hcases]; [reflexivity|]). subst x. reflexivity.
Qed.

Lemma int_acc_app (acc : Z) (s t : string) :
  Py.int_acc acc (s +:+ t) = Py.int_acc (Py.int_acc acc s) t.
Proof.
  revert acc. induction s as [|c s IH]; intros acc; [rewrite append_nil; reflexivity|].
  rewrite append_cons. cbn [Py.int_acc]. apply IH.
Qed.

Lemma pretty_N_go_digits (x : N) :
  Py.all_chars Py.is_decimal (pretty_N_go x "") = true
  /\ Py.int_acc 0 (pretty_N_go x "") = Z.of_N x
  /\ (x <> 0%N -> pretty_N_go x "" <> "").
Proof.
  induction (N.lt_wf_0 x) as [x _ IH].
  destruct (decide (x = 0%N)) as [->|Hpos]; [rewrite pretty_N_go_0; auto|].
  rewrite pretty_N_go_step by lia. rewrite pretty_N_go_app.
  destruct (IH (x `div` 10)%N) as (Hall & Hval & _); [apply N.div_lt; lia|].
  repeat split.
  - rewrite all_chars_app, Hall. cbn [Py.all_chars].
    rewrite pretty_N_char_decimal. reflexivity.
  - rewrite int_acc_app, Hval. cbn [Py.int_acc].
    rewrite pretty_N_char_value by (apply N.mod_lt; lia).
    rewrite (N.div_mod x 10) at 3 by lia. lia.
  - intros _. destruct (pretty_N_go (x `div` 10) ""); discriminate.
Qed.

Lemma length_append (a b : string) :
  String.length (a +:+ b) = (String.length a + String.length b)%nat.
Proof.
  induction a as [|x a IH]; [reflexivity|].
  rewrite append_cons. cbn [String.length]. rewrite IH. reflexivity.
Qed.

Lemma pretty_N_go_length (x : N) (n : nat) :
  (x < 10 ^ N.of_nat n)%N -> (String.length (pretty_N_go x "") <= n)%nat.
Proof.
  revert n. induction (N.lt_wf_0 x) as [x _ IH]. intros n Hx.
  destruct (decide (x = 0%N)) as [->|Hpos]; [rewrite pretty_N_go_0; cbn; lia|].
  destruct n as [|n]; [cbn in Hx; lia|].
  rewrite pretty_N_go_step by lia. rewrite pretty_N_go_app, length_append.
  cbn [String.length]. rewrite Nat2N.inj_succ, N.pow_succ_r' in Hx.
  assert (String.length (pretty_N_go (x `div` 10) "") <= n)%nat; [|lia].
  apply IH; [apply N.div_lt; lia|]. apply N.Div0.div_lt_upper_bound. exact Hx.
Qed.

(** [str] of an id that is not negative and has at most 4300 digits is a
    run of decimal digits that [int] reads back as the id. *)
Lemma pretty_digits (app_id : Z) :
  0 <= app_id < 10 ^ Py.max_str_digits ->
  pretty app_id <> ""
  /\ Py.all_chars Py.is_decimal (pretty app_id) = true
  /\ Py.int (pretty app_id) = Some app_id.
Proof.
  intros [Hpos Hmax]. destruct app_id as [|p|p]; [repeat split; discriminate| |lia].
  change (pretty (Z.pos p)) with (pretty_N_go (N.pos p) "").
  destruct (pretty_N_go_digits (N.pos p)) as (Hall & Hval & Hne).
  specialize (Hne ltac:(discriminate)).
  repeat split; [exact Hne|exact Hall|].
  rewrite int_decimal; [rewrite Hval; reflexivity|exact Hne|exact Hall|].
  pose proof (pretty_N_go_length (N.pos p) (Z.to_nat Py.max_str_digits)) as Hlen.
  rewrite Z_nat_N in Hlen.
  assert (N.pos p < 10 ^ Z.to_N Py.max_str_digits)%N as Hlt.
  { apply N2Z.inj_lt. rewrite N2Z.inj_pow, Z2N.id by (unfold Py.max_str_digits; lia).
    exact Hmax. }
  specialize (Hlen Hlt). unfold Py.max_str_digits in *. lia.
Qed.

(** *** The pattern on a row of the list *)

Lemma lower_tail (c : ascii) (t : string) :
  Py.lower (String c t) = String c t -> Py.ch_lower c = c /\ Py.lower t = t.
Proof. cbn [Py.lower]. intros [= Hc Ht]. auto. Qed.

Lemma lower_substring (n : nat) (s : string) :
  Py.lower s = s -> Py.lower (String.substring 0 n s) = String.substring 0 n s.
Proof.
  revert n. induction s as [|c s IH]; intros n Hs; [destruct n; reflexivity|].
  apply lower_tail in Hs as [Hc Hs]. destruct n as [|n]; [reflexivity|].
  cbn [String.substring Py.lower]. rewrite Hc, IH by exact Hs. reflexivity.
Qed.

(** No position of a lower-case name begins a match, whatever follows the
    name: the pattern has an upper-case letter in second place. *)
Lemma match_id_here_lower (c : ascii) (t s : string) :
  Py.lower (String c t) = String c t ->
  match_id_here (String c t +:+ " (ID: " +:+ s) = None.
Proof.
  intros [_ Ht]%lower_tail. unfold match_id_here.
  assert (Py.startswith (String c t +:+ " (ID: " +:+ s) "(ID: " = false) as ->; [|reflexivity].
  destruct t as [|c2 t].
  - rewrite append_cons, append_nil. cbn. apply andb_false_r.
  - rewrite !append_cons. cbn [Py.startswith].
    apply lower_tail in Ht as [Hc2 _].
    destruct (Ascii.eqb_spec "I" c2) as [<-|_]; [discriminate Hc2|].
    apply andb_false_r.
Qed.

Lemma drop_length_app (ds t : string) : Py.drop (String.length ds) (ds +:+ t) = t.
Proof.
  induction ds as [|c ds IH]; [rewrite append_nil; reflexivity|].
  rewrite append_cons. exact IH.
Qed.

Lemma match_id_here_eq (ds : string) :
  ds <> "" -> Py.all_chars Py.is_decimal ds = true ->
  match_id_here ("(ID: " +:+ ds +:+ ")") = Some ds.
Proof.
  intros Hne Hall. unfold match_id_here. rewrite startswith_app_true.
  change (Py.drop 5 ("(ID: " +:+ ds +:+ ")")) with (ds +:+ ")").
  rewrite (take_while_app _ ds ")" Hall eq_refl).
  destruct ds as [|d ds]; [congruence|].
  rewrite drop_length_app. reflexivity.
Qed.

Lemma re_search_id_cons (c : ascii) (t : string) :
  re_search_id (String c t) =
    match match_id_here (String c t) with
    | Some ds => Some ds
    | None => re_search_id t
    end.
Proof. reflexivity. Qed.

(** The search on the row of a lower-case name finds the id of the row. *)
Lemma re_search_id_line (t ds : string) :
  Py.lower t = t -> ds <> "" -> Py.all_chars Py.is_decimal ds = true ->
  re_search_id (t +:+ " (ID: " +:+ ds +:+ ")") = Some ds.
Proof.
  intros Ht Hne Hall. induction t as [|c t IH].
  - rewrite append_nil.
    change (" (ID: " +:+ ds +:+ ")") with (String " " ("(ID: " +:+ ds +:+ ")")).
    rewrite re_search_id_cons.
    change (match_id_here (String " " ("(ID: " +:+ ds +:+ ")"))) with (@None string).
    pose proof (match_id_here_eq ds Hne Hall) as Hhere.
    destruct ("(ID: " +:+ ds +:+ ")") eqn:E; [discriminate Hhere|].
    rewrite re_search_id_cons, Hhere. reflexivity.
  - pose proof (match_id_here_lower c t (ds +:+ ")") Ht) as Hnone.
    apply lower_tail in Ht as [_ Ht].
    change (String c t +:+ " (ID: " +:+ ds +:+ ")")
      with (String c (t +:+ " (ID: " +:+ ds +:+ ")")) in *.
    rewrite re_search_id_cons, Hnone. apply IH, Ht.
Qed.

(** Confirming the row of a lower-case name starts the download of the id
    of the row. *)
Lemma on_select_line (name : string) (app_id : Z) (g : SteamToolsInstaller) :
  Py.lower name = name -> 0 <= app_id < 10 ^ Py.max_str_digits ->
  on_select (Some (listbox_line name app_id)) g = download_thread_start app_id g.
Proof.
  intros Hname Hid. destruct (pretty_digits app_id Hid) as (Hne & Hall & Hint).
  unfold on_select, listbox_line.
  rewrite (re_search_id_line _ _ (lower_substring 40 name Hname) Hne Hall).
  rewrite Hint. reflexivity.
Qed.

Lemma candidate_set_free_text `{SequenceMatcher} (query : string) (st : state)
    (l : list (string * Z)) :
  (find_game query st).1 = Return (CandidateSet l) -> free_text query.
Proof.
  unfold find_game, free_text.
  destruct (url_app_id query) as [group1|].
  - unfold py_int, mbind, M_bind. destruct (Py.int group1); discriminate.
  - destruct (Py.isdigit query); [|auto].
    unfold py_int, mbind, M_bind. destruct (Py.int query); discriminate.
Qed.

(** X26. Confirming a row of the candidate list starts the download of
    the candidate of that row: with a catalog of lower-case names and an id
    that is not negative and has at most 4300 digits (one [int] converts),
    the id read back from the text of the row is the id of the candidate,
    whatever its name contains and wherever the name was cut to forty
    characters. *)
Theorem confirm_candidate `{SequenceMatcher} (query : string) (st : state)
    (l : list (string * Z)) (i : nat) (c : string * Z) (g : SteamToolsInstaller) :
  lower_keys (games_cache (self st)) ->
  (find_game query st).1 = Return (CandidateSet l) ->
  l !! i = Some c ->
  0 <= c.2 < 10 ^ Py.max_str_digits ->
  on_select (listbox_lines l !! i) g = download_thread_start c.2 g.
Proof.
  intros Hkeys Hres Hi Hid.
  pose proof (candidate_set_free_text query st l Hres) as Hfree.
  destruct (find_game_candidates query st l Hfree Hres) as [_ Hids].
  unfold listbox_lines. rewrite list_lookup_fmap, Hi. cbn [fmap option_fmap option_map].
  apply on_select_line; [|exact Hid].
  apply (find_game_lower_keys query st Hkeys). exists c.2.
  apply (proj1 (Forall_forall _ _) Hids c), (list_elem_of_lookup_2 _ _ _ Hi).
Qed.

Lemma confirm_candidate_witness :
  on_select (listbox_lines [("half-life", 70); ("half-life 2", 220)] !! 1%nat)
    {| downloader := self cached_state;
       is_processing := true; search_entry := "Half-Lfe"; install_btn_enabled := false;
       progress_running := true; log_text := ""; status_label := "Searching for game...";
       dialogs := []; threads := [InitialSearchThread "Half-Lfe"] |}
  = download_thread_start ("half-life 2", 220).2
      {| downloader := self cached_state;
         is_processing := true; search_entry := "Half-Lfe"; install_btn_enabled := false;
         progress_running := true; log_text := ""; status_label := "Searching for game...";
         dialogs := []; threads := [InitialSearchThread "Half-Lfe"] |}.
Proof.
  apply (confirm_candidate "Half-Lfe" cached_state
           [("half-life", 70); ("half-life 2", 220)] 1 ("half-life 2", 220)).
  - exact (build_cache_lower_keys _).
  - vm_compute. reflexivity.
  - reflexivity.
  - split; [discriminate|vm_compute; reflexivity].
Defined.

(** ** The query of a search *)

Lemma append_nil_r (s : string) : s +:+ "" = s.
Proof. induction s as [|c s IH]; [reflexivity|]. rewrite append_cons, IH. reflexivity. Qed.

Lemma rev_app_spec (a t : string) : String.rev_app a t = String.rev a +:+ t.
Proof.
  revert t. induction a as [|x a IH]; intros t; [reflexivity|].
  unfold String.rev. cbn [String.rev_app]. rewrite (IH (String x t)), (IH (String x "")).
  rewrite append_assoc, append_cons, append_nil. reflexivity.
Qed.

Lemma rev_cons (x : ascii) (a : string) :
  String.rev (String x a) = String.rev a +:+ String x "".
Proof. unfold String.rev at 1. cbn [String.rev_app]. apply rev_app_spec. Qed.

Lemma rev_app_distr (a b : string) : String.rev (a +:+ b) = String.rev b +:+ String.rev a.
Proof.
  induction a as [|x a IH].
  - rewrite append_nil. change (String.rev "") with "". rewrite append_nil_r. reflexivity.
  - rewrite append_cons, !rev_cons, IH, append_assoc. reflexivity.
Qed.

Lemma rev_involutive (s : string) : String.rev (String.rev s) = s.
Proof.
  induction s as [|x s IH]; [reflexivity|].
  rewrite rev_cons, rev_app_distr, IH. reflexivity.
Qed.

Lemma take_drop_while (p : ascii -> bool) (s : string) :
  Py.take_while p s +:+ Py.drop_while p s = s.
Proof.
  induction s as [|c s IH]; [reflexivity|].
  cbn [Py.take_while Py.drop_while]. destruct (p c); [|reflexivity].
  rewrite append_cons, IH. reflexivity.
Qed.

Lemma drop_while_idem (p : ascii -> bool) (s : string) :
  Py.drop_while p (Py.drop_while p s) = Py.drop_while p s.
Proof.
  induction s as [|c s IH]; [reflexivity|].
  cbn [Py.drop_while]. destruct (p c) eqn:Hc; [exact IH|].
  cbn [Py.drop_while]. rewrite Hc. reflexivity.
Qed.

Lemma drop_while_length (p : ascii -> bool) (s : string) :
  (String.length (Py.drop_while p s) <= String.length s)%nat.
Proof.
  induction s as [|c s IH]; [reflexivity|].
  cbn [Py.drop_while]. destruct (p c); cbn [String.length]; lia.
Qed.

(** A string that begins with no character of [p] has no prefix that
    does. *)
Lemma drop_while_fixed_app (p : ascii -> bool) (a b : string) :
  Py.drop_while p (a +:+ b) = a +:+ b -> Py.drop_while p a = a.
Proof.
  destruct a as [|c a]; [reflexivity|].
  rewrite append_cons. cbn [Py.drop_while]. destruct (p c); [|reflexivity].
  intros Heq. pose proof (drop_while_length p (a +:+ b)) as Hlen.
  rewrite Heq in Hlen. cbn [String.length] in Hlen. lia.
Qed.

Lemma strip_stripped (s : string) : stripped (Py.strip s).
Proof.
  unfold stripped, Py.strip.
  set (u := Py.drop_while Py.ch_isspace s).
  split; [|rewrite rev_involutive; apply drop_while_idem].
  apply (drop_while_fixed_app _ _ (String.rev (Py.take_while Py.ch_isspace (String.rev u)))).
  rewrite <- rev_app_distr, take_drop_while, rev_involutive.
  apply drop_while_idem.
Qed.

(** X27. The query handed to a search thread is never empty and has no
    whitespace at either end, whatever was typed and in whatever order the
    handlers of the window ran. *)
Theorem search_queries_clean (evs : list event) (g : SteamToolsInstaller) :
  Forall clean_query (threads g) -> Forall clean_query (threads (run evs g)).
Proof.
  revert g. induction evs as [|e evs IH]; intros g Hg; [exact Hg|].
  unfold run in *. cbn [foldl]. apply IH. clear IH.
  destruct e; cbn; try exact Hg.
  - unfold start_download. destruct (is_processing g); [exact Hg|].
    destruct (steamtools_exe (downloader g)); [|exact Hg].
    case_bool_decide as Hquery; [exact Hg|]. cbn [threads].
    apply Forall_app. split; [exact Hg|]. constructor; [|constructor].
    split; [exact Hquery|apply strip_stripped].
  - apply Forall_app. split; [exact Hg|]. constructor; [exact I|constructor].
Qed.

Lemma search_queries_clean_witness :
  Forall clean_query
    (threads
       (run [EditEntry "  Half-Life 2 "; StartRequest; DownloadThreadStart 220]
          {| downloader := set_steamtools_exe (Some ["C:"; "SteamTools.exe"]) fresh_downloader;
             is_processing := false; search_entry := ""; install_btn_enabled := true;
             progress_running := false; log_text := ""; status_label := "Ready";
             dialogs := []; threads := [] |})).
Proof.
  apply (search_queries_clean [EditEntry "  Half-Life 2 "; StartRequest; DownloadThreadStart 220]).
  constructor.
Defined.
